(** * Is This Image Real? -- a model of the extension's automation

    The extension has two scripts.  [background.js] is the service worker:
    it stores a pending image check in [chrome.storage.local], hands it to
    the content script on request and fetches image bytes on its behalf.
    [content.js] runs inside the Gemini page: it waits for the chat input,
    types the "@SynthID" query, uploads the image and presses send.

    The scripts are embedded shallowly.  The service worker is a function on
    its key-value store; its answer to the request for the pending check,
    which it gives from callbacks, is also modelled step by step.  The
    content script is a computation in a small
    monad whose runs return a result (a value or a thrown error) together
    with the list of events the run produced; the state of the world (clock,
    host page, store) after a run is obtained by replaying these events. *)

From Stdlib Require Import ZArith String List Lia Bool Ascii.
From stdpp Require Import gmap strings pretty.
From Equations Require Import Equations.
Import ListNotations.

Local Open Scope string_scope.
Local Open Scope Z_scope.
Local Open Scope list_scope.

(** ** JavaScript strings

    A string stands for the text it holds in UTF-8, as the string literals
    of this file do: a character of the text (a code point) takes one to
    four bytes, a first byte and the continuation bytes after it.  The
    helpers below are the [String.prototype] methods the scripts call. *)
Module JS.

(** A byte that continues a character: [10xxxxxx]. *)
Definition is_continuation (c : ascii) : bool :=
  let n := nat_of_ascii c in
  (Nat.leb 128 n && Nat.leb n 191)%bool.

(** [s] goes on with the character before it. *)
Definition continues (s : string) : bool :=
  match s with
  | String next _ => is_continuation next
  | EmptyString => false
  end.

(** The characters of [s], as [for (const char of s)] goes through them:
    each is a first byte with the continuation bytes that follow it. *)
Fixpoint code_points (s : string) : list string :=
  match s with
  | EmptyString => []
  | String c rest =>
      match code_points rest with
      | char :: chars =>
          if continues rest then String c char :: chars
          else String c EmptyString :: char :: chars
      | [] => [String c EmptyString]
      end
  end.

(** [s.startsWith(p)] *)
Definition startsWith (p s : string) : bool := String.prefix p s.

(** [s.includes(needle)] *)
Fixpoint includes (needle s : string) : bool :=
  String.prefix needle s ||
  match s with
  | EmptyString => false
  | String _ rest => includes needle rest
  end.

(** [s.split(sep)] for a one-character separator: never an empty array. *)
Fixpoint split (sep : ascii) (s : string) : list string :=
  match s with
  | EmptyString => [EmptyString]
  | String c rest =>
      if Ascii.eqb c sep then EmptyString :: split sep rest
      else match split sep rest with
           | [] => [String c EmptyString]
           | part :: parts => String c part :: parts
           end
  end.

(** Truthiness of a string: only the empty string is falsy. *)
Definition truthy (s : string) : bool :=
  match s with EmptyString => false | String _ _ => true end.

(** [s.toLowerCase()] on the ASCII letters. *)
Definition lower_char (c : ascii) : ascii :=
  let n := nat_of_ascii c in
  if (Nat.leb 65 n && Nat.leb n 90)%bool then ascii_of_nat (n + 32) else c.

Fixpoint toLowerCase (s : string) : string :=
  match s with
  | EmptyString => EmptyString
  | String c rest => String (lower_char c) (toLowerCase rest)
  end.

(** The characters [trim()] removes, ECMAScript's WhiteSpace and
    LineTerminator: U+0009 to U+000D, U+0020, U+00A0, U+1680, U+2000 to
    U+200A, U+2028, U+2029, U+202F, U+205F, U+3000 and U+FEFF, by their
    bytes. *)
Definition is_white_space (char : string) : bool :=
  match map N_of_ascii (list_ascii_of_string char) with
  | [n] => ((9 <=? n) && (n <=? 13) || (n =? 32))%N
  | [194; 160] => true
  | [225; 154; 128] => true
  | [226; 128; n] => ((128 <=? n) && (n <=? 138) || (n =? 168) || (n =? 169) || (n =? 175))%N
  | [226; 129; 159] => true
  | [227; 128; 128] => true
  | [239; 187; 191] => true
  | _ => false
  end%N.

(** [s.trim().length > 0]: some character of [s] is not white space. *)
Definition trim_nonempty (s : string) : bool :=
  existsb (fun char => negb (is_white_space char)) (code_points s).

End JS.

(** ** Data shared by the two scripts *)

(** A fetched body: [blob.size] and [blob.type]. *)
Record Blob := { blob_size : Z; blob_type : string }.

(** The record stored under the key [pendingImageCheck]. *)
Record PendingCheck := {
  imageUrl : string;
  timestamp : Z;
  sourceTabId : Z
}.

(** Messages the content script sends with [chrome.runtime.sendMessage]. *)
Inductive Message :=
| GET_PENDING_IMAGE
| FETCH_IMAGE (url : string)
| CHECK_COMPLETE (success : bool)
| CHECK_ERROR (error : string).

(** [{ success: true, dataUrl }] or [{ success: false, error }]. *)
Inductive FetchReply :=
| FetchSucceeded (dataUrl : string)
| FetchFailed (error : string).

(** What [sendResponse] is called with; [NoResponse] when the listener
    never calls it. *)
Inductive Response :=
| PendingResponse (pending : option PendingCheck)
| FetchResponse (reply : FetchReply)
| NoResponse.

(** The options of a [fetch]: none, or [{ mode: 'cors', credentials: 'omit' }]. *)
Inductive FetchInit := DefaultInit | CorsOmitCredentials.

(** How a [fetch] ends: the promise rejects, or resolves to a response. *)
Inductive FetchOutcome :=
| NetworkError (message : string)
| HttpResponse (ok : bool) (status : Z) (statusText : string) (body : Blob).

(** What the browser provides and neither script controls. *)
Record Platform := {
  (** [new URL(url).pathname]; [None] when the constructor throws *)
  url_pathname : string -> option string;
  (** [fetch] issued by the service worker *)
  worker_fetch : string -> FetchOutcome;
  (** [fetch] issued from the page *)
  page_fetch : FetchInit -> string -> FetchOutcome;
  (** [FileReader.readAsDataURL]; [None] when [onerror] fires *)
  readAsDataURL : Blob -> option string;
  (** [chrome.runtime.lastError.message] in a [sendMessage] callback *)
  lastError : Message -> option string
}.

(** A value or a thrown [Error] with its message. *)
Inductive Result (A : Type) :=
| Ok (value : A)
| Throw (message : string).
Arguments Ok {A} value.
Arguments Throw {A} message.

(** ** background.js *)
Module Background.

Definition KEY : string := "pendingImageCheck".

(** [isValidWebUrl] *)
Definition isValidWebUrl (url : string) : bool :=
  if negb (JS.truthy url) then false
  else if JS.startsWith "data:" url then false
  else if JS.startsWith "file://" url then false
  else if JS.startsWith "blob:" url then false
  else JS.startsWith "http://" url || JS.startsWith "https://" url.

(** The context-menu click: a valid image URL is stored with the time of
    the click.  (The new tab it opens is where the content script runs.) *)
Definition onClicked (srcUrl : string) (tabId now : Z)
    (store : gmap string PendingCheck) : gmap string PendingCheck :=
  if isValidWebUrl srcUrl
  then <[KEY := {| imageUrl := srcUrl; timestamp := now; sourceTabId := tabId |}]> store
  else store.

Section WithPlatform.
Context (Pl : Platform).

(** [fetchImageAsDataUrl] *)
Definition fetchImageAsDataUrl (url : string) : Result string :=
  match worker_fetch Pl url with
  | NetworkError e => Throw e
  | HttpResponse ok status statusText blob =>
      if negb ok then Throw ("HTTP " +:+ pretty status +:+ ": " +:+ statusText)
      else match readAsDataURL Pl blob with
           | Some dataUrl => Ok dataUrl
           | None => Throw "Failed to read image data"
           end
  end.

(** The [chrome.runtime.onMessage] listener, for a message that is
    handled to its end with no other request in between: the response
    and the store after the message is handled.  Console output of the
    worker is left out.  The pending-image request is answered from
    callbacks; its steps, which the steps of other requests may come
    between, are those of [worker_step] below. *)
Definition onMessage (message : Message) (store : gmap string PendingCheck)
    : Response * gmap string PendingCheck :=
  match message with
  | GET_PENDING_IMAGE =>
      let result := store !! KEY in
      (PendingResponse result,
       match result with
       | Some _ => delete KEY store
       | None => store
       end)
  | FETCH_IMAGE url =>
      (FetchResponse
         match fetchImageAsDataUrl url with
         | Ok dataUrl => FetchSucceeded dataUrl
         | Throw e => FetchFailed e
         end,
       store)
  | CHECK_COMPLETE _ => (NoResponse, store)
  | CHECK_ERROR _ => (NoResponse, store)
  end.

End WithPlatform.

(** *** The pending-image request, step by step

    [chrome.storage.local.get] and [chrome.storage.local.remove] do not
    act at once.  The listener calls [get] and returns; the store is read
    later; the callback then answers with what was read and, when that is
    a record, calls [remove]; the removal takes effect later still.
    Nothing is assumed about the order in which the store serves the
    calls that are waiting. *)

(** What the worker and the store do for a request. *)
Inductive Step :=
| Arrives (request : nat)   (* the listener runs and calls [get] *)
| Reads (request : nat)     (* the store is read for the [get] of the request *)
| Answers (request : nat)   (* the callback: [sendResponse], and [remove] after a record *)
| Removes (request : nat).  (* the [remove] of the request's callback takes effect *)

Record Worker := {
  storage_area : gmap string PendingCheck;   (* [chrome.storage.local] *)
  getting : list nat;                        (* [get] called, store not yet read *)
  got : list (nat * option PendingCheck);    (* store read, callback not yet run *)
  removing : list nat;                       (* [remove] called, not yet in effect *)
  responses : list (nat * option PendingCheck)  (* what [sendResponse] was given, in order *)
}.

(** The worker at rest, with [store]. *)
Definition at_rest (store : gmap string PendingCheck) : Worker :=
  {| storage_area := store; getting := []; got := []; removing := []; responses := [] |}.

(** [l] without the first [request]; [None] when it is not in [l]. *)
Fixpoint take_out (request : nat) (l : list nat) : option (list nat) :=
  match l with
  | [] => None
  | x :: rest =>
      if Nat.eqb x request then Some rest
      else option_map (cons x) (take_out request rest)
  end.

(** What was read for [request], and [l] without it. *)
Fixpoint take_result (request : nat) (l : list (nat * option PendingCheck))
    : option (option PendingCheck * list (nat * option PendingCheck)) :=
  match l with
  | [] => None
  | (x, result) :: rest =>
      if Nat.eqb x request then Some (result, rest)
      else option_map (fun found => (fst found, (x, result) :: snd found))
                      (take_result request rest)
  end.

(** One step; [None] when the step cannot be taken. *)
Definition worker_step (s : Worker) (step : Step) : option Worker :=
  match step with
  | Arrives request =>
      Some {| storage_area := storage_area s; getting := getting s ++ [request];
              got := got s; removing := removing s; responses := responses s |}
  | Reads request =>
      match take_out request (getting s) with
      | Some others =>
          Some {| storage_area := storage_area s; getting := others;
                  got := got s ++ [(request, storage_area s !! KEY)];
                  removing := removing s; responses := responses s |}
      | None => None
      end
  | Answers request =>
      match take_result request (got s) with
      | Some (result, others) =>
          Some {| storage_area := storage_area s; getting := getting s; got := others;
                  removing := removing s ++
                              match result with Some _ => [request] | None => [] end;
                  responses := responses s ++ [(request, result)] |}
      | None => None
      end
  | Removes request =>
      match take_out request (removing s) with
      | Some others =>
          Some {| storage_area := delete KEY (storage_area s); getting := getting s;
                  got := got s; removing := others; responses := responses s |}
      | None => None
      end
  end.

(** The worker after [steps]. *)
Fixpoint worker_run (s : Worker) (steps : list Step) : option Worker :=
  match steps with
  | [] => Some s
  | step :: rest =>
      match worker_step s step with
      | Some s' => worker_run s' rest
      | None => None
      end
  end.






End Background.

(** ** The host page as the content script sees it *)

(** A DOM node, identified by a handle. *)
Definition Element := nat.

(** [getBoundingClientRect()], in CSS pixels (modelled as integers). *)
Record DOMRect := {
  rect_width : Z;
  rect_height : Z;
  rect_top : Z;
  rect_bottom : Z;
  rect_right : Z
}.

(** [new File([blob], name, { type })] *)
Record File := { file_blob : Blob; file_name : string; file_type : string }.

(** The toasts and the error dialog the script draws over the page. *)
Inductive Overlay :=
| TypingOverlay
| UploadingOverlay
| SendingOverlay
| CompletionAnimation
| ManualSendPrompt
| ErrorMessage (message : string).

(** What the script does to the page, and the passing of time. *)
Inductive Action :=
| Elapse (ms : Z)
| Focus (el : Element)
| Click (el : Element)
| ExecInsertText (char : string)
| DispatchInput (el : Element) (data : string)
| DispatchKeyDown (el : Element) (key : string) (keyCode : Z)
| AssignFiles (el : Element) (file : File)
| DispatchEvent (el : Element) (type : string)
| DispatchPaste (el : Element) (file : File)
| DispatchDrag (el : Element) (type : string) (file : File)
| DispatchClick (el : Element)
| ShowOverlay (overlay : Overlay)
| RemoveAllOverlays.

(** The Gemini page: a state the script does not own, the queries the
    script runs against it, and its reaction to what the script does and
    to time passing.  Selectors are the source's, with attribute values in
    single quotes. *)
Record Page := {
  Dom : Type;
  querySelectorAll : Dom -> string -> list Element;
  querySelectorAll_in : Dom -> Element -> string -> list Element;
  getBoundingClientRect : Dom -> Element -> DOMRect;
  innerHTML : Dom -> Element -> string;
  textContent : Dom -> Element -> string;
  getAttribute : Dom -> Element -> string -> option string;
  offsetHeight : Dom -> Element -> Z;
  children_length : Dom -> Element -> Z;
  body : Dom -> Element;
  readyState_complete : Dom -> bool;
  time_to_load : Dom -> Z;
  innerHeight : Dom -> Z;
  innerWidth : Dom -> Z;
  location_href : Dom -> string;
  react : Action -> Dom -> Dom
}.

(** Arguments printed by [console.log] after the message text. *)
Inductive LogArg :=
| AStr (s : string)
| ANum (n : Z)
| ABool (b : bool)
| AElem (el : Element)
| AElems (els : list Element)
| ARect (rect : DOMRect).

(** Everything a run of the content script does that can be observed. *)
Inductive Event :=
| Act (a : Action)
| ConsoleLog (message : string) (args : list LogArg)
| ConsoleError (message : string) (args : list LogArg)
| SendMessage (m : Message)
| PageFetch (init : FetchInit) (url : string).

(** ** content.js *)
Module Content.

Definition MAX_WAIT_TIME : Z := 30000.
Definition POLL_INTERVAL : Z := 500.

Section WithHost.
Context (P : Page) (Pl : Platform).

(** The world a run lives in: the clock ([Date.now()]), the page, and the
    service worker's store behind the message channel. *)
Record World := {
  now : Z;
  page : Dom P;
  storage : gmap string PendingCheck
}.

Definition elapsed (a : Action) : Z :=
  match a with Elapse ms => ms | _ => 0 end.

(** The effect of one event on the world.  Console output and fetches
    leave it alone; a delivered message is handled by the worker. *)
Definition apply_event (e : Event) (w : World) : World :=
  match e with
  | Act a =>
      {| now := now w + elapsed a; page := react P a (page w); storage := storage w |}
  | SendMessage m =>
      match lastError Pl m with
      | Some _ => w
      | None =>
          {| now := now w; page := page w;
             storage := snd (Background.onMessage Pl m (storage w)) |}
      end
  | ConsoleLog _ _ | ConsoleError _ _ | PageFetch _ _ => w
  end.

Definition advance (w : World) (events : list Event) : World :=
  fold_left (fun w e => apply_event e w) events w.

(** *** The monad of the script *)

Definition M (A : Type) : Type := World -> Result A * list Event.

Definition ret {A} (a : A) : M A := fun _ => (Ok a, []).

Definition bind {A B} (m : M A) (k : A -> M B) : M B := fun w =>
  match m w with
  | (Ok a, events) =>
      let (r, events') := k a (advance w events) in (r, events ++ events')
  | (Throw e, events) => (Throw e, events)
  end.

Definition throw {A} (message : string) : M A := fun _ => (Throw message, []).

(** [try { m } catch (error) { handler(error.message) }] *)
Definition try_catch {A} (m : M A) (handler : string -> M A) : M A := fun w =>
  match m w with
  | (Ok a, events) => (Ok a, events)
  | (Throw e, events) =>
      let (r, events') := handler e (advance w events) in (r, events ++ events')
  end.

Definition emit (e : Event) : M unit := fun _ => (Ok tt, [e]).
Definition gets {A} (f : Dom P -> A) : M A := fun w => (Ok (f (page w)), []).
Definition Date_now : M Z := fun w => (Ok (now w), []).

Declare Scope js_scope.
Delimit Scope js_scope with js.
Notation "x <- m ;; k" := (bind m (fun x => k))
  (at level 100, m at next level, right associativity) : js_scope.
Notation "m ;; k" := (bind m (fun _ => k))
  (at level 100, right associativity) : js_scope.
Local Open Scope js_scope.

Definition act (a : Action) : M unit := emit (Act a).
Definition log (message : string) (args : list LogArg) : M unit :=
  emit (ConsoleLog message args).

(** [delay(ms)] *)
Definition delay (ms : Z) : M unit := act (Elapse ms).

(** [for (const x of l) { ... return b ... }]: the body answers [Some b] to
    return [b] from the loop and [None] to go on. *)
Fixpoint for_first {A B} (l : list A) (body : A -> M (option B)) : M (option B) :=
  match l with
  | [] => ret None
  | x :: rest =>
      r <- body x ;;
      match r with
      | Some b => ret (Some b)
      | None => for_first rest body
      end
  end.

(** [chrome.runtime.sendMessage(m, callback)]: what the callback gets;
    [None] is [undefined], when the message could not be delivered. *)
Definition sendMessage (m : Message) : M (option Response) := fun w =>
  (Ok match lastError Pl m with
      | Some _ => None
      | None => Some (fst (Background.onMessage Pl m (storage w)))
      end,
   [SendMessage m]).

(** [document.querySelector] *)
Definition querySelector (d : Dom P) (selector : string) : option Element :=
  head (querySelectorAll P d selector).

(** *** Overlays *)

Definition removeAllOverlays : M unit := act RemoveAllOverlays.
Definition showTypingOverlay : M unit := act (ShowOverlay TypingOverlay).
Definition showUploadingOverlay : M unit := act (ShowOverlay UploadingOverlay).
Definition showSendingOverlay : M unit := act (ShowOverlay SendingOverlay).
Definition hideTypingOverlay : M unit := ret tt.
Definition hideUploadingOverlay : M unit := ret tt.
Definition hideSendingOverlay : M unit := removeAllOverlays.
Definition showCompletionAnimation : M unit := act (ShowOverlay CompletionAnimation).
Definition showManualSendPrompt : M unit := act (ShowOverlay ManualSendPrompt).
Definition showLoadingOverlay : M unit := showTypingOverlay.
Definition hideLoadingOverlay : M unit := removeAllOverlays.
Definition showErrorMessage (message : string) : M unit :=
  act (ShowOverlay (ErrorMessage message)).

(** *** [getPendingImage] *)
Definition getPendingImage : M (option PendingCheck) :=
  response <- sendMessage GET_PENDING_IMAGE ;;
  ret match response with
      | Some (PendingResponse pending) => pending
      | _ => None
      end.

(** *** [findInputArea] *)
Definition input_selectors : list string :=
  [ "rich-textarea [contenteditable='true']";
    "rich-textarea";
    ".ql-editor[contenteditable='true']";
    "div[contenteditable='true'][aria-label]";
    "[data-placeholder*='Ask']";
    ".input-area [contenteditable='true']";
    "div[contenteditable='true']" ].

Fixpoint first_match (d : Dom P) (selectors : list string) : option (string * Element) :=
  match selectors with
  | [] => None
  | selector :: rest =>
      match querySelector d selector with
      | Some element => Some (selector, element)
      | None => first_match d rest
      end
  end.

Definition findInputArea (d : Dom P) : option Element :=
  option_map snd (first_match d input_selectors).

(** *** [waitForGeminiReady] *)

(** One pass of the polling loop's body, up to its [await]: the console
    lines it prints and the element it returns, if any. *)
Definition readiness_probe (d : Dom P) : list Event * option Element :=
  let allEditable := querySelectorAll P d "[contenteditable='true']" in
  let seen :=
    if 0 <? Z.of_nat (length allEditable)
    then [ConsoleLog "Found ${allEditable.length} contenteditable elements"
            [ANum (Z.of_nat (length allEditable))]]
    else [] in
  match find (fun el =>
                let rect := getBoundingClientRect P d el in
                (rect_width rect >? 100) && (rect_height rect >? 20))
             allEditable with
  | Some el =>
      (seen ++ [ConsoleLog "Found suitable input:"
                  [AElem el; ARect (getBoundingClientRect P d el)]],
       Some el)
  | None =>
      match findInputArea d with
      | Some inputArea =>
          (seen ++ [ConsoleLog "Found input via selector:"
                      [AElem inputArea; ARect (getBoundingClientRect P d inputArea)]],
           Some inputArea)
      | None => (seen, None)
      end
  end.

Definition TIMEOUT_MESSAGE : string :=
  "Gemini took too long to load. Please refresh and try again.".

(** After the loop: the debug lines, then the error. *)
Definition readiness_timeout (d : Dom P) : Result Element * list Event :=
  (Throw TIMEOUT_MESSAGE,
   [ ConsoleLog "TIMEOUT - Debug info:" [];
     ConsoleLog "- URL:" [AStr (location_href P d)];
     ConsoleLog "- contenteditable elements:"
       [AElems (querySelectorAll P d "[contenteditable]")];
     ConsoleLog "- body innerHTML length:"
       [ANum (Z.of_nat (String.length (innerHTML P d (body P d))))] ]).

(** [while (Date.now() - startTime < MAX_WAIT_TIME) { ...; await delay(POLL_INTERVAL); }] *)
Equations? readiness_loop (startTime : Z) (w : World) : Result Element * list Event
  by wf (Z.to_nat (startTime + MAX_WAIT_TIME - now w)) lt :=
readiness_loop startTime w with Z_lt_dec (now w - startTime) MAX_WAIT_TIME := {
  | right _ => readiness_timeout (page w)
  | left _ with readiness_probe (page w) := {
      | (logs, Some el) => (Ok el, logs)
      | (logs, None) =>
          let (r, events) :=
            readiness_loop startTime (apply_event (Act (Elapse POLL_INTERVAL)) w) in
          (r, logs ++ Act (Elapse POLL_INTERVAL) :: events) } }.
Proof. simpl. unfold POLL_INTERVAL. lia. Qed.

(** Before the loop: wait for the [load] event, at most 2000 ms, unless
    the document is already complete; then give the app 2000 ms. *)
Definition awaitHydration : M unit :=
  complete <- gets (readyState_complete P) ;;
  (if negb complete then
     log "Waiting for document to load..." [] ;;
     remaining <- gets (time_to_load P) ;;
     delay (Z.min 2000 (Z.max 0 remaining))
   else ret tt) ;;
  delay 2000 ;;
  log "Document ready, looking for input area..." [].

Definition waitForGeminiReady : M Element :=
  startTime <- Date_now ;;
  awaitHydration ;;
  readiness_loop startTime.

(** *** Typing and the mention dropdown *)

(** [for (const char of text) { ...; await delay(50); }] *)
Fixpoint type_chars (element : Element) (chars : list string) : M unit :=
  match chars with
  | [] => ret tt
  | char :: rest =>
      act (ExecInsertText char) ;;
      act (DispatchInput element char) ;;
      delay 50 ;;
      type_chars element rest
  end.

(** [simulateTyping] *)
Definition simulateTyping (element : Element) (text : string) : M unit :=
  act (Focus element) ;;
  type_chars element (JS.code_points text).

(** One pass of [waitForDropdown]'s loop body, up to its [await]. *)
Definition dropdown_probe (d : Dom P) : list Event * bool :=
  let in_overlay :=
    match querySelector d ".cdk-overlay-container" with
    | Some cdkOverlay =>
        (children_length P d cdkOverlay >? 0) &&
        existsb (fun pane =>
                   (offsetHeight P d pane >? 0) &&
                   JS.trim_nonempty (textContent P d pane))
                (querySelectorAll_in P d cdkOverlay ".cdk-overlay-pane")
    | None => false
    end in
  if in_overlay
  then ([ConsoleLog "Dropdown detected (CDK overlay with content)" []], true)
  else match querySelector d "[role='listbox']:not(:empty), [role='menu']:not(:empty)" with
       | Some _ => ([ConsoleLog "Dropdown detected (role listbox/menu)" []], true)
       | None => ([], false)
       end.

(** [while (Date.now() - startTime < maxWait) { ...; await delay(100); }] *)
Equations? dropdown_loop (startTime maxWait : Z) (w : World) : Result bool * list Event
  by wf (Z.to_nat (startTime + maxWait - now w)) lt :=
dropdown_loop startTime maxWait w with Z_lt_dec (now w - startTime) maxWait := {
  | right _ => (Ok false, [ConsoleLog "Dropdown wait timed out, proceeding anyway" []])
  | left _ with dropdown_probe (page w) := {
      | (logs, true) => (Ok true, logs)
      | (logs, false) =>
          let (r, events) :=
            dropdown_loop startTime maxWait (apply_event (Act (Elapse 100)) w) in
          (r, logs ++ Act (Elapse 100) :: events) } }.
Proof. simpl. lia. Qed.

(** [waitForDropdown(maxWait = 3000)] *)
Definition waitForDropdown : M bool :=
  startTime <- Date_now ;;
  dropdown_loop startTime 3000.

(** [checkForSynthIdTag], on a snapshot of the page. *)
Definition has_synthid_tag (d : Dom P) (inputArea : Element) : bool :=
  let html := innerHTML P d inputArea in
  let text := textContent P d inputArea in
  if JS.includes "@SynthID" text then true
  else if JS.includes "chip" html || JS.includes "mention" html || JS.includes "data-" html
       then true
       else false.

Definition checkForSynthIdTag (inputArea : Element) : M bool :=
  text <- gets (fun d => textContent P d inputArea) ;;
  log "Check tag - text:" [AStr text] ;;
  gets (fun d => has_synthid_tag d inputArea).

(** [pressTab] *)
Definition pressTab (element : Element) : M unit :=
  act (DispatchKeyDown element "Tab" 9).

Definition QUESTION : string := " is this image real?".

(** [typeSynthIDQuery] *)
Definition typeSynthIDQuery (inputArea : option Element) : M unit :=
  inputArea <- match inputArea with
               | Some el => ret (Some el)
               | None => gets findInputArea
               end ;;
  match inputArea with
  | None => throw "Could not find Gemini's chat input."
  | Some inputArea =>
      log "=== STARTING @SynthID ENTRY ===" [] ;;
      act (Focus inputArea) ;;
      act (Click inputArea) ;;
      delay 300 ;;
      log "Step 1: Focused input" [] ;;
      simulateTyping inputArea "@" ;;
      log "Step 2: Typed @" [] ;;
      log "Step 3: Waiting for dropdown..." [] ;;
      waitForDropdown ;;
      simulateTyping inputArea "synthid" ;;
      log "Step 4: Typed synthid" [] ;;
      delay 300 ;;
      waitForDropdown ;;
      log "Step 5: Dropdown ready" [] ;;
      log "Step 6: Pressing Tab..." [] ;;
      pressTab inputArea ;;
      delay 300 ;;
      hasTag <- checkForSynthIdTag inputArea ;;
      log "Tab selected @SynthID:" [ABool hasTag] ;;
      (if negb hasTag then
         log "Tab didn't work, retrying..." [] ;;
         delay 300 ;;
         pressTab inputArea ;;
         delay 300 ;;
         hasTag <- checkForSynthIdTag inputArea ;;
         log "Retry result:" [ABool hasTag]
       else ret tt) ;;
      simulateTyping inputArea QUESTION ;;
      log "Step 7: Typed question" [] ;;
      log "=== FINISHED ===" []
  end.

(** *** [fetchImage] *)

Definition DOWNLOAD_ERROR : string :=
  "Could not download this image. It may be protected. Try saving the image first, then uploading manually to Gemini.".

(** [await fetch(url, init)] from the page: the response, or a rejection. *)
Definition fetch (init : FetchInit) (url : string) : M (bool * Z * Blob) := fun _ =>
  (match page_fetch Pl init url with
   | NetworkError e => Throw e
   | HttpResponse ok status _ blob => Ok (ok, status, blob)
   end,
   [PageFetch init url]).

(** [fetchImageViaBackground]: [None] is a falsy response. *)
Definition fetchImageViaBackground (imageUrl : string) : M (option FetchReply) :=
  response <- sendMessage (FETCH_IMAGE imageUrl) ;;
  match lastError Pl (FETCH_IMAGE imageUrl) with
  | Some e =>
      log "Background message error:" [AStr e] ;;
      ret (Some (FetchFailed e))
  | None =>
      ret match response with
          | Some (FetchResponse reply) => Some reply
          | _ => None
          end
  end.

(** The first [try] block of [fetchImage]: the answer [Some blob] stands
    for its [return]. *)
Definition tryBackgroundFetch (imageUrl : string) : M (option Blob) :=
  try_catch
    (log "Trying background script fetch..." [] ;;
     result <- fetchImageViaBackground imageUrl ;;
     match result with
     | Some (FetchSucceeded dataUrl) =>
         log "Background fetch successful, converting to blob..." [] ;;
         response <- fetch DefaultInit dataUrl ;;
         ret (Some (snd response))
     | Some (FetchFailed error) =>
         log "Background fetch failed:" [AStr error] ;;
         ret None
     | None =>
         log "Background fetch failed:" [] ;;
         ret None
     end)
    (fun bgError =>
       log "Background fetch error:" [AStr bgError] ;;
       ret None).

(** The second [try] block. *)
Definition tryDirectFetch (imageUrl : string) : M (option Blob) :=
  try_catch
    (log "Trying direct CORS fetch..." [] ;;
     response <- fetch CorsOmitCredentials imageUrl ;;
     let '(ok, status, blob) := response in
     if negb ok then
       log "Direct fetch failed with status:" [ANum status] ;;
       throw ("Failed to fetch image: " +:+ pretty status)
     else
       log "Direct fetch successful" [] ;;
       ret (Some blob))
    (fun error =>
       log "Direct fetch error:" [AStr error] ;;
       ret None).

Definition fetchImage (imageUrl : string) : M Blob :=
  log "Attempting to fetch image:" [AStr imageUrl] ;;
  viaBackground <- tryBackgroundFetch imageUrl ;;
  match viaBackground with
  | Some blob => ret blob
  | None =>
      direct <- tryDirectFetch imageUrl ;;
      match direct with
      | Some blob => ret blob
      | None => throw DOWNLOAD_ERROR
      end
  end.

(** *** The upload pipeline *)

(** [getFileNameFromUrl] *)
Definition getFileNameFromUrl (url : string) : string :=
  match url_pathname Pl url with
  | Some pathname =>
      let parts := JS.split "/" pathname in
      let lastPart := List.last parts EmptyString in
      if JS.truthy lastPart && JS.includes "." lastPart
      then lastPart
      else "image.png"
  | None => "image.png"
  end.

(** The [File] built at the start of [uploadImageToGemini]. *)
Definition makeFile (imageBlob : Blob) (originalUrl : string) : File :=
  let fileName :=
    let name := getFileNameFromUrl originalUrl in
    if JS.truthy name then name else "image.png" in
  let mimeType :=
    if JS.truthy (blob_type imageBlob) then blob_type imageBlob else "image/png" in
  {| file_blob := imageBlob; file_name := fileName; file_type := mimeType |}.

Definition imageIndicators : list string :=
  [ "img[src*='blob:']";
    "img[src*='data:']";
    "[data-image]";
    ".image-preview";
    ".attachment";
    ".uploaded-image" ].

(** [checkForUploadedImage] *)
Definition checkForUploadedImage : M bool :=
  found <- gets (fun d => first_match d imageIndicators) ;;
  match found with
  | Some (selector, el) =>
      log "Found image indicator:" [AStr selector; AElem el] ;;
      ret true
  | None => ret false
  end.

(** [pasteImageFromClipboard] *)
Definition pasteImageFromClipboard (file : File) : M unit :=
  inputArea <- gets findInputArea ;;
  match inputArea with
  | None => throw "No input area found"
  | Some inputArea =>
      act (Focus inputArea) ;;
      act (DispatchPaste inputArea file) ;;
      log "Paste event dispatched" []
  end.

(** [[...].filter(Boolean)] *)
Definition dropTargets (d : Dom P) : list Element :=
  omap id [ findInputArea d;
            querySelector d ".chat-container";
            querySelector d "main";
            Some (body P d) ].

(** [simulateDragDropUpload] *)
Definition simulateDragDropUpload (file : File) : M unit :=
  targets <- gets dropTargets ;;
  log "Drag-drop: found ${dropTargets.length} potential drop targets"
    [ANum (Z.of_nat (length targets))] ;;
  worked <- for_first targets (fun dropTarget =>
    log "Trying drag-drop on:" [AElem dropTarget] ;;
    act (DispatchDrag dropTarget "dragenter" file) ;;
    delay 100 ;;
    act (DispatchDrag dropTarget "dragover" file) ;;
    delay 100 ;;
    act (DispatchDrag dropTarget "drop" file) ;;
    delay 500 ;;
    uploaded <- checkForUploadedImage ;;
    if uploaded then
      log "Drag-drop successful on:" [AElem dropTarget] ;;
      ret (Some tt)
    else ret None) ;;
  match worked with
  | Some _ => ret tt
  | None => log "Drag-drop did not result in visible image upload" []
  end.

Definition addButtonSelectors : list string :=
  [ "button[aria-label*='Add']";
    "button[aria-label*='add']";
    "button[aria-label*='Upload']";
    "button[aria-label*='upload']";
    "button[aria-label*='Attach']";
    "[data-tooltip*='Add']";
    "[data-tooltip*='Upload']";
    ".input-area button";
    "button:has(svg)" ].

(** The search for the "+" button.  A selector the browser rejects is
    caught and skipped by the source, which is what an empty match list
    does here. *)
Definition findAddButton : M (option Element) :=
  for_first addButtonSelectors (fun selector =>
    buttons <- gets (fun d => querySelectorAll P d selector) ;;
    log "Selector ${selector} found ${buttons.length} elements"
      [AStr selector; ANum (Z.of_nat (length buttons))] ;;
    for_first buttons (fun btn =>
      rect <- gets (fun d => getBoundingClientRect P d btn) ;;
      height <- gets (innerHeight P) ;;
      if (rect_bottom rect >? height - 300) && (rect_width rect >? 20) then
        log "Found potential add button:" [AElem btn] ;;
        ret (Some btn)
      else ret None)).

Definition UPLOAD_WARNING : string :=
  "WARNING: Could not confirm image upload. Proceeding anyway...".

(** Method 1 of [uploadImageToGemini]: click the "+" button, if found. *)
Definition clickAddButton : M unit :=
  log "Looking for add/upload button..." [] ;;
  addButton <- findAddButton ;;
  match addButton with
  | Some addButton =>
      log "Clicking add button..." [] ;;
      act (Click addButton) ;;
      delay 800
  | None => ret tt
  end.

(** Method 2: the file input.  The answer [true] stands for the early
    [return] of [uploadImageToGemini]. *)
Definition uploadViaFileInput (file : File) : M bool :=
  fileInput <- gets (fun d => querySelector d "input[type='file']") ;;
  log "File input found:" [ABool (bool_decide (is_Some fileInput))] ;;
  match fileInput with
  | Some fileInput =>
      log "Using file input method..." [] ;;
      act (AssignFiles fileInput file) ;;
      act (DispatchEvent fileInput "change") ;;
      act (DispatchEvent fileInput "input") ;;
      log "File input updated, waiting for processing..." [] ;;
      delay 2000 ;;
      hasImage <- checkForUploadedImage ;;
      if hasImage then
        log "Image upload confirmed!" [] ;;
        ret true
      else
        log "Image not detected after file input, trying other methods..." [] ;;
        ret false
  | None => ret false
  end.

(** Method 3: the clipboard paste, in its [try]/[catch]. *)
Definition uploadViaClipboard (file : File) : M bool :=
  log "Trying clipboard paste method..." [] ;;
  try_catch
    (pasteImageFromClipboard file ;;
     delay 2000 ;;
     hasImage <- checkForUploadedImage ;;
     if hasImage then
       log "Image upload via clipboard confirmed!" [] ;;
       ret true
     else ret false)
    (fun clipboardError =>
       log "Clipboard method failed:" [AStr clipboardError] ;;
       ret false).

(** Method 4: drag and drop, and the end of the function. *)
Definition uploadViaDragDrop (file : File) : M unit :=
  log "Trying drag-drop method..." [] ;;
  simulateDragDropUpload file ;;
  delay 2000 ;;
  hasImage <- checkForUploadedImage ;;
  if hasImage then log "Image upload via drag-drop confirmed!" []
  else log UPLOAD_WARNING [].

(** [uploadImageToGemini] *)
Definition uploadImageToGemini (imageBlob : Blob) (originalUrl : string) : M unit :=
  let file := makeFile imageBlob originalUrl in
  log "Uploading image:" [AStr (file_name file); AStr (file_type file);
                          ANum (blob_size imageBlob)] ;;
  clickAddButton ;;
  returned <- uploadViaFileInput file ;;
  if returned then ret tt else
  returned <- uploadViaClipboard file ;;
  if returned then ret tt else
  uploadViaDragDrop file.

(** *** [clickSendButton] *)

Definition NO_SEND_BUTTON : string :=
  "Could not find send button - user will need to click manually".

(** Method 1's test on a button found in the lower right of the viewport:
    sized like an icon, with send-like markup or label. *)
Definition looks_like_send (d : Dom P) (btn : Element) : bool :=
  let rect := getBoundingClientRect P d btn in
  let isIconButton :=
    (rect_width rect <? 100) && (rect_height rect <? 100) && (rect_width rect >? 20) in
  let html := innerHTML P d btn in
  let hasArrow :=
    JS.includes "arrow" html || JS.includes "send" html ||
    JS.includes "M2" html || JS.includes "path" html in
  let ariaLabel := default EmptyString (getAttribute P d btn "aria-label") in
  isIconButton && (hasArrow || JS.includes "send" (JS.toLowerCase ariaLabel)).

(** Method 3's scan: the rightmost button within 100px of the input's top. *)
Definition rightmost_near (d : Dom P) (inputArea : Element) (allButtons : list Element)
    : option Element :=
  let inputRect := getBoundingClientRect P d inputArea in
  fst (fold_left
         (fun (best : option Element * Z) btn =>
            let rect := getBoundingClientRect P d btn in
            if (Z.abs (rect_top rect - rect_top inputRect) <? 100) &&
               (rect_right rect >? snd best)
            then (Some btn, rect_right rect)
            else best)
         allButtons (None, 0)).

Definition clickSendButton : M bool :=
  log "Looking for send button..." [] ;;
  allButtons <- gets (fun d => querySelectorAll P d "button") ;;
  log "Found ${allButtons.length} buttons total" [ANum (Z.of_nat (length allButtons))] ;;
  clicked <- for_first allButtons (fun btn =>
    rect <- gets (fun d => getBoundingClientRect P d btn) ;;
    height <- gets (innerHeight P) ;;
    width <- gets (innerWidth P) ;;
    if (rect_bottom rect >? height - 200) && (2 * rect_right rect >? width) then
      log "Button candidate:" [AElem btn; ARect rect] ;;
      send_like <- gets (fun d => looks_like_send d btn) ;;
      if send_like then
        log "Clicking send button!" [] ;;
        act (Click btn) ;;
        delay 100 ;;
        act (DispatchClick btn) ;;
        ret (Some true)
      else ret None
    else ret None) ;;
  match clicked with
  | Some result => ret result
  | None =>
      sendByLabel <- gets (fun d =>
        querySelector d "[aria-label*='Send' i], [aria-label*='submit' i]") ;;
      match sendByLabel with
      | Some sendByLabel =>
          log "Found send by aria-label:" [AElem sendByLabel] ;;
          act (Click sendByLabel) ;;
          ret true
      | None =>
          inputArea <- gets findInputArea ;;
          bestButton <- match inputArea with
                        | Some inputArea =>
                            gets (fun d => rightmost_near d inputArea allButtons)
                        | None => ret None
                        end ;;
          match bestButton with
          | Some bestButton =>
              log "Clicking rightmost button near input:" [AElem bestButton] ;;
              act (Click bestButton) ;;
              ret true
          | None =>
              log NO_SEND_BUTTON [] ;;
              ret false
          end
      end
  end.

(** *** The run *)

(** The [try] block up to the send step. *)
Definition prepare (pendingImage : PendingCheck) : M unit :=
  inputArea <- waitForGeminiReady ;;
  log "Gemini is ready, input area found:" [AElem inputArea] ;;
  delay 1000 ;;
  hideLoadingOverlay ;;
  showTypingOverlay ;;
  log "Step 1: Typing @SynthID query..." [] ;;
  typeSynthIDQuery (Some inputArea) ;;
  log "Query typed successfully" [] ;;
  delay 500 ;;
  hideTypingOverlay ;;
  showUploadingOverlay ;;
  log "Step 2: Fetching image..." [] ;;
  imageBlob <- fetchImage (imageUrl pendingImage) ;;
  log "Image fetched, size:" [ANum (blob_size imageBlob)] ;;
  log "Step 3: Uploading image..." [] ;;
  uploadImageToGemini imageBlob (imageUrl pendingImage) ;;
  log "Image upload complete" [] ;;
  delay 2000 ;;
  imageUploaded <- checkForUploadedImage ;;
  log "Image upload verified:" [ABool imageUploaded] ;;
  (if negb imageUploaded then log "WARNING: Image may not have uploaded." [] else ret tt) ;;
  hideUploadingOverlay ;;
  showSendingOverlay ;;
  delay 800 ;;
  log "Step 4: Auto-sending message..." [].

(** The rest of the [try] block: send, then report. *)
Definition send_and_report : M unit :=
  sendSuccess <- clickSendButton ;;
  hideSendingOverlay ;;
  (if sendSuccess then showCompletionAnimation else showManualSendPrompt) ;;
  sendMessage (CHECK_COMPLETE true) ;;
  ret tt.

(** [try { ... } catch (error) { ... }] *)
Definition process (pendingImage : PendingCheck) : M unit :=
  try_catch
    (prepare pendingImage ;; send_and_report)
    (fun error =>
       emit (ConsoleError "Error:" [AStr error]) ;;
       hideLoadingOverlay ;;
       showErrorMessage error ;;
       sendMessage (CHECK_ERROR error) ;;
       ret tt).

(** The script's top-level function. *)
Definition main : M unit :=
  log "Content script loaded on Gemini" [] ;;
  pendingImage <- getPendingImage ;;
  match pendingImage with
  | None => log "No pending image check, exiting" []
  | Some pendingImage =>
      t <- Date_now ;;
      if t - timestamp pendingImage >? 30000 then
        log "Pending image is too old, ignoring" []
      else
        log "Processing image:" [AStr (imageUrl pendingImage)] ;;
        showLoadingOverlay ;;
        process pendingImage
  end.

End WithHost.
End Content.

(** * Specifications

    What follows states properties of runs.  A run is judged by its events:
    either directly, as a list, or by a monitor, a small state machine that
    reads the events in order and may reject them. *)

(** [segment] is what follows the last [sep] of [s], or all of [s] when
    [s] has no [sep]. *)
Definition is_last_segment (sep : ascii) (s segment : string) : Prop :=
  ~ In sep (list_ascii_of_string segment) /\
  (s = segment \/ exists before, s = before +:+ String sep segment).

(** ** Monitors *)
Module Monitor.
Import Content.

Section Monitored.
Context {P : Page} (Pl : Platform) {S : Type} (step : S -> Event -> option S).

(** The state after the events, unless one of them is rejected. *)
Fixpoint mrun (s : S) (events : list Event) : option S :=
  match events with
  | [] => Some s
  | e :: rest =>
      match step s e with
      | Some s' => mrun s' rest
      | None => None
      end
  end.

(** From world [w] and monitor state [s], the run of [m] is accepted and
    [Q] holds of its result, the final monitor state and the final world. *)
Definition sat {A} (m : M P A) (w : World P) (s : S)
    (Q : Result A -> S -> World P -> Prop) : Prop :=
  exists s', mrun s (snd (m w)) = Some s' /\
             Q (fst (m w)) s' (advance P Pl w (snd (m w))).

(** An invariant that event [e] cannot break. *)
Definition stable_under (e : Event) (I : S -> World P -> Prop) : Prop :=
  forall s w, I s w -> exists s', step s e = Some s' /\ I s' (apply_event P Pl e w).

(** An invariant that console lines cannot break. *)
Definition console_stable (I : S -> World P -> Prop) : Prop :=
  forall message args, stable_under (ConsoleLog message args) I.

End Monitored.

(** The monitor that accepts exactly the events satisfying [allowed]. *)
Definition filter_step (allowed : Event -> bool) (s : unit) (e : Event) : option unit :=
  if allowed e then Some tt else None.

(** The monitor that keeps the events it has read. *)
Definition record_step (s : list Event) (e : Event) : option (list Event) :=
  Some (s ++ [e]).

(** [m] emits only [allowed] events and its result satisfies [R]. *)
Definition behaves {P : Page} (Pl : Platform) {A} (allowed : Event -> bool)
    (R : Result A -> Prop) (m : M P A) : Prop :=
  forall w, sat Pl (filter_step allowed) m w tt (fun r _ _ => R r).

(** The result is a value, not an error. *)
Definition returns {A} (r : Result A) : Prop := exists a, r = Ok a.

End Monitor.

(** ** Classes of events *)
Module Events.

Definition is_console (e : Event) : bool :=
  match e with ConsoleLog _ _ => true | _ => false end.

Definition is_wait (e : Event) : bool :=
  match e with Act (Elapse _) => true | _ => false end.

Definition waits_and_logs (e : Event) : bool := is_console e || is_wait e.

(** Focusing, clicking and typing into [el], with the waits and logs
    around them. *)
Definition typing_on (el : Element) (e : Event) : bool :=
  match e with
  | ConsoleLog _ _ => true
  | Act (Elapse _) => true
  | Act (Focus x) | Act (Click x) | Act (DispatchInput x _) => Nat.eqb x el
  | Act (ExecInsertText _) => true
  | _ => false
  end.

(** The Tab key-down on [el]. *)
Definition is_tab (el : Element) (a : Action) : bool :=
  match a with
  | DispatchKeyDown x key keyCode => Nat.eqb x el && String.eqb key "Tab" && (keyCode =? 9)
  | _ => false
  end.

(** What composing the query in [el] may emit. *)
Definition composing_in (el : Element) (e : Event) : bool :=
  typing_on el e || match e with Act a => is_tab el a | _ => false end.

(** The messages and fetches of the download, with its logs. *)
Definition fetching (e : Event) : bool :=
  match e with
  | ConsoleLog _ _ | SendMessage (FETCH_IMAGE _) | PageFetch _ _ => true
  | _ => false
  end.

(** An attempt to put the file into the page. *)
Definition is_injection (e : Event) : bool :=
  match e with
  | Act (AssignFiles _ _) | Act (DispatchEvent _ _)
  | Act (DispatchPaste _ _) | Act (DispatchDrag _ _ _) => true
  | _ => false
  end.

(** What the injection stage may emit: its attempts, the click on the
    "+" button and the focus before a paste, with waits and logs. *)
Definition uploading (e : Event) : bool :=
  match e with
  | ConsoleLog _ _ | Act (Elapse _) | Act (Click _) | Act (Focus _) => true
  | _ => is_injection e
  end.

(** What the submission trigger may emit. *)
Definition pressing_send (e : Event) : bool :=
  match e with
  | ConsoleLog _ _ | Act (Elapse _) | Act (Click _) | Act (DispatchClick _) => true
  | _ => false
  end.

(** The outbound Failed event. *)
Definition is_failed_event (e : Event) : bool :=
  match e with SendMessage (CHECK_ERROR _) => true | _ => false end.

(** The outbound events, Complete or Failed. *)
Definition is_outbound (e : Event) : bool :=
  match e with
  | SendMessage (CHECK_COMPLETE _) | SendMessage (CHECK_ERROR _) => true
  | _ => false
  end.

(** Something done to the page, overlays included; time passing is not. *)
Definition is_dom_action (e : Event) : bool :=
  match e with
  | Act (Elapse _) => false
  | Act _ => true
  | _ => false
  end.

End Events.

(** ** The readiness detector *)
Module Readiness.
Import Content.
Section WithPage.
Context (P : Page).

(** The page after [k] polling intervals in which nothing else happens. *)
Definition ticks (k : nat) (d : Dom P) : Dom P :=
  Nat.iter k (react P (Elapse POLL_INTERVAL)) d.

(** The element a poll of page [d] returns, if any. *)
Definition accepted (d : Dom P) : option Element := snd (readiness_probe P d).

(** The lines logged on page [d] before the timeout error. *)
Definition diagnostics (d : Dom P) : list Event := snd (readiness_timeout P d).

(** Console lines, and waits of exactly the polling interval. *)
Definition is_poll_wait (e : Event) : bool :=
  match e with
  | Act (Elapse ms) => ms =? POLL_INTERVAL
  | ConsoleLog _ _ => true
  | _ => false
  end.

(** The size test of the input-area role. *)
Definition large_enough (rect : DOMRect) : bool :=
  (rect_width rect >? 100) && (rect_height rect >? 20).

End WithPage.
End Readiness.

(** ** The mention commit *)
Module Mention.
Import Content Events.
Section WithPage.
Context (P : Page) (inputArea : Element).

(** What a run shows of the mention commit: the page as the events shaped
    it, the Tab key-downs sent to [inputArea] so far, whether the settle
    after a Tab is still to come, and what the tag check says of the page
    when the settle after the first Tab ends. *)
Record MentionObs := {
  seen_page : Dom P;
  tabs : nat;
  armed : bool;
  first_verdict : option bool
}.

Definition mention_step (s : MentionObs) (e : Event) : option MentionObs :=
  match e with
  | Act a =>
      let d := react P a (seen_page s) in
      Some (if is_tab inputArea a then
              {| seen_page := d; tabs := S (tabs s); armed := true;
                 first_verdict := first_verdict s |}
            else
              match a with
              | Elapse _ =>
                  {| seen_page := d; tabs := tabs s; armed := false;
                     first_verdict :=
                       match first_verdict s with
                       | Some v => Some v
                       | None =>
                           if armed s then Some (has_synthid_tag P d inputArea) else None
                       end |}
              | _ =>
                  {| seen_page := d; tabs := tabs s; armed := armed s;
                     first_verdict := first_verdict s |}
              end)
  | _ => Some s
  end.

Definition mention_start (d : Dom P) : MentionObs :=
  {| seen_page := d; tabs := 0; armed := false; first_verdict := None |}.

(** The events of [simulateTyping inputArea text]. *)
Definition typing_events (text : string) : list Event :=
  Act (Focus inputArea) ::
  flat_map (fun char => [ Act (ExecInsertText char);
                          Act (DispatchInput inputArea char);
                          Act (Elapse 50) ])
           (JS.code_points text).

(** An invariant of the run between Tabs: the page in step, [k] Tabs
    sent, verdict [v], and no settle pending while the verdict is open. *)
Definition settled (k : nat) (v : option bool) (s : MentionObs) (w : World P) : Prop :=
  seen_page s = page P w /\ tabs s = k /\ first_verdict s = v /\
  (v = None -> armed s = false).

End WithPage.
End Mention.

(** ** The injection stage of the upload *)
Module Injection.
Import Content.
Section WithPage.
Context (P : Page).

(** [checkForUploadedImage] on a snapshot of the page. *)
Definition uploaded (d : Dom P) : bool :=
  match first_match P d imageIndicators with Some _ => true | None => false end.

Inductive Strategy := FileInputStrategy | ClipboardStrategy | DragDropStrategy.

Definition rank (st : Strategy) : nat :=
  match st with
  | FileInputStrategy => 0
  | ClipboardStrategy => 1
  | DragDropStrategy => 2
  end.

Definition strategy_of (a : Action) : option Strategy :=
  match a with
  | AssignFiles _ _ | DispatchEvent _ _ => Some FileInputStrategy
  | DispatchPaste _ _ => Some ClipboardStrategy
  | DispatchDrag _ _ _ => Some DragDropStrategy
  | _ => None
  end.

(** The settle an injection event calls for. *)
Definition settle_after (a : Action) : Z :=
  match a with
  | DispatchDrag _ type _ => if String.eqb type "drop" then 500 else 100
  | _ => 2000
  end.

(** An uploaded-image check follows the settles of 2000 and 500 ms. *)
Definition checked_after (ms : Z) : bool := (ms =? 2000) || (ms =? 500).

Record InjectionState := {
  at_page : Dom P;     (* the page as the events shaped it *)
  reached : nat;       (* rank of the latest strategy tried *)
  due : option Z;      (* the settle the latest attempt still waits for *)
  confirmed : bool;    (* a check after a settle found the image *)
  warned : bool        (* the latest event is the warning *)
}.

(** The protocol of the injection stage.  An injection event is rejected
    once a check has found the image, when it belongs to a strategy that
    comes before one already tried, and while the settle of the previous
    attempt is due (the change and input events of the file input belong
    to one attempt).  A wait is rejected when it is not the settle that is
    due. *)
Definition injection_step (s : InjectionState) (e : Event) : option InjectionState :=
  match e with
  | Act a =>
      let d := react P a (at_page s) in
      match strategy_of a with
      | Some st =>
          let continues :=
            match a, due s with
            | DispatchEvent _ _, Some _ => Nat.eqb (reached s) 0
            | _, Some _ => false
            | _, None => true
            end in
          if negb (confirmed s) && Nat.leb (reached s) (rank st) && continues
          then Some {| at_page := d; reached := rank st; due := Some (settle_after a);
                       confirmed := false; warned := false |}
          else None
      | None =>
          match a with
          | Elapse ms =>
              match due s with
              | Some t =>
                  if ms =? t
                  then Some {| at_page := d; reached := reached s; due := None;
                               confirmed := confirmed s || (checked_after ms && uploaded d);
                               warned := false |}
                  else None
              | None =>
                  Some {| at_page := d; reached := reached s; due := None;
                          confirmed := confirmed s || ((ms =? 2000) && uploaded d);
                          warned := false |}
              end
          | _ => Some {| at_page := d; reached := reached s; due := due s;
                         confirmed := confirmed s; warned := false |}
          end
      end
  | ConsoleLog message _ =>
      Some {| at_page := at_page s; reached := reached s; due := due s;
              confirmed := confirmed s; warned := String.eqb message UPLOAD_WARNING |}
  | _ => Some {| at_page := at_page s; reached := reached s; due := due s;
                 confirmed := confirmed s; warned := false |}
  end.

Definition injection_start (d : Dom P) : InjectionState :=
  {| at_page := d; reached := 0; due := None; confirmed := false; warned := false |}.

(** How a run of the injection stage may end: no settle is due, and the
    warning is the last event unless a check found the image. *)
Definition concluded (s : InjectionState) : Prop :=
  due s = None /\ (confirmed s = false -> warned s = true).

(** Invariants of the run.  [unmoved s0 s]: the state is that of [s0], up
    to the [warned] flag.  [tracking bound s w]: the page in step, no
    settle pending, nothing confirmed, no strategy past rank [bound]
    tried. *)
Definition unmoved (s0 s : InjectionState) : Prop :=
  at_page s = at_page s0 /\ reached s = reached s0 /\
  due s = due s0 /\ confirmed s = confirmed s0.

Definition tracking (bound : nat) (s : InjectionState) (w : World P) : Prop :=
  at_page s = page P w /\ (reached s <= bound)%nat /\
  due s = None /\ confirmed s = false.

(** *** The stage in the words of the specification

    What follows is written from the specification, apart from the code,
    to be compared with it: the strategies in their order, each attempt
    followed by its settle and by the check, a check that finds the image
    ending the stage. *)

(** What a run does to the page and the clock: its events without the
    console lines. *)
Definition deeds (events : list Event) : list Action :=
  omap (fun e => match e with Act a => Some a | _ => None end) events.

(** The page after [actions]. *)
Definition page_after (d : Dom P) (actions : list Action) : Dom P :=
  fold_left (fun d a => react P a d) actions d.

(** The injection of each strategy on page [d]; none when the page gives
    the strategy nothing to work on.  File input: the file is assigned to
    the file input, which is told so by a change and an input event. *)
Definition file_input_injection (file : File) (d : Dom P) : list Action :=
  match querySelector P d "input[type='file']" with
  | Some fileInput =>
      [ AssignFiles fileInput file;
        DispatchEvent fileInput "change";
        DispatchEvent fileInput "input" ]
  | None => []
  end.

(** Clipboard: the input area is focused and a paste carrying the file is
    dispatched to it. *)
Definition clipboard_injection (file : File) (d : Dom P) : list Action :=
  match findInputArea P d with
  | Some inputArea => [Focus inputArea; DispatchPaste inputArea file]
  | None => []
  end.

(** Drag and drop on one target: dragenter, dragover and drop, with the
    short settles between them. *)
Definition drag_injection (file : File) (dropTarget : Element) : list Action :=
  [ DispatchDrag dropTarget "dragenter" file; Elapse 100;
    DispatchDrag dropTarget "dragover" file; Elapse 100;
    DispatchDrag dropTarget "drop" file ].

(** An attempt: the injection, its settle, and then the uploaded-image
    check.  What is done, and whether the check finds the image. *)
Definition attempt (injection : list Action) (settle : Z) (d : Dom P)
    : list Action * bool :=
  let done := injection ++ [Elapse settle] in
  (done, uploaded (page_after d done)).

(** Attempts in order, until a check finds the image. *)
Definition or_else (first : list Action * bool) (next : Dom P -> list Action * bool)
    (d : Dom P) : list Action * bool :=
  let (done, found) := first in
  if found then (done, true)
  else let (more, found_later) := next (page_after d done) in (done ++ more, found_later).

(** The drop targets one after another, each with a settle of 500 ms. *)
Fixpoint drag_plan (file : File) (targets : list Element) (d : Dom P)
    : list Action * bool :=
  match targets with
  | [] => ([], false)
  | dropTarget :: rest =>
      or_else (attempt (drag_injection file dropTarget) 500 d) (drag_plan file rest) d
  end.

(** A strategy with the settle of 2000 ms, skipped without settle or
    check when it has nothing to inject. *)
Definition strategy (injection : Dom P -> list Action) (next : Dom P -> list Action * bool)
    (d : Dom P) : list Action * bool :=
  match injection d with
  | [] => next d
  | actions => or_else (attempt actions 2000 d) next d
  end.

(** The stage: file input, then clipboard, then drag and drop over the
    drop targets of the page, with a last settle and check.  What the
    stage does, and whether a check has found the image at its end. *)
Definition stage_plan (file : File) (d : Dom P) : list Action * bool :=
  strategy (file_input_injection file)
    (strategy (clipboard_injection file)
       (fun d => attempt (fst (drag_plan file (dropTargets P d) d)) 2000 d))
    d.

End WithPage.
End Injection.

(** ** The download *)
Module Fetching.

(** What the background channel yields for [url]: a blob, when the message
    is delivered, the worker's fetch succeeds and the data URL converts. *)
Definition privileged_blob (Pl : Platform) (url : string) : option Blob :=
  match lastError Pl (FETCH_IMAGE url) with
  | Some _ => None
  | None =>
      match Background.fetchImageAsDataUrl Pl url with
      | Ok dataUrl =>
          match page_fetch Pl DefaultInit dataUrl with
          | HttpResponse _ _ _ blob => Some blob
          | NetworkError _ => None
          end
      | Throw _ => None
      end
  end.

(** What the direct fetch from the page yields for [url]. *)
Definition direct_blob (Pl : Platform) (url : string) : option Blob :=
  match page_fetch Pl CorsOmitCredentials url with
  | HttpResponse true _ _ blob => Some blob
  | _ => None
  end.

(** The fetch fails via both channels. *)
Definition fetch_fails (Pl : Platform) (url : string) : Prop :=
  privileged_blob Pl url = None /\ direct_blob Pl url = None.

End Fetching.

(** ** The submission trigger *)
Module Sending.
Import Content.
Section WithPage.
Context (P : Page).

(** The position test of method 1. *)
Definition lower_right (d : Dom P) (btn : Element) : bool :=
  let rect := getBoundingClientRect P d btn in
  (rect_bottom rect >? innerHeight P d - 200) && (2 * rect_right rect >? innerWidth P d).

(** No heuristic of [clickSendButton] matches on page [d]. *)
Definition no_send_heuristic (d : Dom P) : bool :=
  let allButtons := querySelectorAll P d "button" in
  forallb (fun btn => negb (lower_right d btn && looks_like_send P d btn)) allButtons &&
  match querySelector P d "[aria-label*='Send' i], [aria-label*='submit' i]" with
  | Some _ => false
  | None =>
      match findInputArea P d with
      | Some inputArea =>
          match rightmost_near P d inputArea allButtons with
          | Some _ => false
          | None => true
          end
      | None => true
      end
  end.

End WithPage.
End Sending.

(** ** The run as a whole *)
Module Orchestration.
Import Content Events.

(** What the [catch] block emits for an error with [message]. *)
Definition failure_report (message : string) : list Event :=
  [ ConsoleError "Error:" [AStr message];
    Act RemoveAllOverlays;
    Act (ShowOverlay (ErrorMessage message));
    SendMessage (CHECK_ERROR message) ].

(** What readiness detection and reporting emit: console lines, waits,
    overlays, messages and fetches, and nothing done to the host's own
    elements. *)
Definition only_readiness (e : Event) : bool :=
  match e with
  | Act (Elapse _) | Act (ShowOverlay _) | Act RemoveAllOverlays => true
  | Act _ => false
  | _ => true
  end.

(** The same, with the composing of the query in [el]. *)
Definition readiness_and_composing (el : Element) (e : Event) : bool :=
  only_readiness e || composing_in el e.

(** Scenario B in the words of the specification: the fetch fails via
    both channels, the run ends with the Failed event, and nothing was
    done to the page beyond readiness detection. *)
Definition scenario_B_as_stated (P : Page) (Pl : Platform)
    (pendingImage : PendingCheck) (w : World P) : Prop :=
  Fetching.fetch_fails Pl (imageUrl pendingImage) ->
  let events := snd (process P Pl pendingImage w) in
  last events = Some (SendMessage (CHECK_ERROR DOWNLOAD_ERROR)) /\
  forallb only_readiness events = true.

(** What the run emits before the send step: no outbound event, and of
    the overlays only the three progress toasts. *)
Definition working (e : Event) : bool :=
  match e with
  | SendMessage (FETCH_IMAGE _) => true
  | SendMessage _ => false
  | Act (ShowOverlay TypingOverlay) | Act (ShowOverlay UploadingOverlay)
  | Act (ShowOverlay SendingOverlay) => true
  | Act (ShowOverlay _) => false
  | ConsoleError _ _ => false
  | _ => true
  end.

(** Neither the Failed event, nor the error dialog, nor the completion
    animation. *)
Definition no_failure_no_completion (e : Event) : bool :=
  match e with
  | SendMessage (CHECK_ERROR _) => false
  | Act (ShowOverlay (ErrorMessage _)) | Act (ShowOverlay CompletionAnimation) => false
  | _ => true
  end.

(** The input-area claim in the words of the specification: whatever the
    detector returns is larger than 100 by 20. *)
Definition locator_size_claim (P : Page) (Pl : Platform) (w : World P) : Prop :=
  forall el, fst (waitForGeminiReady P Pl w) = Ok el ->
    Readiness.large_enough
      (getBoundingClientRect P
         (page P (advance P Pl w (snd (waitForGeminiReady P Pl w)))) el) = true.

End Orchestration.

(** ** Concrete pages and platforms *)
Module Scenario.
Import Content.

(** A page that never changes: what each selector matches, and the box
    and markup of each element. *)
Record Static := {
  matches : string -> list Element;
  rects : Element -> DOMRect;
  markup : Element -> string
}.

Definition static_page : Page := {|
  Dom := Static;
  querySelectorAll d selector := matches d selector;
  querySelectorAll_in d _ _ := [];
  getBoundingClientRect d el := rects d el;
  innerHTML d el := markup d el;
  textContent d el := EmptyString;
  getAttribute d el name := None;
  offsetHeight d el := 0;
  children_length d el := 0;
  body d := 0%nat;
  readyState_complete d := true;
  time_to_load d := 0;
  innerHeight d := 800;
  innerWidth d := 1200;
  location_href d := "https://gemini.google.com/app";
  react a d := d
|}.

Definition box (width height : Z) : DOMRect :=
  {| rect_width := width; rect_height := height;
     rect_top := 700; rect_bottom := 700 + height; rect_right := 300 + width |}.

(** A page with nothing on it. *)
Definition blank : Static :=
  {| matches _ := []; rects _ := box 0 0; markup _ := EmptyString |}.

(** A page whose only editable element, node 1, is a 600 by 50 box. *)
Definition with_input : Static :=
  {| matches selector :=
       if String.eqb selector "[contenteditable='true']" then [1%nat] else [];
     rects _ := box 600 50;
     markup _ := EmptyString |}.

(** A page whose only editable element, node 1, is a hidden [div]: its
    box is 0 by 0. *)
Definition with_hidden_div : Static :=
  {| matches selector :=
       if String.eqb selector "[contenteditable='true']" then [1%nat]
       else if String.eqb selector "div[contenteditable='true']" then [1%nat]
       else [];
     rects _ := box 0 0;
     markup _ := EmptyString |}.

(** A page that shows an attachment, node 5, and nothing else. *)
Definition with_attachment : Static :=
  {| matches selector := if String.eqb selector ".attachment" then [5%nat] else [];
     rects _ := box 0 0;
     markup _ := EmptyString |}.

Definition cat_url : string := "https://example.com/cat.png".
Definition cat_blob : Blob := {| blob_size := 2048; blob_type := "image/png" |}.
Definition cat_file : File :=
  {| file_blob := cat_blob; file_name := "cat.png"; file_type := "image/png" |}.

(** No fetch succeeds. *)
Definition offline : Platform := {|
  url_pathname _ := Some "/cat.png";
  worker_fetch _ := NetworkError "Failed to fetch";
  page_fetch _ _ := NetworkError "Failed to fetch";
  readAsDataURL _ := None;
  lastError _ := None
|}.

(** Every fetch succeeds. *)
Definition online : Platform := {|
  url_pathname _ := Some "/cat.png";
  worker_fetch _ := HttpResponse true 200 "OK" cat_blob;
  page_fetch _ _ := HttpResponse true 200 "OK" cat_blob;
  readAsDataURL _ := Some "data:image/png;base64,AAAA";
  lastError _ := None
|}.

(** The record the context-menu click stores at time 1000. *)
Definition cat : PendingCheck :=
  {| imageUrl := cat_url; timestamp := 1000; sourceTabId := 7 |}.

Definition stored : gmap string PendingCheck := Background.onClicked cat_url 7 1000 ∅.

(** The content script starts on page [d] at time [t]. *)
Definition world (d : Static) (t : Z) : World static_page :=
  Build_World static_page t d stored.

End Scenario.

(** * More of the two scripts

    The rest of the service worker's click handler, and the measures by
    which whole runs of the content script are judged: the time they spend
    waiting, the text they type, the buttons they click, the file they
    carry and the overlays they leave in the page. *)

(** ** The context-menu click *)
Module ContextMenu.
Import Background.

Definition MENU_ITEM : string := "check-image-real".
Definition GEMINI_APP : string := "https://gemini.google.com/app".

(** The [info] argument of [chrome.contextMenus.onClicked]: the item that
    was clicked and [info.srcUrl], [None] when it is undefined. *)
Record OnClickData := {
  menuItemId : string;
  srcUrl : option string
}.

(** How the browser answers the calls of the handler. *)
Record Browser := {
  (** [tabs[0]] of [chrome.tabs.query({ active: true, currentWindow: true })] *)
  activeTab : option Z;
  (** [false] when [chrome.scripting.executeScript] rejects *)
  executeScript_ok : bool;
  (** [false] when [chrome.storage.local.set] rejects *)
  storage_set_ok : bool;
  (** the id of the tab [chrome.tabs.create] opens; [None] when it rejects *)
  tabs_create : option Z
}.

(** What the handler asks of the browser, in the order it asks.  Of a
    line written to the console the text is kept, without the name of the
    extension that some lines begin with and without the values logged
    after it. *)
Inductive Call :=
| ExecuteAlert (tabId : Z) (text : string)
| StorageSet (key : string) (record : PendingCheck)
| TabsCreate (url : string) (active : bool)
| WorkerLog (message : string)
| WorkerError (message : string).

Definition NEWLINE : string := String "010" EmptyString.

(** [showNotification]: an [alert] in the active tab, if there is one. *)
Definition showNotification (B : Browser) (title message : string) : list Call :=
  match activeTab B with
  | Some tabId =>
      ExecuteAlert tabId (title +:+ NEWLINE +:+ NEWLINE +:+ message) ::
      (if executeScript_ok B then [] else [WorkerError "Could not show notification:"])
  | None => []
  end.

(** The listener of [chrome.contextMenus.onClicked], with the tab the
    click came from ([None] when the click was not in a tab and [tab] is
    undefined; reading [tab.id] then throws inside the [try]) and the time
    of the click: its calls, and the store it leaves. *)
Definition onMenuClicked (B : Browser) (info : OnClickData) (tab : option Z) (now : Z)
    (store : gmap string PendingCheck) : list Call * gmap string PendingCheck :=
  if negb (String.eqb (menuItemId info) MENU_ITEM) then ([], store)
  else
    match srcUrl info with
    | None =>
        (showNotification B "Error" "Could not detect image URL. Please try another image.",
         store)
    | Some imageUrl =>
        if negb (JS.truthy imageUrl) then
          (showNotification B "Error" "Could not detect image URL. Please try another image.",
           store)
        else if negb (isValidWebUrl imageUrl) then
          (showNotification B "Unsupported Image"
             "This image type is not supported. Please try an image from a website.",
           store)
        else
          let failed :=
            WorkerError "Error:" ::
            showNotification B "Error" "Something went wrong. Please try again." in
          match tab with
          | None => (WorkerLog "Checking image:" :: failed, store)
          | Some tabId =>
              let record :=
                {| imageUrl := imageUrl; timestamp := now; sourceTabId := tabId |} in
              if storage_set_ok B then
                (WorkerLog "Checking image:" :: StorageSet KEY record ::
                 TabsCreate GEMINI_APP true ::
                 match tabs_create B with
                 | Some _ => [WorkerLog "Opened Gemini tab:"]
                 | None => failed
                 end,
                 <[KEY := record]> store)
              else
                (WorkerLog "Checking image:" :: StorageSet KEY record :: failed, store)
          end
    end.

(** The calls that come before the first call satisfying [f]. *)
Fixpoint calls_before (f : Call -> bool) (calls : list Call) : list Call :=
  match calls with
  | [] => []
  | c :: rest => if f c then [] else c :: calls_before f rest
  end.

Definition is_tabs_create (c : Call) : bool :=
  match c with TabsCreate _ _ => true | _ => false end.

Definition is_storage_set (c : Call) : bool :=
  match c with StorageSet _ _ => true | _ => false end.

(** The alerts the handler asks for, with the tab of each. *)
Definition alerts_requested (calls : list Call) : list (Z * string) :=
  omap (fun c => match c with ExecuteAlert tabId text => Some (tabId, text) | _ => None end)
       calls.

(** The alerts the user gets to see: those asked for, unless
    [executeScript] rejects. *)
Definition alerts_shown (B : Browser) (calls : list Call) : list (Z * string) :=
  if executeScript_ok B then alerts_requested calls else [].

(** How a click ends that has called [showNotification]: no opened tab is
    logged, and one alert is asked for in the active tab, if there is
    one. *)
Definition notified (B : Browser) (calls : list Call) : Prop :=
  ~ In (WorkerLog "Opened Gemini tab:") calls /\
  match activeTab B with
  | None => alerts_requested calls = []
  | Some active =>
      exists text,
        alerts_requested calls = [(active, text)] /\
        (executeScript_ok B = true -> alerts_shown B calls = [(active, text)]) /\
        (executeScript_ok B = false ->
         alerts_shown B calls = [] /\ In (WorkerError "Could not show notification:") calls)
  end.

End ContextMenu.

(** ** Measures of a run *)

(** The time a run spends waiting. *)
Module Timing.
Import Content.

(** The milliseconds [e] takes: those of a wait, and none otherwise. *)
Definition wait_of (e : Event) : Z :=
  match e with Act a => elapsed a | _ => 0 end.

(** The milliseconds of the waits among [events]. *)
Definition waited (events : list Event) : Z :=
  fold_right (fun e total => wait_of e + total) 0 events.

(** The monitor that adds up the waits. *)
Definition clock_step (s : Z) (e : Event) : option Z := Some (s + wait_of e).

(** In every world, [m] waits [limit] milliseconds at most. *)
Definition within {P : Page} {A} (m : M P A) (limit : Z) : Prop :=
  forall w, 0 <= waited (snd (m w)) <= limit.

(** A wait of exactly [ms], or no wait at all. *)
Definition waits_of (ms : Z) (e : Event) : bool :=
  match e with
  | Act (Elapse t) => t =? ms
  | _ => true
  end.

End Timing.

(** The text a run types. *)
Module Typed.

(** The two halves of a typed character: the insertion by
    [document.execCommand('insertText', false, char)], and the [input]
    event dispatched to [el] with [data]. *)
Inductive Keystroke :=
| Inserted (char : string)
| Input (el : Element) (data : string).

Definition keystroke (e : Event) : option Keystroke :=
  match e with
  | Act (ExecInsertText char) => Some (Inserted char)
  | Act (DispatchInput el data) => Some (Input el data)
  | _ => None
  end.

(** What a run types, in order. *)
Definition keystrokes (events : list Event) : list Keystroke := omap keystroke events.

(** The text the insertions add up to. *)
Definition inserted_text (events : list Event) : string :=
  String.concat EmptyString
    (omap (fun k => match k with Inserted char => Some char | Input _ _ => None end)
          (keystrokes events)).

(** [text] typed into [el], one character at a time. *)
Definition typing (el : Element) (text : string) : list Keystroke :=
  flat_map (fun char => [Inserted char; Input el char]) (JS.code_points text).

(** An event that types nothing. *)
Definition silent (e : Event) : bool :=
  match keystroke e with Some _ => false | None => true end.

(** The monitor that keeps what has been typed. *)
Definition keys_step (s : list Keystroke) (e : Event) : option (list Keystroke) :=
  match keystroke e with
  | Some k => Some (s ++ [k])
  | None => Some s
  end.

Definition QUERY : string := "@synthid is this image real?".

End Typed.

(** The tests of the scans for a button. *)
Module Lookup.
Import Content.
Section WithPage.
Context (P : Page).

(** The test of the scan for the "+" button: in the lowest 300 pixels of
    the viewport, and wider than 20. *)
Definition low_and_wide (d : Dom P) (btn : Element) : bool :=
  let rect := getBoundingClientRect P d btn in
  (rect_bottom rect >? innerHeight P d - 300) && (rect_width rect >? 20).

(** The test of the last scan for the send button: the top within 100
    pixels of the top of the input area. *)
Definition near_input (d : Dom P) (inputArea btn : Element) : bool :=
  Z.abs (rect_top (getBoundingClientRect P d btn) -
         rect_top (getBoundingClientRect P d inputArea)) <? 100.

(** The right edge of a button. *)
Definition right_edge (d : Dom P) (btn : Element) : Z :=
  rect_right (getBoundingClientRect P d btn).

End WithPage.
End Lookup.

(** The buttons a run clicks. *)
Module Clicks.

(** The targets of [el.click()], in order. *)
Definition clicked (events : list Event) : list Element :=
  omap (fun e => match e with Act (Click el) => Some el | _ => None end) events.

(** The targets of the synthetic [click] events, in order. *)
Definition click_events (events : list Event) : list Element :=
  omap (fun e => match e with Act (DispatchClick el) => Some el | _ => None end) events.

End Clicks.

(** The file a run hands to the page. *)
Module Payload.

#[global] Instance Blob_eq_dec : EqDecision Blob.
Proof. solve_decision. Defined.

#[global] Instance File_eq_dec : EqDecision File.
Proof. solve_decision. Defined.

Definition payload (e : Event) : option File :=
  match e with
  | Act (AssignFiles _ file) | Act (DispatchPaste _ file) | Act (DispatchDrag _ _ file) =>
      Some file
  | _ => None
  end.

(** [e] carries [file], or no file at all. *)
Definition carries (file : File) (e : Event) : bool :=
  match payload e with
  | Some f => bool_decide (f = file)
  | None => true
  end.

(** The drag events dispatched, with their target and type. *)
Definition drags (events : list Event) : list (Element * string) :=
  omap (fun e => match e with Act (DispatchDrag el type _) => Some (el, type) | _ => None end)
       events.

(** The three drag events of one attempt on [dropTarget]. *)
Definition drag_sequence (dropTarget : Element) : list (Element * string) :=
  [ (dropTarget, "dragenter"); (dropTarget, "dragover"); (dropTarget, "drop") ].

End Payload.

(** The overlays of the script, as elements of the page. *)
Module Overlays.
Import Content.

(** The [id] of the element each function appends to the body.  The
    manual-send prompt is declared twice; the later declaration, with the
    id "synthid-manual-send", is the one in force. *)
Definition overlay_id (o : Overlay) : string :=
  match o with
  | TypingOverlay | UploadingOverlay | SendingOverlay => "synthid-working"
  | CompletionAnimation => "synthid-complete"
  | ManualSendPrompt => "synthid-manual-send"
  | ErrorMessage _ => "synthid-error-overlay"
  end.

(** [setTimeout(() => overlay.remove(), ms)] *)
Definition lifetime (o : Overlay) : option Z :=
  match o with
  | CompletionAnimation => Some 8000
  | ManualSendPrompt => Some 10000
  | _ => None
  end.

(** The ids [removeAllOverlays] looks up. *)
Definition removed_ids : list string :=
  [ "synthid-working"; "synthid-complete"; "synthid-manual"; "synthid-error-overlay";
    "synthid-typing-toast"; "synthid-uploading-toast"; "synthid-sending-toast";
    "synthid-complete-toast"; "image-check-loading-overlay"; "image-check-success-toast";
    "image-check-test-toast" ].

(** An element the script has appended, and when its timer removes it. *)
Record Shown := {
  shown : Overlay;
  expires : option Z
}.

(** The script's elements in the body, in document order, and the clock. *)
Record Layer := {
  clock : Z;
  elements : list Shown
}.

(** [document.getElementById(id)?.remove()]: the first element with the
    id goes. *)
Fixpoint remove_by_id (id : string) (els : list Shown) : list Shown :=
  match els with
  | [] => []
  | x :: rest =>
      if String.eqb (overlay_id (shown x)) id then rest else x :: remove_by_id id rest
  end.

(** [removeAllOverlays] *)
Definition remove_all (els : list Shown) : list Shown :=
  fold_left (fun els id => remove_by_id id els) removed_ids els.

Definition alive (t : Z) (x : Shown) : bool :=
  match expires x with
  | Some due => t <? due
  | None => true
  end.

(** The layer after an action of the script. *)
Definition layer_act (a : Action) (l : Layer) : Layer :=
  match a with
  | ShowOverlay o =>
      {| clock := clock l;
         elements := remove_all (elements l) ++
                     [{| shown := o; expires := option_map (Z.add (clock l)) (lifetime o) |}] |}
  | RemoveAllOverlays => {| clock := clock l; elements := remove_all (elements l) |}
  | Elapse ms =>
      {| clock := clock l + ms; elements := List.filter (alive (clock l + ms)) (elements l) |}
  | _ => l
  end.

Definition layer_event (l : Layer) (e : Event) : Layer :=
  match e with Act a => layer_act a l | _ => l end.

(** The layer after [events], from a page without overlays at time [t]. *)
Definition layer_after (t : Z) (events : list Event) : Layer :=
  fold_left layer_event events {| clock := t; elements := [] |}.

(** At most one overlay in the page, and one that [removeAllOverlays]
    removes. *)
Definition tidy (l : Layer) : Prop :=
  (length (elements l) <= 1)%nat /\
  Forall (fun x => In (overlay_id (shown x)) removed_ids) (elements l).

(** Every event but the showing of the manual-send prompt. *)
Definition keeps_tidy (e : Event) : bool :=
  match e with
  | Act (ShowOverlay ManualSendPrompt) => false
  | _ => true
  end.

End Overlays.

(** What a run of [process] ends with when nothing went wrong. *)
Module Reporting.

Definition success_report (sent : bool) : list Event :=
  [ Act RemoveAllOverlays;
    Act (ShowOverlay (if sent then CompletionAnimation else ManualSendPrompt));
    SendMessage (CHECK_COMPLETE true) ].

(** The errors the script itself raises on the way to the send step. *)
Definition known_error (message : string) : Prop :=
  message = Content.TIMEOUT_MESSAGE \/ message = Content.DOWNLOAD_ERROR.

End Reporting.

(** How every run of the content script begins. *)
Module Pickup.
Import Content.

(** What [getPendingImage] resolves to in world [w]: the stored record,
    or nothing when there is none or the message is not delivered. *)
Definition picked_up {P : Page} (Pl : Platform) (w : World P) : option PendingCheck :=
  match lastError Pl GET_PENDING_IMAGE with
  | Some _ => None
  | None => storage P w !! Background.KEY
  end.

Definition greeting : list Event :=
  [ ConsoleLog "Content script loaded on Gemini" []; SendMessage GET_PENDING_IMAGE ].

Definition announcement (pendingImage : PendingCheck) : list Event :=
  [ ConsoleLog "Processing image:" [AStr (imageUrl pendingImage)];
    Act (ShowOverlay TypingOverlay) ].

End Pickup.

(** ** More pages and worlds *)
Module Samples.
Import Content Scenario.

(** A browser in which every call of the worker succeeds. *)
Definition willing : ContextMenu.Browser :=
  {| ContextMenu.activeTab := Some 7;
     ContextMenu.executeScript_ok := true;
     ContextMenu.storage_set_ok := true;
     ContextMenu.tabs_create := Some 8 |}.

(** A right-click on the cat picture. *)
Definition cat_click : ContextMenu.OnClickData :=
  {| ContextMenu.menuItemId := ContextMenu.MENU_ITEM;
     ContextMenu.srcUrl := Some cat_url |}.

(** The content script starts on page [d] at time [t], with nothing
    stored. *)
Definition idle_world (d : Static) (t : Z) : World static_page :=
  Build_World static_page t d ∅.

(** A page with a file input, node 2, which shows an attachment, node 5,
    once a file has been assigned to the input; its state tells whether
    that has happened. *)
Definition accepting_page : Page := {|
  Dom := bool;
  querySelectorAll d selector :=
    if String.eqb selector "input[type='file']" then [2%nat]
    else if String.eqb selector ".attachment" then (if d then [5%nat] else [])
    else [];
  querySelectorAll_in d _ _ := [];
  getBoundingClientRect d el := box 0 0;
  innerHTML d el := EmptyString;
  textContent d el := EmptyString;
  getAttribute d el name := None;
  offsetHeight d el := 0;
  children_length d el := 0;
  body d := 0%nat;
  readyState_complete d := true;
  time_to_load d := 0;
  innerHeight d := 800;
  innerWidth d := 1200;
  location_href d := "https://gemini.google.com/app";
  react a d := match a with AssignFiles _ _ => true | _ => d end
|}.

(** A page whose overlay container, node 3, holds one pane, node 4,
    10 pixels high, with [text] in it. *)
Definition overlay_page (text : string) : Page := {|
  Dom := unit;
  querySelectorAll d selector :=
    if String.eqb selector ".cdk-overlay-container" then [3%nat] else [];
  querySelectorAll_in d el selector :=
    if String.eqb selector ".cdk-overlay-pane" then [4%nat] else [];
  getBoundingClientRect d el := box 0 0;
  innerHTML d el := EmptyString;
  textContent d el := text;
  getAttribute d el name := None;
  offsetHeight d el := 10;
  children_length d el := 1;
  body d := 0%nat;
  readyState_complete d := true;
  time_to_load d := 0;
  innerHeight d := 800;
  innerWidth d := 1200;
  location_href d := "https://gemini.google.com/app";
  react a d := d
|}.

(** U+00A0, the no-break space, and U+20AC, the euro sign. *)
Definition NO_BREAK_SPACE : string := String "194" (String "160" EmptyString).
Definition EURO : string := String "226" (String "130" (String "172" EmptyString)).

End Samples.

(** * Proofs *)

(** ** Strings *)
Module JSFacts.
Import JS.

Lemma split_nonempty sep s : split sep s <> [].
Proof.
  destruct s as [|c rest]; simpl; [discriminate|].
  destruct (Ascii.eqb c sep); [discriminate|].
  destruct (split sep rest); discriminate.
Qed.

Lemma split_no_sep sep s :
  ~ In sep (list_ascii_of_string s) -> split sep s = [s].
Proof.
  induction s as [|c rest IH]; simpl; intros H; [reflexivity|].
  destruct (Ascii.eqb_spec c sep) as [->|Hne]; [exfalso; apply H; now left|].
  rewrite IH; [reflexivity|]. intros Hin. apply H. now right.
Qed.

Lemma split_at_sep sep before rest :
  split sep (before +:+ String sep rest) = split sep before ++ split sep rest.
Proof.
  induction before as [|c before IH]; simpl.
  - rewrite Ascii.eqb_refl. reflexivity.
  - destruct (Ascii.eqb c sep).
    + rewrite IH. reflexivity.
    + rewrite IH. destruct (split sep before) as [|part parts] eqn:E.
      * exfalso. exact (split_nonempty _ _ E).
      * reflexivity.
Qed.

Lemma last_app_nonempty {A} (l1 l2 : list A) d :
  l2 <> [] -> List.last (l1 ++ l2) d = List.last l2 d.
Proof.
  intros H. induction l1 as [|x l1 IH]; simpl; [reflexivity|].
  destruct (l1 ++ l2) eqn:E; [|exact IH].
  apply app_eq_nil in E. tauto.
Qed.

Lemma last_split sep s segment :
  is_last_segment sep s segment -> List.last (split sep s) EmptyString = segment.
Proof.
  intros [Hfree [->|[before ->]]].
  - rewrite split_no_sep by exact Hfree. reflexivity.
  - rewrite split_at_sep, last_app_nonempty by apply split_nonempty.
    rewrite split_no_sep by exact Hfree. reflexivity.
Qed.

Lemma last_segment_exists sep s : exists segment, is_last_segment sep s segment.
Proof.
  induction s as [|c rest [seg [Hfree Hs]]].
  - exists EmptyString. split; [simpl; tauto | now left].
  - destruct Hs as [->|[before ->]].
    + destruct (Ascii.eqb_spec c sep) as [->|Hne].
      * exists seg. split; [exact Hfree|]. right. exists EmptyString. reflexivity.
      * exists (String c seg). split; [|now left].
        simpl. intros [H|H]; [congruence | exact (Hfree H)].
    + exists seg. split; [exact Hfree|]. right. exists (String c before). reflexivity.
Qed.

Lemma includes_char c s :
  includes (String c EmptyString) s = true <-> In c (list_ascii_of_string s).
Proof.
  induction s as [|a rest IH]; simpl.
  - split; [discriminate | tauto].
  - rewrite orb_true_iff, IH.
    destruct (ascii_dec c a) as [->|Hne].
    + split; [now left|]. intros _. left. destruct rest; reflexivity.
    + split.
      * intros [H|H]; [|now right]. exfalso.
        destruct (ascii_dec c a); [contradiction|]. discriminate.
      * intros [H|H]; [congruence | now right].
Qed.

Lemma truthy_nonempty s : truthy s = true <-> s <> EmptyString.
Proof. destruct s; simpl; split; congruence. Qed.

(** [trim()] takes the white space outside ASCII away too: the no-break
    space U+00A0 is white space, the zero-width space U+200B is not. *)
Example trim_of_no_break_space :
  trim_nonempty (String "194" (String "160" " ")) = false /\
  trim_nonempty (String "226" (String "128" (String "139" EmptyString))) = true.
Proof. split; reflexivity. Qed.

End JSFacts.

(** ** The file name of the upload *)
Module FileNameFacts.
Import Content JSFacts.
Section WithPlatform.
Context (Pl : Platform).

Lemma getFileNameFromUrl_nonempty url : getFileNameFromUrl Pl url <> EmptyString.
Proof.
  unfold getFileNameFromUrl. destruct (url_pathname Pl url) as [pathname|]; [|discriminate].
  destruct (JS.truthy _) eqn:Ht; simpl; [|discriminate].
  destruct (JS.includes _ _); [|discriminate].
  apply truthy_nonempty, Ht.
Qed.

(** C10.  [getFileNameFromUrl] is a total function whose answer is never
    the empty string.  When the URL does not parse the answer is
    "image.png".  When it parses, the path has a last segment, and the
    answer is that segment if it is non-empty and contains a dot, and
    "image.png" otherwise.  The [File] that [uploadImageToGemini] builds
    carries this answer as its name, so the name is never empty. *)
Theorem getFileNameFromUrl_total (url : string) :
  getFileNameFromUrl Pl url <> EmptyString /\
  match url_pathname Pl url with
  | None => getFileNameFromUrl Pl url = "image.png"
  | Some pathname =>
      (exists segment, is_last_segment "/" pathname segment) /\
      forall segment, is_last_segment "/" pathname segment ->
        (segment <> EmptyString /\ In "."%char (list_ascii_of_string segment) ->
         getFileNameFromUrl Pl url = segment) /\
        (segment = EmptyString \/ ~ In "."%char (list_ascii_of_string segment) ->
         getFileNameFromUrl Pl url = "image.png")
  end /\
  forall imageBlob,
    file_name (makeFile Pl imageBlob url) = getFileNameFromUrl Pl url /\
    file_name (makeFile Pl imageBlob url) <> EmptyString.
Proof.
  pose proof (getFileNameFromUrl_nonempty url) as Hne.
  split; [exact Hne|]. split.
  - unfold getFileNameFromUrl.
    destruct (url_pathname Pl url) as [pathname|]; [|reflexivity].
    split; [apply last_segment_exists|].
    intros segment Hseg. rewrite (last_split _ _ _ Hseg). split.
    + intros [Hn Hdot]. apply truthy_nonempty in Hn. apply includes_char in Hdot.
      rewrite Hn, Hdot. reflexivity.
    + intros [->|Hdot]; [reflexivity|].
      destruct (JS.includes "." segment) eqn:E.
      * apply includes_char in E. contradiction.
      * rewrite andb_false_r. reflexivity.
  - intros imageBlob. unfold makeFile; simpl.
    apply truthy_nonempty in Hne. rewrite Hne. split; [reflexivity|].
    apply truthy_nonempty, Hne.
Qed.

End WithPlatform.

Example file_name_of_cat :
  getFileNameFromUrl Scenario.offline Scenario.cat_url = "cat.png".
Proof. reflexivity. Qed.

Example last_part_of_directory : List.last (JS.split "/" "/photos/") EmptyString = EmptyString.
Proof. reflexivity. Qed.

End FileNameFacts.

(** ** The service worker *)
Module BackgroundFacts.
Import Background.

Section WithPlatform.
Context (Pl : Platform).



Lemma filter_none {A} (f : A -> bool) l :
  Forall (fun x => f x = false) l -> List.filter f l = [].
Proof.
  induction 1 as [|x l Hx _ IH]; simpl; [reflexivity|]. rewrite Hx. exact IH.
Qed.

(** *** The request, step by step *)

Lemma take_out_length request l others :
  take_out request l = Some others -> length l = S (length others).
Proof.
  revert others. induction l as [|x l IH]; intros others; cbn [take_out]; [discriminate|].
  destruct (Nat.eqb x request); [intros [= <-]; reflexivity|].
  destruct (take_out request l) as [rest|]; [|discriminate].
  intros [= <-]. cbn [length]. rewrite (IH rest eq_refl). reflexivity.
Qed.









End WithPlatform.

Section OnTheCatRecord.
Import Scenario.



Example overlapping_requests_are_both_answered :
  option_map responses
    (worker_run (at_rest stored)
       [ Arrives 1; Arrives 2; Reads 1; Reads 2; Answers 1; Removes 1; Answers 2; Removes 2 ])
  = Some [(1%nat, Some cat); (2%nat, Some cat)].
Proof. vm_compute. reflexivity. Qed.

End OnTheCatRecord.

End BackgroundFacts.

(** ** Rules for monitored runs *)
Module MonitorFacts.
Import Content Monitor Events.

Section WithHost.
Context {P : Page} (Pl : Platform).

Lemma advance_app (w : World P) l1 l2 :
  advance P Pl w (l1 ++ l2) = advance P Pl (advance P Pl w l1) l2.
Proof. unfold advance. apply fold_left_app. Qed.

Lemma advance_console (w : World P) events :
  forallb is_console events = true -> advance P Pl w events = w.
Proof.
  induction events as [|e events IH]; simpl; [reflexivity|].
  intros H. apply andb_true_iff in H as [He H]. destruct e; try discriminate. apply IH, H.
Qed.

Section Monitored.
Context {S : Type} (step : S -> Event -> option S).

Lemma mrun_app l1 : forall s l2,
  mrun step s (l1 ++ l2) =
  match mrun step s l1 with Some s' => mrun step s' l2 | None => None end.
Proof.
  induction l1 as [|e l1 IH]; intros s l2; simpl; [reflexivity|].
  destruct (step s e); [apply IH | reflexivity].
Qed.

Lemma sat_ret {A} (a : A) w s Q : Q (Ok a) s w -> sat Pl step (ret P a) w s Q.
Proof. intros H. exists s. split; [reflexivity | exact H]. Qed.

Lemma sat_throw {A} e w s (Q : Result A -> S -> World P -> Prop) :
  Q (Throw e) s w -> sat Pl step (throw P e) w s Q.
Proof. intros H. exists s. split; [reflexivity | exact H]. Qed.

Lemma sat_gets {A} (f : Dom P -> A) w s Q :
  Q (Ok (f (page P w))) s w -> sat Pl step (gets P f) w s Q.
Proof. intros H. exists s. split; [reflexivity | exact H]. Qed.

Lemma sat_Date_now w s Q : Q (Ok (now P w)) s w -> sat Pl step (Date_now P) w s Q.
Proof. intros H. exists s. split; [reflexivity | exact H]. Qed.

Lemma sat_emit e w s s' Q :
  step s e = Some s' -> Q (Ok tt) s' (apply_event P Pl e w) -> sat Pl step (emit P e) w s Q.
Proof. intros Hs H. exists s'. split; [simpl; rewrite Hs; reflexivity | exact H]. Qed.

Lemma sat_sendMessage m w s s' Q :
  step s (SendMessage m) = Some s' ->
  Q (Ok match lastError Pl m with
        | Some _ => None
        | None => Some (fst (Background.onMessage Pl m (storage P w)))
        end) s' (apply_event P Pl (SendMessage m) w) ->
  sat Pl step (sendMessage P Pl m) w s Q.
Proof. intros Hs H. exists s'. split; [simpl; rewrite Hs; reflexivity | exact H]. Qed.

Lemma sat_fetch init url w s s' Q :
  step s (PageFetch init url) = Some s' ->
  Q match page_fetch Pl init url with
    | NetworkError e => Throw e
    | HttpResponse ok status _ blob => Ok (ok, status, blob)
    end s' w ->
  sat Pl step (fetch P Pl init url) w s Q.
Proof. intros Hs H. exists s'. split; [simpl; rewrite Hs; reflexivity | exact H]. Qed.

Lemma sat_bind {A B} (m : M P A) (k : A -> M P B) w s Q :
  sat Pl step m w s (fun r s1 w1 =>
                       match r with
                       | Ok a => sat Pl step (k a) w1 s1 Q
                       | Throw e => Q (Throw e) s1 w1
                       end) ->
  sat Pl step (bind P Pl m k) w s Q.
Proof.
  intros (s1 & H1 & H). unfold sat, bind.
  destruct (m w) as [[a|e] events]; simpl in *.
  - destruct H as (s2 & H2 & H).
    destruct (k a (advance P Pl w events)) as [r events']; simpl in *.
    exists s2. rewrite mrun_app, H1, advance_app. auto.
  - exists s1. auto.
Qed.

Lemma sat_try_catch {A} (m : M P A) (h : string -> M P A) w s Q :
  sat Pl step m w s (fun r s1 w1 =>
                       match r with
                       | Ok a => Q (Ok a) s1 w1
                       | Throw e => sat Pl step (h e) w1 s1 Q
                       end) ->
  sat Pl step (try_catch P Pl m h) w s Q.
Proof.
  intros (s1 & H1 & H). unfold sat, try_catch.
  destruct (m w) as [[a|e] events]; simpl in *.
  - exists s1. auto.
  - destruct H as (s2 & H2 & H).
    destruct (h e (advance P Pl w events)) as [r events']; simpl in *.
    exists s2. rewrite mrun_app, H1, advance_app. auto.
Qed.

Lemma sat_conseq {A} (m : M P A) w s (Q Q' : Result A -> S -> World P -> Prop) :
  sat Pl step m w s Q -> (forall r s' w', Q r s' w' -> Q' r s' w') -> sat Pl step m w s Q'.
Proof. intros (s' & H1 & H) HQ. exists s'. auto. Qed.

Lemma sat_for_first {A B} (I : S -> World P -> Prop) (body : A -> M P (option B)) Q l :
  (forall x s w, In x l -> I s w ->
     sat Pl step (body x) w s (fun r s' w' =>
                                 match r with
                                 | Ok None => I s' w'
                                 | other => Q other s' w'
                                 end)) ->
  (forall s w, I s w -> Q (Ok None) s w) ->
  forall s w, I s w -> sat Pl step (for_first P Pl l body) w s Q.
Proof.
  intros Hbody Hend. induction l as [|x l IH]; intros s w HI; simpl.
  - apply sat_ret, Hend, HI.
  - apply sat_bind. eapply sat_conseq; [apply Hbody; [now left | exact HI]|].
    intros [[b|]|e] s' w' H; simpl in *.
    + apply sat_ret, H.
    + apply IH; [|exact H]. intros y s0 w0 Hy. apply Hbody. now right.
    + exact H.
Qed.

Lemma mrun_stable allowed (I : S -> World P -> Prop) events :
  (forall e, allowed e = true -> stable_under Pl step e I) ->
  forallb allowed events = true ->
  forall s w, I s w ->
    exists s', mrun step s events = Some s' /\ I s' (advance P Pl w events).
Proof.
  intros Hst. induction events as [|e events IH]; intros Hall s w Hs; simpl in *.
  - exists s. auto.
  - apply andb_true_iff in Hall as [He Hall].
    destruct (Hst e He s w Hs) as (s1 & -> & H1).
    apply IH; assumption.
Qed.

Lemma dropdown_probe_console d : forallb is_console (fst (dropdown_probe P d)) = true.
Proof.
  unfold dropdown_probe.
  destruct (match querySelector P d ".cdk-overlay-container" with Some _ => _ | None => _ end);
    [reflexivity|].
  destruct (querySelector P d _); reflexivity.
Qed.

Lemma readiness_probe_console d : forallb is_console (fst (readiness_probe P d)) = true.
Proof.
  unfold readiness_probe.
  destruct (0 <? _); destruct (find _ _); try destruct (findInputArea P d); reflexivity.
Qed.

Lemma mrun_console (I : S -> World P -> Prop) logs :
  console_stable Pl step I -> forallb is_console logs = true ->
  forall s w, I s w -> exists s', mrun step s logs = Some s' /\ I s' w.
Proof.
  intros HI Hl s w Hs.
  destruct (mrun_stable is_console I logs) with (s := s) (w := w) as (s' & H1 & H2); auto.
  - intros e He. destruct e; try discriminate. apply HI.
  - rewrite (advance_console _ _ Hl) in H2. eauto.
Qed.

Lemma sat_dropdown_loop (I : S -> World P -> Prop) Q startTime maxWait :
  console_stable Pl step I ->
  stable_under Pl step (Act (Elapse 100)) I ->
  (forall b s w, I s w -> Q (Ok b) s w) ->
  forall w s, I s w -> sat Pl step (dropdown_loop P Pl startTime maxWait) w s Q.
Proof.
  intros Hlog Hwait HQ w.
  funelim (dropdown_loop P Pl startTime maxWait w); intros s Hs.
  - destruct (Hlog "Dropdown wait timed out, proceeding anyway" [] s w Hs) as (s' & Hs' & H').
    exists s'. rewrite <- Heqcall. simpl. rewrite Hs'. auto.
  - pose proof (dropdown_probe_console (page P w)) as Hc. rewrite Heq in Hc. simpl in Hc.
    destruct (mrun_console I logs Hlog Hc s w Hs) as (s' & Hs' & H').
    exists s'. rewrite <- Heqcall. simpl. rewrite (advance_console _ _ Hc). auto.
  - pose proof (dropdown_probe_console (page P w)) as Hc. rewrite Heq in Hc. simpl in Hc.
    destruct (mrun_console I logs Hlog Hc s w Hs) as (s1 & Hs1 & H1).
    destruct (Hwait s1 w H1) as (s2 & Hs2 & H2).
    destruct (H I Q Hlog Hwait HQ s2 H2) as (s3 & Hs3 & H3).
    exists s3. rewrite <- Heqcall.
    destruct (dropdown_loop P Pl startTime maxWait _) as [r events]. simpl in *.
    rewrite mrun_app, Hs1. simpl. rewrite Hs2, Hs3. split; [reflexivity|].
    rewrite advance_app, (advance_console _ _ Hc). exact H3.
Qed.

Lemma sat_readiness_loop (I : S -> World P -> Prop) Q startTime :
  console_stable Pl step I ->
  stable_under Pl step (Act (Elapse POLL_INTERVAL)) I ->
  (forall r s w, I s w -> Q r s w) ->
  forall w s, I s w -> sat Pl step (readiness_loop P Pl startTime) w s Q.
Proof.
  intros Hlog Hwait HQ w.
  funelim (readiness_loop P Pl startTime w); intros s Hs.
  - unfold sat. rewrite <- Heqcall.
    destruct (mrun_console I (snd (readiness_timeout P (page P w))) Hlog eq_refl s w Hs)
      as (s' & Hs' & H').
    exists s'. split; [exact Hs'|]. apply HQ.
    rewrite advance_console by reflexivity. exact H'.
  - pose proof (readiness_probe_console (page P w)) as Hc. rewrite Heq in Hc. simpl in Hc.
    destruct (mrun_console I logs Hlog Hc s w Hs) as (s' & Hs' & H').
    exists s'. rewrite <- Heqcall. simpl. rewrite (advance_console _ _ Hc). auto.
  - pose proof (readiness_probe_console (page P w)) as Hc. rewrite Heq in Hc. simpl in Hc.
    destruct (mrun_console I logs Hlog Hc s w Hs) as (s1 & Hs1 & H1).
    destruct (Hwait s1 w H1) as (s2 & Hs2 & H2).
    destruct (H I Q Hlog Hwait HQ s2 H2) as (s3 & Hs3 & H3).
    exists s3. rewrite <- Heqcall.
    destruct (readiness_loop P Pl startTime _) as [r events]. simpl in *.
    rewrite mrun_app, Hs1. simpl. rewrite Hs2, Hs3. split; [reflexivity|].
    rewrite advance_app, (advance_console _ _ Hc). exact H3.
Qed.

End Monitored.

Lemma mrun_filter allowed events s :
  mrun (filter_step allowed) s events = Some tt <-> forallb allowed events = true.
Proof.
  revert s. induction events as [|e events IH]; intros []; simpl; [tauto|].
  unfold filter_step at 1. destruct (allowed e); simpl; [apply IH|].
  split; discriminate.
Qed.

Lemma mrun_record events : forall s, mrun record_step s events = Some (s ++ events).
Proof.
  induction events as [|e events IH]; intros s; simpl.
  - rewrite app_nil_r. reflexivity.
  - rewrite IH, <- app_assoc. reflexivity.
Qed.

Lemma behaves_spec {A} allowed R (m : M P A) :
  behaves Pl allowed R m <-> forall w, forallb allowed (snd (m w)) = true /\ R (fst (m w)).
Proof.
  split; intros H w.
  - destruct (H w) as ([] & H1 & H2). split; [apply (mrun_filter allowed _ tt), H1 | exact H2].
  - destruct (H w) as [H1 H2]. exists tt. split; [apply mrun_filter, H1 | exact H2].
Qed.

Lemma behaves_events {A} allowed R (m : M P A) w :
  behaves Pl allowed R m -> forallb allowed (snd (m w)) = true.
Proof. intros H. apply (proj1 (behaves_spec _ _ _) H w). Qed.

Lemma behaves_result {A} allowed R (m : M P A) w :
  behaves Pl allowed R m -> R (fst (m w)).
Proof. intros H. apply (proj1 (behaves_spec _ _ _) H w). Qed.

Lemma behaves_weaken {A} (allowed allowed' : Event -> bool) (R R' : Result A -> Prop)
    (m : M P A) :
  behaves Pl allowed R m ->
  (forall e, allowed e = true -> allowed' e = true) ->
  (forall r, R r -> R' r) ->
  behaves Pl allowed' R' m.
Proof.
  intros H Ha HR. apply behaves_spec. intros w.
  destruct (proj1 (behaves_spec _ _ _) H w) as [H1 H2]. split; [|auto].
  rewrite forallb_forall in *. auto.
Qed.

(** A run of [m] under any monitor: its events keep an invariant that is
    stable under what [m] may emit. *)
Lemma sat_transfer {S A} (step : S -> Event -> option S) allowed
    (I : S -> World P -> Prop) (R : Result A -> Prop) (m : M P A) Q w s :
  behaves Pl allowed R m ->
  (forall e, allowed e = true -> stable_under Pl step e I) ->
  I s w ->
  (forall s' w', R (fst (m w)) -> I s' w' -> Q (fst (m w)) s' w') ->
  sat Pl step m w s Q.
Proof.
  intros Hm Hst Hs HQ.
  destruct (proj1 (behaves_spec _ _ _) Hm w) as [Hall HR].
  destruct (mrun_stable step allowed I _ Hst Hall s w Hs) as (s' & H1 & H2).
  exists s'. auto.
Qed.

(** A run of [m] under the recording monitor. *)
Lemma sat_record {A} (m : M P A) w s (Q : Result A -> list Event -> World P -> Prop) :
  Q (fst (m w)) (s ++ snd (m w)) (advance P Pl w (snd (m w))) ->
  sat Pl record_step m w s Q.
Proof. intros H. exists (s ++ snd (m w)). split; [apply mrun_record | exact H]. Qed.

Lemma sat_record_call {A} (m : M P A) allowed R w s
    (Q : Result A -> list Event -> World P -> Prop) :
  behaves Pl allowed R m ->
  (forall r events w', R r -> forallb allowed events = true -> Q r (s ++ events) w') ->
  sat Pl record_step m w s Q.
Proof.
  intros Hm HQ. apply sat_record, HQ; [apply (behaves_result _ _ _ _ Hm)|].
  apply (behaves_events _ _ _ _ Hm).
Qed.

Lemma sat_record_inv {A} (m : M P A) w (Q : Result A -> list Event -> World P -> Prop) :
  sat Pl record_step m w [] Q ->
  Q (fst (m w)) (snd (m w)) (advance P Pl w (snd (m w))).
Proof. intros (s & H1 & H2). rewrite mrun_record in H1. injection H1 as <-. exact H2. Qed.

End WithHost.

Create HintDb event_classes.
#[export] Hint Unfold filter_step waits_and_logs composing_in
  Orchestration.readiness_and_composing : event_classes.

Ltac sat_unfold :=
  unfold act, log, delay, removeAllOverlays, showTypingOverlay, showUploadingOverlay,
    showSendingOverlay, hideTypingOverlay, hideUploadingOverlay, hideSendingOverlay,
    showCompletionAnimation, showManualSendPrompt, showLoadingOverlay, hideLoadingOverlay,
    showErrorMessage, pressTab.

(** The monitor's step on the event just emitted. *)
Ltac sat_side :=
  lazymatch goal with
  | |- record_step _ _ = _ => reflexivity
  | |- _ =>
      autounfold with event_classes; cbn; rewrite ?Nat.eqb_refl;
      repeat match goal with H : Nat.leb _ _ = true |- _ => rewrite H end;
      reflexivity
  end.

(** One step of a run: the rule for the head of the computation. *)
Ltac sat_step :=
  sat_unfold;
  lazymatch goal with
  | |- sat _ _ (bind _ _ _ _) _ _ _ => apply sat_bind
  | |- sat _ _ (ret _ _) _ _ _ => apply sat_ret
  | |- sat _ _ (throw _ _) _ _ _ => apply sat_throw
  | |- sat _ _ (gets _ _) _ _ _ => apply sat_gets
  | |- sat _ _ (Date_now _) _ _ _ => apply sat_Date_now
  | |- sat _ _ (emit _ _) _ _ _ =>
      eapply sat_emit; [sat_side|]
  | |- sat _ _ (sendMessage _ _ _) _ _ _ => eapply sat_sendMessage; [sat_side|]
  | |- sat _ _ (fetch _ _ _ _) _ _ _ => eapply sat_fetch; [sat_side|]
  | |- sat _ _ (try_catch _ _ _ _) _ _ _ => apply sat_try_catch
  end; cbv beta iota; cbn [apply_event page now storage elapsed].

Ltac sat_run := repeat sat_step.

Ltac by_cases_on_event e :=
  let a := fresh "a" in
  let m := fresh "m" in
  destruct e as [a| | |m|];
  [ destruct a; try match goal with o : Overlay |- _ => destruct o end
  | | | destruct m | ];
  simpl; try congruence.

End MonitorFacts.

(** ** What each procedure may emit *)
Module ProcedureFacts.
Import Content Monitor Events MonitorFacts.
Section WithHost.
Context (P : Page) (Pl : Platform).

(** *** Equations of the monad *)

Lemma bind_log {A} message args (k : unit -> M P A) (w : World P) :
  bind P Pl (log P message args) k w =
  let (r, events) := k tt w in (r, ConsoleLog message args :: events).
Proof. reflexivity. Qed.

Lemma bind_gets {A B} (f : Dom P -> A) (k : A -> M P B) (w : World P) :
  bind P Pl (gets P f) k w = k (f (page P w)) w.
Proof.
  unfold bind, gets. cbn [advance fold_left].
  destruct (k (f (page P w)) w) as [r events]. reflexivity.
Qed.

Lemma bind_eq {A B} (m : M P A) (k : A -> M P B) (w : World P) :
  bind P Pl m k w =
  match m w with
  | (Ok a, events) =>
      let (r, events') := k a (advance P Pl w events) in (r, events ++ events')
  | (Throw e, events) => (Throw e, events)
  end.
Proof. reflexivity. Qed.

(** [checkForUploadedImage] reads the page and writes to the console. *)
Lemma checkForUploadedImage_eq (w : World P) :
  exists logs,
    checkForUploadedImage P Pl w = (Ok (Injection.uploaded P (page P w)), logs) /\
    forallb is_console logs = true.
Proof.
  unfold checkForUploadedImage, Injection.uploaded, bind, gets, log, emit, ret.
  cbn -[first_match].
  destruct (first_match P (page P w) imageIndicators) as [[selector el]|];
    eexists; split; reflexivity.
Qed.

Lemma type_chars_behaves el chars :
  behaves Pl (typing_on el) (fun r => r = Ok tt) (type_chars P Pl el chars).
Proof.
  induction chars as [|c chars IH]; intros w; cbn [type_chars].
  - sat_step. reflexivity.
  - do 6 sat_step. apply IH.
Qed.

Lemma simulateTyping_behaves el text :
  behaves Pl (typing_on el) (fun r => r = Ok tt) (simulateTyping P Pl el text).
Proof.
  intros w. unfold simulateTyping. do 2 sat_step. apply type_chars_behaves.
Qed.

Lemma type_chars_events el chars (w : World P) :
  type_chars P Pl el chars w =
  (Ok tt, flat_map (fun char => [ Act (ExecInsertText char);
                                  Act (DispatchInput el char);
                                  Act (Elapse 50) ]) chars).
Proof.
  revert w. induction chars as [|c chars IH]; intros w; [reflexivity|].
  cbn [type_chars flat_map]. unfold bind, act, delay, emit. cbn -[advance type_chars].
  rewrite IH. reflexivity.
Qed.

Lemma simulateTyping_events el text (w : World P) :
  simulateTyping P Pl el text w = (Ok tt, Mention.typing_events el text).
Proof.
  unfold simulateTyping, Mention.typing_events, bind, act, emit. cbn -[advance type_chars].
  rewrite type_chars_events. reflexivity.
Qed.

Lemma true_stable (e : Event) :
  stable_under (P := P) Pl (filter_step (fun _ => true)) e (fun _ _ => True).
Proof. intros [] w _. exists tt. auto. Qed.

Lemma waitForDropdown_behaves :
  behaves Pl waits_and_logs returns (waitForDropdown P Pl).
Proof.
  intros w. unfold waitForDropdown. do 2 sat_step.
  apply sat_dropdown_loop with (I := fun _ _ => True); auto.
  - intros message args [] w' _. exists tt. auto.
  - intros [] w' _. exists tt. auto.
  - intros b _ _ _. exists b. reflexivity.
Qed.

Lemma awaitHydration_behaves :
  behaves Pl waits_and_logs (fun r => r = Ok tt) (awaitHydration P Pl).
Proof.
  intros w. unfold awaitHydration. sat_run.
  destruct (readyState_complete P (page P w)); cbn [negb]; sat_run; reflexivity.
Qed.

Lemma waitForGeminiReady_behaves :
  behaves Pl waits_and_logs (fun _ => True) (waitForGeminiReady P Pl).
Proof.
  intros w. unfold waitForGeminiReady. sat_run.
  eapply sat_conseq; [apply awaitHydration_behaves|].
  intros r [] w1 ->. cbv beta iota.
  apply sat_readiness_loop with (I := fun _ _ => True); auto.
  - intros message args [] w' _. exists tt. auto.
  - intros [] w' _. exists tt. auto.
Qed.

Lemma checkForSynthIdTag_behaves el :
  behaves Pl is_console returns (checkForSynthIdTag P Pl el).
Proof. intros w. unfold checkForSynthIdTag. sat_run. eexists. reflexivity. Qed.

Lemma console_composing el e : is_console e = true -> composing_in el e = true.
Proof. unfold composing_in. by_cases_on_event e. Qed.

Lemma waits_composing el e : waits_and_logs e = true -> composing_in el e = true.
Proof. unfold composing_in, waits_and_logs. by_cases_on_event e. Qed.

Lemma typing_composing el e : typing_on el e = true -> composing_in el e = true.
Proof. unfold composing_in. intros ->. reflexivity. Qed.

Lemma typeSynthIDQuery_behaves el :
  behaves Pl (composing_in el) (fun r => r = Ok tt) (typeSynthIDQuery P Pl (Some el)).
Proof.
  assert (Htype : forall text,
             behaves Pl (composing_in el) (fun r => r = Ok tt) (simulateTyping P Pl el text)).
  { intros text. eapply behaves_weaken; [apply simulateTyping_behaves| |auto].
    apply typing_composing. }
  assert (Hdrop : behaves Pl (composing_in el) returns (waitForDropdown P Pl)).
  { eapply behaves_weaken; [apply waitForDropdown_behaves| |auto]. apply waits_composing. }
  assert (Htag : behaves Pl (composing_in el) returns (checkForSynthIdTag P Pl el)).
  { eapply behaves_weaken; [apply checkForSynthIdTag_behaves| |auto]. apply console_composing. }
  intros w. unfold typeSynthIDQuery. sat_run.
  eapply sat_conseq; [apply Htype|]. intros r [] w1 ->. cbv beta iota. sat_run.
  eapply sat_conseq; [apply Hdrop|]. intros r [] w2 [b ->]. cbv beta iota. sat_run.
  eapply sat_conseq; [apply Htype|]. intros r [] w3 ->. cbv beta iota. sat_run.
  eapply sat_conseq; [apply Hdrop|]. intros r [] w4 [b' ->]. cbv beta iota. sat_run.
  eapply sat_conseq; [apply Htag|]. intros r [] w5 [hasTag ->]. cbv beta iota. sat_run.
  destruct hasTag; cbn [negb]; sat_run.
  - eapply sat_conseq; [apply Htype|]. intros r [] w6 ->. cbv beta iota. sat_run. reflexivity.
  - eapply sat_conseq; [apply Htag|]. intros r [] w6 [hasTag ->]. cbv beta iota. sat_run.
    eapply sat_conseq; [apply Htype|]. intros r [] w7 ->. cbv beta iota. sat_run. reflexivity.
Qed.

Lemma checkForUploadedImage_behaves :
  behaves Pl is_console returns (checkForUploadedImage P Pl).
Proof.
  intros w. unfold checkForUploadedImage. sat_run.
  destruct (first_match P (page P w) imageIndicators) as [[sel el]|]; sat_run;
    eexists; reflexivity.
Qed.

Lemma findAddButton_behaves :
  behaves Pl is_console returns (findAddButton P Pl).
Proof.
  intros w. unfold findAddButton.
  apply sat_for_first with (I := fun _ _ => True); [|intros; eexists; reflexivity|exact I].
  intros selector [] w1 _ _. sat_run.
  apply sat_for_first with (I := fun _ _ => True); [|intros; exact I|exact I].
  intros btn [] w2 _ _. sat_run.
  destruct (_ && _); sat_run; [eexists; reflexivity | exact I].
Qed.

Lemma console_uploading e : is_console e = true -> uploading e = true.
Proof. by_cases_on_event e. Qed.

Lemma findAddButton_uploading :
  behaves Pl uploading returns (findAddButton P Pl).
Proof.
  eapply behaves_weaken; [apply findAddButton_behaves| |auto].
  apply console_uploading.
Qed.

Lemma uploading_check :
  behaves Pl uploading returns (checkForUploadedImage P Pl).
Proof.
  eapply behaves_weaken; [apply checkForUploadedImage_behaves| |auto].
  apply console_uploading.
Qed.

Lemma clickAddButton_behaves :
  behaves Pl uploading (fun r => r = Ok tt) (clickAddButton P Pl).
Proof.
  intros w. unfold clickAddButton. sat_run.
  eapply sat_conseq; [apply findAddButton_uploading|].
  intros r [] w1 [addButton ->]. cbv beta iota.
  destruct addButton; sat_run; reflexivity.
Qed.

(** The add-button step, by the outcome of the search. *)
Lemma clickAddButton_eq (w : World P) :
  clickAddButton P Pl w =
  match findAddButton P Pl w with
  | (Ok (Some addButton), logs) =>
      (Ok tt,
       ConsoleLog "Looking for add/upload button..." [] :: logs ++
       [ConsoleLog "Clicking add button..." []; Act (Click addButton); Act (Elapse 800)])
  | (Ok None, logs) => (Ok tt, ConsoleLog "Looking for add/upload button..." [] :: logs ++ [])
  | (Throw e, logs) => (Throw e, ConsoleLog "Looking for add/upload button..." [] :: logs)
  end.
Proof.
  unfold clickAddButton, bind, log, act, delay, emit, ret. cbn -[findAddButton].
  destruct (findAddButton P Pl w) as [[[addButton|]|e] logs]; reflexivity.
Qed.

Lemma uploadViaFileInput_behaves file :
  behaves Pl uploading returns (uploadViaFileInput P Pl file).
Proof.
  intros w. unfold uploadViaFileInput. sat_run.
  destruct (querySelector P (page P w) "input[type='file']"); sat_run;
    [|eexists; reflexivity].
  eapply sat_conseq; [apply uploading_check|]. intros r [] w1 [up ->]. cbv beta iota.
  destruct up; sat_run; eexists; reflexivity.
Qed.

Lemma uploadViaClipboard_behaves file :
  behaves Pl uploading returns (uploadViaClipboard P Pl file).
Proof.
  intros w. unfold uploadViaClipboard, pasteImageFromClipboard. sat_run.
  destruct (findInputArea P (page P w)); sat_run; [|eexists; reflexivity].
  eapply sat_conseq; [apply uploading_check|]. intros r [] w1 [up ->]. cbv beta iota.
  destruct up; sat_run; eexists; reflexivity.
Qed.

Lemma simulateDragDropUpload_behaves file :
  behaves Pl uploading (fun r => r = Ok tt) (simulateDragDropUpload P Pl file).
Proof.
  intros w. unfold simulateDragDropUpload. sat_run.
  apply sat_for_first with (I := fun _ _ => True); [| |exact I].
  - intros dropTarget [] w1 _ _. sat_run.
    eapply sat_conseq; [apply uploading_check|]. intros r [] w2 [up ->]. cbv beta iota.
    destruct up; sat_run; [reflexivity|exact I].
  - intros [] w1 _. sat_run. reflexivity.
Qed.

Lemma uploadViaDragDrop_behaves file :
  behaves Pl uploading (fun r => r = Ok tt) (uploadViaDragDrop P Pl file).
Proof.
  intros w. unfold uploadViaDragDrop. sat_run.
  eapply sat_conseq; [apply simulateDragDropUpload_behaves|]. intros r [] w1 ->.
  cbv beta iota. sat_run.
  eapply sat_conseq; [apply uploading_check|]. intros r [] w2 [up ->]. cbv beta iota.
  destruct up; sat_run; reflexivity.
Qed.

Lemma uploadImageToGemini_behaves imageBlob originalUrl :
  behaves Pl uploading (fun r => r = Ok tt) (uploadImageToGemini P Pl imageBlob originalUrl).
Proof.
  intros w. unfold uploadImageToGemini. cbv zeta. sat_run.
  eapply sat_conseq; [apply clickAddButton_behaves|]. intros r [] w1 ->.
  cbv beta iota. sat_run.
  eapply sat_conseq; [apply uploadViaFileInput_behaves|]. intros r [] w2 [returned ->].
  cbv beta iota. destruct returned; sat_run; [reflexivity|].
  eapply sat_conseq; [apply uploadViaClipboard_behaves|]. intros r [] w3 [returned ->].
  cbv beta iota. destruct returned; sat_run; [reflexivity|].
  apply uploadViaDragDrop_behaves.
Qed.

Lemma clickSendButton_behaves :
  behaves Pl pressing_send returns (clickSendButton P Pl).
Proof.
  intros w. unfold clickSendButton. sat_run.
  apply sat_for_first with (I := fun _ _ => True); [| |exact I].
  - intros btn [] w1 _ _. sat_run.
    destruct (_ && _); sat_run; [|exact I].
    destruct (looks_like_send P _ btn); sat_run; [eexists; reflexivity|exact I].
  - intros [] w1 _. sat_run.
    destruct (querySelector P (page P w1) _); sat_run; [eexists; reflexivity|].
    destruct (findInputArea P (page P w1)); sat_run.
    + destruct (rightmost_near P _ _ _); sat_run; eexists; reflexivity.
    + eexists; reflexivity.
Qed.

Lemma tryBackgroundFetch_behaves url :
  behaves Pl fetching returns (tryBackgroundFetch P Pl url).
Proof.
  intros w. unfold tryBackgroundFetch, fetchImageViaBackground. sat_run.
  destruct (lastError Pl (FETCH_IMAGE url)) as [e|]; sat_run; [eexists; reflexivity|].
  cbn [Background.onMessage fst].
  destruct (Background.fetchImageAsDataUrl Pl url) as [dataUrl|e]; sat_run;
    [|eexists; reflexivity].
  destruct (page_fetch Pl DefaultInit dataUrl) as [e|ok status text blob]; sat_run;
    eexists; reflexivity.
Qed.

Lemma tryDirectFetch_behaves url :
  behaves Pl fetching returns (tryDirectFetch P Pl url).
Proof.
  intros w. unfold tryDirectFetch. sat_run.
  destruct (page_fetch Pl CorsOmitCredentials url) as [e|ok status text blob]; sat_run;
    [eexists; reflexivity|].
  destruct ok; cbn [negb]; sat_run; eexists; reflexivity.
Qed.

Lemma fetchImage_behaves url :
  behaves Pl fetching (fun _ => True) (fetchImage P Pl url).
Proof.
  intros w. unfold fetchImage. sat_run.
  eapply sat_conseq; [apply tryBackgroundFetch_behaves|]. intros r [] w1 [viaBackground ->].
  cbv beta iota. destruct viaBackground; sat_run; [exact I|].
  eapply sat_conseq; [apply tryDirectFetch_behaves|]. intros r [] w2 [direct ->].
  cbv beta iota. destruct direct; sat_run; exact I.
Qed.

End WithHost.
End ProcedureFacts.

(** ** The mention commit *)
Module MentionFacts.
Import Content Monitor Events MonitorFacts ProcedureFacts Mention.
Section WithHost.
Context (P : Page) (Pl : Platform).

Lemma settled_stable el k v e :
  typing_on el e = true -> stable_under Pl (mention_step P el) e (settled P k v).
Proof.
  intros He. unfold stable_under, settled.
  intros s w H. destruct s as [d n a fv]. destruct H as (Hd & Hk & Hv & Ha).
  simpl in *; subst.
  destruct e as [act| | | |]; [destruct act|..]; try discriminate; simpl;
    eexists; (split; [reflexivity|]); repeat split; simpl; auto.
  destruct v; [reflexivity|]. rewrite Ha; reflexivity.
Qed.

Lemma waits_typing el e : waits_and_logs e = true -> typing_on el e = true.
Proof. unfold waits_and_logs. by_cases_on_event e. Qed.

Lemma sat_simulateTyping el text k v w s Q :
  settled P k v s w ->
  (forall s' w', settled P k v s' w' -> Q (Ok tt) s' w') ->
  sat Pl (mention_step P el) (simulateTyping P Pl el text) w s Q.
Proof.
  intros Hs HQ.
  eapply sat_transfer with (I := settled P k v);
    [apply simulateTyping_behaves | apply settled_stable | exact Hs |].
  intros s' w' -> H. auto.
Qed.

Lemma sat_waitForDropdown el k v w s Q :
  settled P k v s w ->
  (forall b s' w', settled P k v s' w' -> Q (Ok b) s' w') ->
  sat Pl (mention_step P el) (waitForDropdown P Pl) w s Q.
Proof.
  intros Hs HQ.
  eapply sat_transfer with (I := settled P k v);
    [apply waitForDropdown_behaves | | exact Hs |].
  - intros e He. apply (settled_stable el), waits_typing, He.
  - intros s' w' [b ->] H. auto.
Qed.

Lemma sat_checkForSynthIdTag el w s Q :
  Q (Ok (has_synthid_tag P (page P w) el)) s w ->
  sat Pl (mention_step P el) (checkForSynthIdTag P Pl el) w s Q.
Proof.
  intros H. unfold checkForSynthIdTag. sat_run. exact H.
Qed.

Ltac unpack_settled H :=
  match type of H with
  | settled _ _ _ ?s _ =>
      destruct s as [? ? ? ?];
      let Hd := fresh in let Hk := fresh in let Hv := fresh in let Ha := fresh in
      destruct H as (Hd & Hk & Hv & Ha); simpl in Hd, Hk, Hv, Ha;
      try (specialize (Ha eq_refl)); subst
  end.

Lemma mention_commit_observed (inputArea : Element) (w : World P) :
  sat Pl (mention_step P inputArea) (typeSynthIDQuery P Pl (Some inputArea)) w
    (mention_start P (page P w))
    (fun r s _ => r = Ok tt /\ exists v, first_verdict P s = Some v /\
                  tabs P s = (if v then 1 else 2)%nat).
Proof.
  unfold typeSynthIDQuery. sat_run.
  eapply sat_simulateTyping with (k := 0%nat) (v := None); [repeat split; auto|].
  intros s1 w1 H1. cbv beta iota. sat_run.
  eapply sat_waitForDropdown; [exact H1|]. clear s1 w1 H1.
  intros _ s1 w1 H1. cbv beta iota. sat_run.
  eapply sat_simulateTyping; [exact H1|]. clear s1 w1 H1.
  intros s1 w1 H1. unpack_settled H1. sat_run.
  eapply sat_waitForDropdown with (k := 0%nat) (v := None); [repeat split; auto|].
  intros _ s2 w2 H2. unpack_settled H2. sat_run.
  apply sat_checkForSynthIdTag. sat_run.
  destruct (has_synthid_tag P _ inputArea) eqn:Htag; cbn [negb]; sat_run.
  - eapply sat_simulateTyping with (k := 1%nat) (v := Some true);
      [repeat split; auto; discriminate|].
    intros s3 w3 H3. unpack_settled H3. sat_run.
    split; [reflexivity|]. exists true. auto.
  - apply sat_checkForSynthIdTag. sat_run.
    eapply sat_simulateTyping with (k := 2%nat) (v := Some false);
      [repeat split; auto; discriminate|].
    intros s3 w3 H3. unpack_settled H3. sat_run.
    split; [reflexivity|]. exists false. auto.
Qed.

Lemma sat_record_typing el text (w : World P) s Q :
  (forall w', Q (Ok tt) (s ++ typing_events el text) w') ->
  sat Pl record_step (simulateTyping P Pl el text) w s Q.
Proof.
  intros HQ. apply sat_record. rewrite simulateTyping_events. apply HQ.
Qed.

Lemma question_typed_last (inputArea : Element) (w : World P) :
  exists before,
    snd (typeSynthIDQuery P Pl (Some inputArea) w) =
    before ++ typing_events inputArea QUESTION ++
    [ConsoleLog "Step 7: Typed question" []; ConsoleLog "=== FINISHED ===" []].
Proof.
  apply (sat_record_inv Pl (typeSynthIDQuery P Pl (Some inputArea)) w
           (fun _ s _ => exists before, s = before ++ typing_events inputArea QUESTION ++ _)).
  unfold typeSynthIDQuery. sat_run.
  apply sat_record_typing. intros w1. sat_run.
  eapply sat_record_call; [apply waitForDropdown_behaves|].
  intros r e2 w2 [b ->] _. cbv beta iota. sat_run.
  apply sat_record_typing. intros w3. sat_run.
  eapply sat_record_call; [apply waitForDropdown_behaves|].
  intros r e4 w4 [b' ->] _. cbv beta iota. sat_run.
  eapply sat_record_call; [apply checkForSynthIdTag_behaves|].
  intros r e5 w5 [hasTag ->] _. cbv beta iota. sat_run.
  destruct hasTag; cbn [negb]; sat_run.
  - apply sat_record_typing. intros w6. sat_run.
    do 2 rewrite <- app_assoc. eexists. reflexivity.
  - eapply sat_record_call; [apply checkForSynthIdTag_behaves|].
    intros r e6 w6 [hasTag ->] _. cbv beta iota. sat_run.
    apply sat_record_typing. intros w7. sat_run.
    do 2 rewrite <- app_assoc. eexists. reflexivity.
Qed.

(** C6.  Composing the query in [inputArea] never fails.  Reading its
    events with the mention observer: a first Tab key-down is sent, and
    the tag check on the page as it is when the settle after that Tab ends
    gives a verdict; the run sends exactly one Tab when the verdict is
    positive and exactly two when it is negative, never more.  Either way
    the run ends by typing the question. *)
Theorem mention_commit_retries_once (inputArea : Element) (w : World P) :
  let run := typeSynthIDQuery P Pl (Some inputArea) w in
  fst run = Ok tt /\
  (exists obs verdict,
     mrun (mention_step P inputArea) (mention_start P (page P w)) (snd run) = Some obs /\
     first_verdict P obs = Some verdict /\
     tabs P obs = (if verdict then 1 else 2)%nat) /\
  (exists before,
     snd run = before ++ typing_events inputArea QUESTION ++
               [ConsoleLog "Step 7: Typed question" []; ConsoleLog "=== FINISHED ===" []]).
Proof.
  cbv zeta.
  destruct (mention_commit_observed inputArea w) as (obs & H1 & H2 & v & H3 & H4).
  split; [exact H2|]. split; [exists obs, v; auto|].
  apply question_typed_last.
Qed.

End WithHost.
End MentionFacts.

(** ** The injection stage *)
Module InjectionFacts.
Import Content Monitor Events MonitorFacts ProcedureFacts Injection.
Section WithHost.
Context (P : Page) (Pl : Platform).

Lemma sat_console_only {A} (m : M P A) R w s Q :
  behaves Pl is_console R m ->
  (forall r s', R r -> unmoved P s s' -> Q r s' w) ->
  sat Pl (injection_step P) m w s Q.
Proof.
  intros Hm HQ.
  destruct (proj1 (behaves_spec _ _ _ _) Hm w) as [Hall HR].
  unfold sat. rewrite (advance_console _ _ _ Hall).
  cut (exists s', mrun (injection_step P) s (snd (m w)) = Some s' /\ unmoved P s s').
  { intros (s' & H1 & H2). exists s'. auto. }
  clear HR HQ. revert s. induction (snd (m w)) as [|e events IH]; intros s; simpl in *.
  - exists s. repeat split.
  - apply andb_true_iff in Hall as [He Hall]. destruct e; try discriminate. simpl.
    destruct (IH Hall {| at_page := at_page P s; reached := reached P s; due := due P s;
                         confirmed := confirmed P s;
                         warned := String.eqb message UPLOAD_WARNING |})
      as (s' & H1 & H2).
    exists s'. split; [exact H1|exact H2].
Qed.

Lemma sat_checkForUploadedImage w s Q :
  (forall s', unmoved P s s' -> Q (Ok (uploaded P (page P w))) s' w) ->
  sat Pl (injection_step P) (checkForUploadedImage P Pl) w s Q.
Proof.
  intros HQ. unfold checkForUploadedImage, uploaded in *. sat_run.
  destruct (first_match P (page P w) imageIndicators) as [[sel el]|]; sat_run;
    apply HQ; repeat split.
Qed.

Ltac unpack_unmoved H :=
  match type of H with
  | unmoved _ _ ?s =>
      destruct s as [? ? ? ? ?];
      let H2 := fresh in let H3 := fresh in
      let H4 := fresh in let H5 := fresh in
      destruct H as (H2 & H3 & H4 & H5);
      simpl in H2, H3, H4, H5; subst
  end.

Ltac unpack_tracking H :=
  match type of H with
  | tracking _ _ ?s _ =>
      destruct s as [? ? ? ? ?];
      let H1 := fresh "Hpage" in let H2 := fresh "Hrank" in
      let H3 := fresh in let H4 := fresh in
      destruct H as (H1 & H2 & H3 & H4);
      simpl in H1, H2, H3, H4;
      let Hle := fresh "Hle" in
      pose proof (proj2 (Nat.leb_le _ _) H2) as Hle;
      subst
  end.

Lemma tracking_weaken k k' s w :
  (k <= k')%nat -> tracking P k s w -> tracking P k' s w.
Proof. intros Hk (H1 & H2 & H3 & H4). repeat split; auto. lia. Qed.

Lemma sat_clickAddButton w s Q :
  tracking P 0 s w ->
  (forall s' w', tracking P 0 s' w' -> Q (Ok tt) s' w') ->
  sat Pl (injection_step P) (clickAddButton P Pl) w s Q.
Proof.
  intros Hs HQ. unpack_tracking Hs. unfold clickAddButton. sat_run.
  eapply sat_console_only; [apply findAddButton_behaves|].
  intros r s1 [addButton ->] H1. unpack_unmoved H1.
  destruct addButton; sat_run; apply HQ; repeat split; simpl; auto.
Qed.

Lemma sat_uploadViaFileInput file w s Q :
  tracking P 0 s w ->
  (forall s' w', due P s' = None -> confirmed P s' = true -> Q (Ok true) s' w') ->
  (forall s' w', tracking P 0 s' w' -> Q (Ok false) s' w') ->
  sat Pl (injection_step P) (uploadViaFileInput P Pl file) w s Q.
Proof.
  intros Hs Hyes Hno. unpack_tracking Hs. unfold uploadViaFileInput. sat_run.
  destruct (querySelector P (page P w) "input[type='file']") as [fileInput|]; sat_run.
  2: { apply Hno. repeat split; simpl; auto. }
  match goal with H : (?r <= 0)%nat |- _ => assert (r = 0%nat) as -> by lia end.
  sat_run.
  apply sat_checkForUploadedImage. intros s1 H1. unpack_unmoved H1.
  destruct (uploaded P _) eqn:Hup; sat_run.
  - apply Hyes; simpl; rewrite ?Hup; auto.
  - apply Hno. repeat split; simpl; rewrite ?Hup; auto.
Qed.

Lemma sat_uploadViaClipboard file w s Q :
  tracking P 1 s w ->
  (forall s' w', due P s' = None -> confirmed P s' = true -> Q (Ok true) s' w') ->
  (forall s' w', tracking P 1 s' w' -> Q (Ok false) s' w') ->
  sat Pl (injection_step P) (uploadViaClipboard P Pl file) w s Q.
Proof.
  intros Hs Hyes Hno. unpack_tracking Hs.
  unfold uploadViaClipboard, pasteImageFromClipboard. sat_run.
  destruct (findInputArea P (page P w)) as [inputArea|]; sat_run.
  2: { apply Hno. repeat split; simpl; auto. }
  apply sat_checkForUploadedImage. intros s1 H1. unpack_unmoved H1.
  destruct (uploaded P _) eqn:Hup; sat_run.
  - apply Hyes; simpl; rewrite ?Hup; auto.
  - apply Hno. repeat split; simpl; rewrite ?Hup; auto.
Qed.

Lemma sat_simulateDragDropUpload file w s Q :
  tracking P 2 s w ->
  (forall s' w', due P s' = None -> (reached P s' <= 2)%nat ->
                 at_page P s' = page P w' -> Q (Ok tt) s' w') ->
  sat Pl (injection_step P) (simulateDragDropUpload P Pl file) w s Q.
Proof.
  intros Hs HQ. unpack_tracking Hs. unfold simulateDragDropUpload. sat_run.
  apply sat_for_first with (I := tracking P 2).
  - intros dropTarget s1 w1 _ H1. unpack_tracking H1. sat_run.
    apply sat_checkForUploadedImage. intros s2 H2. unpack_unmoved H2.
    destruct (uploaded P _) eqn:Hup; sat_run.
    + apply HQ; simpl; auto.
    + repeat split; simpl; rewrite ?Hup; auto.
  - intros s1 w1 H1. unpack_tracking H1. sat_run. apply HQ; simpl; auto.
  - repeat split; simpl; auto.
Qed.

Lemma sat_uploadViaDragDrop file w s Q :
  tracking P 2 s w ->
  (forall s' w', concluded P s' -> Q (Ok tt) s' w') ->
  sat Pl (injection_step P) (uploadViaDragDrop P Pl file) w s Q.
Proof.
  intros Hs HQ. unfold uploadViaDragDrop. sat_run.
  apply sat_simulateDragDropUpload.
  { unpack_tracking Hs. repeat split; simpl; auto. }
  intros [d k t c wn] w1 Hdue Hk Hpage. simpl in *. subst. sat_run.
  apply sat_checkForUploadedImage. intros s2 H2. unpack_unmoved H2.
  destruct (uploaded P _) eqn:Hup; cbn [page] in Hup;
    sat_run; apply HQ; split; simpl; auto.
  rewrite orb_true_r. discriminate.
Qed.

(** *** The stage against its plan *)

Lemma deeds_app (l1 l2 : list Event) : deeds (l1 ++ l2) = deeds l1 ++ deeds l2.
Proof. apply omap_app. Qed.

Lemma deeds_console (l : list Event) : forallb is_console l = true -> deeds l = [].
Proof.
  induction l as [|e l IH]; [reflexivity|].
  cbn [forallb]. intros [He Hl]%andb_true_iff.
  destruct e; try discriminate He. cbn [deeds omap list_omap]. apply IH, Hl.
Qed.

Lemma page_after_app (d : Dom P) l1 l2 :
  page_after P d (l1 ++ l2) = page_after P (page_after P d l1) l2.
Proof. apply fold_left_app. Qed.

Lemma page_advance (events : list Event) : forall w : World P,
  page P (advance P Pl w events) = page_after P (page P w) (deeds events).
Proof.
  induction events as [|e events IH]; intros w; [reflexivity|].
  cbn [advance fold_left]. fold (advance P Pl (apply_event P Pl e w) events).
  rewrite IH. destruct e as [a| | |m|]; cbn [deeds omap list_omap apply_event page];
    try reflexivity.
  destruct (lastError Pl m); reflexivity.
Qed.

(** What a strategy with a settle of 2000 ms amounts to on page [d]. *)
Lemma uploadViaFileInput_plan file (w : World P) :
  let tried :=
    match file_input_injection P file (page P w) with
    | [] => ([], false)
    | actions => attempt P actions 2000 (page P w)
    end in
  let run := uploadViaFileInput P Pl file w in
  fst run = Ok (snd tried) /\
  deeds (snd run) = fst tried /\
  (snd tried = true -> last (snd run) = Some (ConsoleLog "Image upload confirmed!" [])).
Proof.
  cbv zeta.
  apply (sat_record_inv Pl (uploadViaFileInput P Pl file) w
           (fun r s _ =>
              r = Ok (snd match file_input_injection P file (page P w) with
                          | [] => ([], false)
                          | actions => attempt P actions 2000 (page P w)
                          end) /\
              deeds s = fst match file_input_injection P file (page P w) with
                            | [] => ([], false)
                            | actions => attempt P actions 2000 (page P w)
                            end /\
              (snd match file_input_injection P file (page P w) with
                   | [] => ([], false)
                   | actions => attempt P actions 2000 (page P w)
                   end = true ->
               last s = Some (ConsoleLog "Image upload confirmed!" [])))).
  unfold uploadViaFileInput, file_input_injection. sat_run.
  destruct (querySelector P (page P w) "input[type='file']") as [fileInput|]; sat_run.
  2: { repeat split. discriminate. }
  match goal with |- sat _ _ _ ?w1 _ _ => set (w1' := w1) end.
  apply sat_record.
  destruct (checkForUploadedImage_eq P Pl w1') as (logs & -> & Hlogs).
  cbn [fst snd]. rewrite (advance_console Pl _ _ Hlogs).
  pose proof (deeds_console _ Hlogs) as Hquiet.
  unfold attempt. cbn [fst snd app].
  change (page_after P (page P w) _) with (page P w1').
  destruct (uploaded P (page P w1')); sat_run.
  - split; [reflexivity|]. split.
    + rewrite !deeds_app. cbn [app]. unfold deeds in *. cbn [omap list_omap].
      rewrite Hquiet. reflexivity.
    + intros _. apply last_snoc.
  - split; [reflexivity|]. split; [|discriminate].
    rewrite !deeds_app. cbn [app]. unfold deeds in *. cbn [omap list_omap].
    rewrite Hquiet. reflexivity.
Qed.

Lemma uploadViaClipboard_plan file (w : World P) :
  let tried :=
    match clipboard_injection P file (page P w) with
    | [] => ([], false)
    | actions => attempt P actions 2000 (page P w)
    end in
  let run := uploadViaClipboard P Pl file w in
  fst run = Ok (snd tried) /\
  deeds (snd run) = fst tried /\
  (snd tried = true ->
   last (snd run) = Some (ConsoleLog "Image upload via clipboard confirmed!" [])).
Proof.
  cbv zeta.
  apply (sat_record_inv Pl (uploadViaClipboard P Pl file) w
           (fun r s _ =>
              r = Ok (snd match clipboard_injection P file (page P w) with
                          | [] => ([], false)
                          | actions => attempt P actions 2000 (page P w)
                          end) /\
              deeds s = fst match clipboard_injection P file (page P w) with
                            | [] => ([], false)
                            | actions => attempt P actions 2000 (page P w)
                            end /\
              (snd match clipboard_injection P file (page P w) with
                   | [] => ([], false)
                   | actions => attempt P actions 2000 (page P w)
                   end = true ->
               last s = Some (ConsoleLog "Image upload via clipboard confirmed!" [])))).
  unfold uploadViaClipboard, pasteImageFromClipboard, clipboard_injection. sat_run.
  destruct (findInputArea P (page P w)) as [inputArea|]; sat_run.
  2: { repeat split. discriminate. }
  match goal with |- sat _ _ _ ?w1 _ _ => set (w1' := w1) end.
  apply sat_record.
  destruct (checkForUploadedImage_eq P Pl w1') as (logs & -> & Hlogs).
  cbn [fst snd]. rewrite (advance_console Pl _ _ Hlogs).
  pose proof (deeds_console _ Hlogs) as Hquiet.
  unfold attempt. cbn [fst snd app].
  change (page_after P (page P w) _) with (page P w1').
  destruct (uploaded P (page P w1')); sat_run.
  - split; [reflexivity|]. split.
    + rewrite !deeds_app. cbn [app]. unfold deeds in *. cbn [omap list_omap].
      rewrite Hquiet. reflexivity.
    + intros _. apply last_snoc.
  - split; [reflexivity|]. split; [|discriminate].
    unfold deeds in *. cbn [omap list_omap]. rewrite ?omap_app, Hquiet. reflexivity.
Qed.

(** One drop target: the three drag events with their settles, and the
    check. *)
Lemma drag_attempt_plan file (body : Element -> M P (option unit)) dropTarget (w : World P) :
  body = (fun dropTarget =>
            bind P Pl (log P "Trying drag-drop on:" [AElem dropTarget]) (fun _ =>
            bind P Pl (act P (DispatchDrag dropTarget "dragenter" file)) (fun _ =>
            bind P Pl (delay P 100) (fun _ =>
            bind P Pl (act P (DispatchDrag dropTarget "dragover" file)) (fun _ =>
            bind P Pl (delay P 100) (fun _ =>
            bind P Pl (act P (DispatchDrag dropTarget "drop" file)) (fun _ =>
            bind P Pl (delay P 500) (fun _ =>
            bind P Pl (checkForUploadedImage P Pl) (fun uploaded =>
            if uploaded
            then bind P Pl (log P "Drag-drop successful on:" [AElem dropTarget])
                   (fun _ => ret P (Some tt))
            else ret P None))))))))) ->
  let tried := attempt P (drag_injection file dropTarget) 500 (page P w) in
  let run := body dropTarget w in
  fst run = Ok (if snd tried then Some tt else None) /\
  deeds (snd run) = fst tried.
Proof.
  intros ->. cbv zeta.
  match goal with
  | |- fst (?m w) = _ /\ _ =>
      apply (sat_record_inv Pl m w
               (fun r s _ =>
                  r = Ok (if snd (attempt P (drag_injection file dropTarget) 500 (page P w))
                          then Some tt else None) /\
                  deeds s = fst (attempt P (drag_injection file dropTarget) 500 (page P w))))
  end.
  sat_run.
  match goal with |- sat _ _ _ ?w1 _ _ => set (w1' := w1) end.
  apply sat_record.
  destruct (checkForUploadedImage_eq P Pl w1') as (logs & -> & Hlogs).
  cbn [fst snd]. rewrite (advance_console Pl _ _ Hlogs).
  pose proof (deeds_console _ Hlogs) as Hquiet.
  unfold attempt, drag_injection. cbn [fst snd app].
  change (page_after P (page P w) _) with (page P w1').
  destruct (uploaded P (page P w1')); sat_run.
  - split; [reflexivity|].
    rewrite !deeds_app. cbn [app]. unfold deeds in *. cbn [omap list_omap].
    rewrite Hquiet. reflexivity.
  - split; [reflexivity|].
    unfold deeds in *. cbn [omap list_omap]. rewrite Hquiet. reflexivity.
Qed.

(** The loop over the drop targets. *)
Lemma drag_attempts_plan file (body : Element -> M P (option unit)) targets :
  (forall dropTarget w,
     let tried := attempt P (drag_injection file dropTarget) 500 (page P w) in
     let run := body dropTarget w in
     fst run = Ok (if snd tried then Some tt else None) /\
     deeds (snd run) = fst tried) ->
  forall w : World P,
  let plan := drag_plan P file targets (page P w) in
  let run := for_first P Pl targets body w in
  fst run = Ok (if snd plan then Some tt else None) /\
  deeds (snd run) = fst plan.
Proof.
  intros Hbody. induction targets as [|t targets IH]; intros w; cbv zeta.
  - split; reflexivity.
  - cbn [for_first drag_plan]. rewrite bind_eq.
    destruct (Hbody t w) as [Hr Hd]. cbv zeta in *.
    destruct (body t w) as [r events]. cbn [fst snd] in *. subst r.
    unfold or_else.
    destruct (attempt P (drag_injection file t) 500 (page P w)) as [done found].
    cbn [fst snd] in *.
    destruct found.
    + unfold ret. cbn [fst snd]. rewrite app_nil_r. split; [reflexivity | exact Hd].
    + destruct (IH (advance P Pl w events)) as [Hr' Hd']. cbv zeta in *.
      rewrite page_advance, Hd in Hr', Hd'.
      destruct (for_first P Pl targets body (advance P Pl w events)) as [r' events'].
      destruct (drag_plan P file targets (page_after P (page P w) done)) as [more later].
      cbn [fst snd] in *. split; [exact Hr'|]. rewrite deeds_app, Hd, Hd'. reflexivity.
Qed.

Lemma simulateDragDropUpload_plan file (w : World P) :
  let run := simulateDragDropUpload P Pl file w in
  fst run = Ok tt /\
  deeds (snd run) = fst (drag_plan P file (dropTargets P (page P w)) (page P w)).
Proof.
  cbv zeta. unfold simulateDragDropUpload.
  rewrite bind_gets; cbv beta. rewrite bind_log; cbv beta.
  match goal with
  | |- context [bind P Pl (for_first P Pl ?l ?body) ?k w] =>
      rewrite (bind_eq P Pl (for_first P Pl l body) k w);
      destruct (drag_attempts_plan file body l
                  (fun dropTarget w0 => drag_attempt_plan file body dropTarget w0 eq_refl) w)
        as [Hr Hd]
  end.
  cbv zeta in *.
  destruct (for_first P Pl _ _ w) as [r events]. cbn [fst snd] in *. subst r.
  destruct (snd (drag_plan P file _ _)).
  - unfold ret. cbn [fst snd]. rewrite app_nil_r. split; [reflexivity|].
    unfold deeds in *. cbn [omap list_omap]. exact Hd.
  - unfold log, emit. cbn [fst snd]. split; [reflexivity|].
    unfold deeds in *. cbn [omap list_omap]. rewrite omap_app, Hd. cbn. apply app_nil_r.
Qed.

Lemma uploadViaDragDrop_plan file (w : World P) :
  let tried :=
    attempt P (fst (drag_plan P file (dropTargets P (page P w)) (page P w))) 2000 (page P w) in
  let run := uploadViaDragDrop P Pl file w in
  fst run = Ok tt /\
  deeds (snd run) = fst tried /\
  last (snd run) =
    Some (ConsoleLog (if snd tried then "Image upload via drag-drop confirmed!"
                      else UPLOAD_WARNING) []).
Proof.
  cbv zeta.
  apply (sat_record_inv Pl (uploadViaDragDrop P Pl file) w
           (fun r s _ =>
              r = Ok tt /\
              deeds s =
                fst (attempt P (fst (drag_plan P file (dropTargets P (page P w)) (page P w)))
                       2000 (page P w)) /\
              last s =
                Some (ConsoleLog
                        (if snd (attempt P
                                   (fst (drag_plan P file (dropTargets P (page P w)) (page P w)))
                                   2000 (page P w))
                         then "Image upload via drag-drop confirmed!"
                         else UPLOAD_WARNING) []))).
  unfold uploadViaDragDrop. sat_run.
  apply sat_record.
  destruct (simulateDragDropUpload_plan file w) as [Hr Hd]. cbv zeta in *.
  destruct (simulateDragDropUpload P Pl file w) as [r events]. cbn [fst snd] in *. subst r.
  sat_run.
  match goal with |- sat _ _ _ ?w1 _ _ => set (w1' := w1) end.
  apply sat_record.
  destruct (checkForUploadedImage_eq P Pl w1') as (logs & -> & Hlogs).
  cbn [fst snd]. rewrite (advance_console Pl _ _ Hlogs).
  pose proof (deeds_console _ Hlogs) as Hquiet.
  assert (Hpage : page P w1' =
                  page_after P (page P w)
                    (fst (drag_plan P file (dropTargets P (page P w)) (page P w)) ++
                     [Elapse 2000])).
  { unfold w1'. cbn [apply_event page]. rewrite page_advance, Hd, page_after_app. reflexivity. }
  unfold attempt. cbn [fst snd]. rewrite <- Hpage.
  destruct (uploaded P (page P w1')); sat_run.
  - split; [reflexivity|]. split; [|apply last_snoc].
    rewrite !deeds_app, Hd, Hquiet. cbn. rewrite !app_nil_r. reflexivity.
  - split; [reflexivity|]. split; [|apply last_snoc].
    rewrite !deeds_app, Hd, Hquiet. cbn. rewrite !app_nil_r. reflexivity.
Qed.

(** The add-button step injects nothing: it clicks the button and waits,
    or does nothing to the page. *)
Lemma clickAddButton_deeds (w : World P) :
  fst (clickAddButton P Pl w) = Ok tt /\
  (deeds (snd (clickAddButton P Pl w)) = [] \/
   exists addButton, deeds (snd (clickAddButton P Pl w)) = [Click addButton; Elapse 800]).
Proof.
  rewrite clickAddButton_eq.
  pose proof (behaves_result Pl _ _ _ w (findAddButton_behaves P Pl)) as [found Hr].
  pose proof (behaves_events Pl _ _ _ w (findAddButton_behaves P Pl)) as Hlogs.
  destruct (findAddButton P Pl w) as [r logs]. cbn [fst snd] in *. subst r.
  pose proof (deeds_console _ Hlogs) as Hquiet.
  destruct found as [addButton|]; cbn [fst snd]; (split; [reflexivity|]).
  - right. exists addButton. unfold deeds in *. cbn [omap list_omap].
    rewrite omap_app, Hquiet. reflexivity.
  - left. unfold deeds in *. cbn [omap list_omap]. rewrite omap_app, Hquiet. reflexivity.
Qed.

Lemma last_of_run {A} (first : A) (before after : list A) (x : A) :
  last after = Some x -> last (first :: before ++ after) = Some x.
Proof.
  intros H. rewrite app_comm_cons, last_app, H. reflexivity.
Qed.

Lemma stage_follows_plan (imageBlob : Blob) (originalUrl : string) (w : World P) :
  let run := uploadImageToGemini P Pl imageBlob originalUrl w in
  let file := makeFile Pl imageBlob originalUrl in
  let first := snd (clickAddButton P Pl w) in
  let plan := stage_plan P file (page P (advance P Pl w first)) in
  deeds (snd run) = deeds first ++ fst plan /\
  (last (snd run) = Some (ConsoleLog UPLOAD_WARNING []) <-> snd plan = false).
Proof.
  cbv zeta. unfold uploadImageToGemini. cbv zeta.
  set (file := makeFile Pl imageBlob originalUrl).
  rewrite bind_log; cbv beta. rewrite bind_eq.
  destruct (clickAddButton_deeds w) as [Hadd _].
  destruct (clickAddButton P Pl w) as [r first]. cbn [fst snd] in *. subst r.
  set (w1 := advance P Pl w first).
  rewrite bind_eq.
  destruct (uploadViaFileInput_plan file w1) as (Hr1 & Hd1 & Hl1). cbv zeta in *.
  destruct (uploadViaFileInput P Pl file w1) as [r1 events1]. cbn [fst snd] in *. subst r1.
  unfold stage_plan. unfold strategy at 1 3.
  assert (Hpage1 : page P (advance P Pl w1 events1) =
                   page_after P (page P w1) (deeds events1)) by apply page_advance.
  set (w2 := advance P Pl w1 events1) in *.
  rename Hpage1 into Hw2.
  (* the clipboard and the drag-and-drop, from the world the file input leaves *)
  assert (Hrest :
    let rest :=
      bind P Pl (uploadViaClipboard P Pl file) (fun returned =>
        if returned then ret P tt else uploadViaDragDrop P Pl file) w2 in
    let plan :=
      strategy P (clipboard_injection P file)
        (fun d => attempt P (fst (drag_plan P file (dropTargets P d) d)) 2000 d)
        (page P w2) in
    deeds (snd rest) = fst plan /\
    (exists x, last (snd rest) = Some x /\
               (x = ConsoleLog UPLOAD_WARNING [] <-> snd plan = false))).
  { cbv zeta. rewrite bind_eq.
    destruct (uploadViaClipboard_plan file w2) as (Hr2 & Hd2 & Hl2). cbv zeta in *.
    destruct (uploadViaClipboard P Pl file w2) as [r2 events2]. cbn [fst snd] in *. subst r2.
    assert (Hw3 : page P (advance P Pl w2 events2) =
                  page_after P (page P w2) (deeds events2)) by apply page_advance.
    set (w3 := advance P Pl w2 events2) in *.
    destruct (uploadViaDragDrop_plan file w3) as (Hr3 & Hd3 & Hl3). cbv zeta in *.
    unfold strategy.
    destruct (clipboard_injection P file (page P w2)) as [|a actions].
    - cbn [fst snd] in *.
      destruct (uploadViaDragDrop P Pl file w3) as [r3 events3]. cbn [fst snd] in *. subst r3.
      rewrite Hd2 in Hw3. cbn [page_after fold_left] in Hw3.
      rewrite Hw3 in Hd3, Hl3. rewrite deeds_app, Hd2, Hd3. split; [reflexivity|].
      eexists. split; [rewrite last_app, Hl3; reflexivity|].
      destruct (snd (attempt P _ 2000 (page P w2))); split; (discriminate || reflexivity).
    - unfold or_else.
      destruct (attempt P (a :: actions) 2000 (page P w2)) as [done found].
      cbn [fst snd] in *. destruct found.
      + unfold ret. cbn [fst snd]. rewrite app_nil_r. split; [exact Hd2|].
        eexists. split; [apply Hl2; reflexivity|]. split; discriminate.
      + destruct (uploadViaDragDrop P Pl file w3) as [r3 events3].
        cbn [fst snd] in *. subst r3.
        rewrite Hd2 in Hw3. rewrite Hw3 in Hd3, Hl3.
        destruct (attempt P _ 2000 (page_after P (page P w2) done)) as [more later].
        cbn [fst snd] in *. rewrite deeds_app, Hd2, Hd3. split; [reflexivity|].
        eexists. split; [rewrite last_app, Hl3; reflexivity|].
        destruct later; split; (discriminate || reflexivity). }
  cbv zeta in Hrest.
  destruct (file_input_injection P file (page P w1)) as [|a actions].
  - cbn [fst snd] in *. rewrite Hd1 in Hw2. cbn [page_after fold_left] in Hw2.
    rewrite Hw2 in Hrest. destruct Hrest as (Hd & x & Hlast & Hx).
    destruct (bind P Pl (uploadViaClipboard P Pl file) _ w2) as [r rest].
    cbn [fst snd] in *. split.
    + unfold deeds in *. cbn [omap list_omap]. rewrite !omap_app, Hd1, Hd. reflexivity.
    + rewrite (last_of_run _ first (events1 ++ rest) x).
      * split; [intros [= ->]; apply Hx; reflexivity | intros H; f_equal; apply Hx, H].
      * rewrite last_app, Hlast. reflexivity.
  - unfold or_else.
    destruct (attempt P (a :: actions) 2000 (page P w1)) as [done found].
    cbn [fst snd] in *. destruct found.
    + unfold ret. cbn [fst snd]. rewrite app_nil_r. split.
      * unfold deeds in *. cbn [omap list_omap]. rewrite !omap_app, Hd1. reflexivity.
      * rewrite (last_of_run _ first events1 _ (Hl1 eq_refl)). split; discriminate.
    + rewrite Hd1 in Hw2. rewrite Hw2 in Hrest. destruct Hrest as (Hd & x & Hlast & Hx).
      destruct (bind P Pl (uploadViaClipboard P Pl file) _ w2) as [r rest].
      destruct (strategy P (clipboard_injection P file) _ (page_after P (page P w1) done))
        as [more later].
      cbn [fst snd] in *. split.
      * unfold deeds in *. cbn [omap list_omap]. rewrite !omap_app, Hd1, Hd. reflexivity.
      * rewrite (last_of_run _ first (events1 ++ rest) x).
        -- split; [intros [= ->]; apply Hx; reflexivity | intros H; f_equal; apply Hx, H].
        -- rewrite last_app, Hlast. reflexivity.
Qed.

(** C4.  The injection stage never fails: it returns normally whatever
    the page does.  Its events are accepted by the protocol of the stage:
    file-input events, then the paste, then drag events, never in another
    order; each attempt followed by its settle (2000 ms after the file
    input and after the paste, 100 ms after dragenter and dragover, 500 ms
    after drop) before anything else is tried; and no injection event once
    the check that follows a settle of 2000 or 500 ms has found the image.
    At the end no settle is due, and unless a check found the image the
    last event is the warning.

    The stage also does all the specification asks of it.  After the
    add-button step, which injects nothing, what the stage does to the
    page is what [stage_plan] does: the file input is tried when the page
    has one, then the paste when the page has an input area, then the
    drag and drop on the drop targets, the body among them; each with its
    settle and its check, and nothing more once a check has found the
    image.  The warning is the last event exactly when no check of the
    plan finds the image. *)
Theorem injection_follows_protocol (imageBlob : Blob) (originalUrl : string) (w : World P) :
  let run := uploadImageToGemini P Pl imageBlob originalUrl w in
  let file := makeFile Pl imageBlob originalUrl in
  let first := snd (clickAddButton P Pl w) in
  let plan := stage_plan P file (page P (advance P Pl w first)) in
  fst run = Ok tt /\
  (exists final,
     mrun (injection_step P) (injection_start P (page P w)) (snd run) = Some final /\
     due P final = None /\
     (confirmed P final = false -> warned P final = true)) /\
  (deeds first = [] \/ exists addButton, deeds first = [Click addButton; Elapse 800]) /\
  deeds (snd run) = deeds first ++ fst plan /\
  (last (snd run) = Some (ConsoleLog UPLOAD_WARNING []) <-> snd plan = false).
Proof.
  cbv zeta.
  cut (sat Pl (injection_step P) (uploadImageToGemini P Pl imageBlob originalUrl) w
         (injection_start P (page P w))
         (fun r s _ => r = Ok tt /\ concluded P s)).
  { intros (final & H1 & H2 & H3 & H4). split; [exact H2|].
    split; [exists final; auto|].
    split; [apply clickAddButton_deeds|]. apply stage_follows_plan. }
  unfold uploadImageToGemini. cbv zeta. sat_run.
  apply sat_clickAddButton; [repeat split; simpl; auto|].
  intros s1 w1 H1. cbv beta iota. sat_run.
  apply sat_uploadViaFileInput; [exact H1| |]; clear s1 w1 H1.
  { intros s1 w1 Hd Hc. sat_run. split; [reflexivity|]. split; [exact Hd|congruence]. }
  intros s1 w1 H1. sat_run.
  apply sat_uploadViaClipboard; [eapply tracking_weaken; [|exact H1]; lia| |]; clear s1 w1 H1.
  { intros s1 w1 Hd Hc. sat_run. split; [reflexivity|]. split; [exact Hd|congruence]. }
  intros s1 w1 H1. sat_run.
  apply sat_uploadViaDragDrop; [eapply tracking_weaken; [|exact H1]; lia|].
  intros s2 w2 H2. split; [reflexivity|exact H2].
Qed.

End WithHost.

(** The protocol is not vacuous: it rejects a paste sent before the settle
    of the file input, a drag event after a check has found the image,
    strategies out of order, and a settle of the wrong length. *)
Section Rejected.
Import Scenario.

Example paste_before_settle_rejected :
  mrun (injection_step static_page) (injection_start static_page blank)
    [Act (AssignFiles 2%nat cat_file); Act (DispatchPaste 1%nat cat_file)] = None.
Proof. reflexivity. Qed.

Example injection_after_confirmation_rejected :
  mrun (injection_step static_page) (injection_start static_page with_attachment)
    [ Act (DispatchPaste 1%nat cat_file); Act (Elapse 2000);
      Act (DispatchDrag 1%nat "dragenter" cat_file) ]
  = None.
Proof. reflexivity. Qed.

Example out_of_order_rejected :
  mrun (injection_step static_page) (injection_start static_page blank)
    [ Act (DispatchPaste 1%nat cat_file); Act (Elapse 2000);
      Act (AssignFiles 2%nat cat_file) ] = None.
Proof. reflexivity. Qed.

Example short_settle_rejected :
  mrun (injection_step static_page) (injection_start static_page blank)
    [Act (DispatchPaste 1%nat cat_file); Act (Elapse 100)] = None.
Proof. reflexivity. Qed.

Example drag_drop_run_accepted :
  exists final,
    mrun (injection_step static_page) (injection_start static_page blank)
      (snd (uploadImageToGemini static_page offline cat_blob cat_url (world blank 5000)))
    = Some final /\ warned static_page final = true.
Proof. eexists. split; vm_compute; reflexivity. Qed.

End Rejected.

(** The plan on two pages.  On a page with nothing on it the file input
    and the paste have nothing to work on and the body is the one drop
    target: the stage goes through the drag events and their settles and
    ends with the warning.  On a page that shows an attachment once its
    file input has a file, the stage stops after the file input. *)
Section Planned.
Import Scenario Samples.

Example plan_on_blank_page :
  stage_plan static_page cat_file blank =
    ([ DispatchDrag 0%nat "dragenter" cat_file; Elapse 100;
       DispatchDrag 0%nat "dragover" cat_file; Elapse 100;
       DispatchDrag 0%nat "drop" cat_file; Elapse 500; Elapse 2000 ], false) /\
  last (snd (uploadImageToGemini static_page online cat_blob cat_url (world blank 2000))) =
    Some (ConsoleLog UPLOAD_WARNING []).
Proof. split; vm_compute; reflexivity. Qed.

Example plan_stops_after_file_input :
  let start := Build_World accepting_page 2000 false ∅ in
  let tried := [ AssignFiles 2%nat cat_file; DispatchEvent 2%nat "change";
                 DispatchEvent 2%nat "input"; Elapse 2000 ] in
  stage_plan accepting_page cat_file false = (tried, true) /\
  deeds (snd (uploadImageToGemini accepting_page online cat_blob cat_url start)) = tried /\
  last (snd (uploadImageToGemini accepting_page online cat_blob cat_url start)) =
    Some (ConsoleLog "Image upload confirmed!" []).
Proof. cbv zeta. repeat split; vm_compute; reflexivity. Qed.

End Planned.
End InjectionFacts.

(** ** The readiness detector *)
Module ReadinessFacts.
Import Content Monitor Events MonitorFacts ProcedureFacts Readiness.
Section WithHost.
Context (P : Page) (Pl : Platform).

Lemma readiness_loop_eq startTime (w : World P) :
  readiness_loop P Pl startTime w =
  if Z_lt_dec (now P w - startTime) MAX_WAIT_TIME then
    match readiness_probe P (page P w) with
    | (logs, Some el) => (Ok el, logs)
    | (logs, None) =>
        let (r, events) :=
          readiness_loop P Pl startTime (apply_event P Pl (Act (Elapse POLL_INTERVAL)) w) in
        (r, logs ++ Act (Elapse POLL_INTERVAL) :: events)
    end
  else readiness_timeout P (page P w).
Proof.
  funelim (readiness_loop P Pl startTime w).
  - rewrite Heq. reflexivity.
  - rewrite Heq0, Heq. reflexivity.
  - rewrite Heq0, Heq. reflexivity.
Qed.

Lemma ticks_shift k (d : Dom P) :
  ticks P k (react P (Elapse POLL_INTERVAL) d) = ticks P (S k) d.
Proof. unfold ticks. rewrite Nat.iter_succ_r. reflexivity. Qed.

Lemma console_is_poll_wait logs :
  forallb is_console logs = true -> forallb is_poll_wait logs = true.
Proof.
  rewrite !forallb_forall. intros H e He. specialize (H e He).
  destruct e; try discriminate; reflexivity.
Qed.

Lemma loop_found startTime k : forall (w : World P) el,
  now P w - startTime + POLL_INTERVAL * Z.of_nat k < MAX_WAIT_TIME ->
  (forall j, (j < k)%nat -> accepted P (ticks P j (page P w)) = None) ->
  accepted P (ticks P k (page P w)) = Some el ->
  fst (readiness_loop P Pl startTime w) = Ok el.
Proof.
  unfold POLL_INTERVAL.
  induction k as [|k IH]; intros w el Ht Hmiss Hhit; rewrite readiness_loop_eq.
  - destruct (Z_lt_dec _ _) as [_|Hge]; [|lia].
    unfold accepted, ticks in Hhit. simpl in Hhit.
    destruct (readiness_probe P (page P w)) as [logs [x|]]; simpl in *; congruence.
  - destruct (Z_lt_dec _ _) as [_|Hge]; [|lia].
    pose proof (Hmiss 0%nat ltac:(lia)) as H0. unfold accepted, ticks in H0. simpl in H0.
    destruct (readiness_probe P (page P w)) as [logs [x|]]; simpl in *; [congruence|].
    specialize (IH (apply_event P Pl (Act (Elapse 500)) w) el).
    destruct (readiness_loop P Pl startTime _) as [r events]. simpl in *.
    apply IH.
    + lia.
    + intros j Hj. rewrite (ticks_shift j). apply Hmiss. lia.
    + rewrite (ticks_shift k). exact Hhit.
Qed.

Lemma loop_waits startTime (w : World P) :
  forallb is_poll_wait (snd (readiness_loop P Pl startTime w)) = true.
Proof.
  funelim (readiness_loop P Pl startTime w).
  - reflexivity.
  - pose proof (readiness_probe_console (page P w)) as Hc. rewrite Heq in Hc.
    apply console_is_poll_wait, Hc.
  - pose proof (readiness_probe_console (page P w)) as Hc. rewrite Heq in Hc. simpl in Hc.
    destruct (readiness_loop P Pl startTime _) as [r events]. simpl in *.
    rewrite forallb_app. simpl. rewrite H, andb_true_r.
    apply console_is_poll_wait, Hc.
Qed.

Lemma loop_timeout startTime (w : World P) :
  (forall k, now P w - startTime + POLL_INTERVAL * Z.of_nat k < MAX_WAIT_TIME ->
             accepted P (ticks P k (page P w)) = None) ->
  exists polling,
    readiness_loop P Pl startTime w =
      (Throw TIMEOUT_MESSAGE, polling ++ diagnostics P (page P (advance P Pl w polling))) /\
    MAX_WAIT_TIME <= now P (advance P Pl w polling) - startTime.
Proof.
  funelim (readiness_loop P Pl startTime w); intros Hmiss.
  - exists []. simpl. split; [reflexivity | lia].
  - exfalso. specialize (Hmiss 0%nat). unfold accepted, ticks in Hmiss. simpl in Hmiss.
    rewrite Heq in Hmiss. simpl in Hmiss. rewrite Z.add_0_r in Hmiss.
    specialize (Hmiss l). discriminate.
  - destruct H as (polling & Hrun & Hnow).
    { intros k Hk. simpl. rewrite (ticks_shift k). apply Hmiss. simpl in Hk.
      unfold POLL_INTERVAL in *. lia. }
    rewrite Hrun.
    pose proof (readiness_probe_console (page P w)) as Hc. rewrite Heq in Hc. simpl in Hc.
    exists (logs ++ Act (Elapse POLL_INTERVAL) :: polling).
    rewrite advance_app, (advance_console _ _ _ Hc). simpl.
    rewrite <- app_assoc. simpl. split; [reflexivity | exact Hnow].
Qed.

Lemma awaitHydration_ok (w : World P) : fst (awaitHydration P Pl w) = Ok tt.
Proof. apply (behaves_result Pl _ _ _ w (awaitHydration_behaves P Pl)). Qed.

Lemma waitForGeminiReady_eq (w : World P) :
  waitForGeminiReady P Pl w =
  let hydration := snd (awaitHydration P Pl w) in
  let polled := readiness_loop P Pl (now P w) (advance P Pl w hydration) in
  (fst polled, hydration ++ snd polled).
Proof.
  unfold waitForGeminiReady, bind, Date_now. cbn [advance fold_left app].
  pose proof (awaitHydration_ok w) as Hok.
  destruct (awaitHydration P Pl w) as [r hydration]. simpl in Hok. subst r.
  cbv zeta. cbn [snd].
  destruct (readiness_loop P Pl (now P w) _) as [r polling]. reflexivity.
Qed.

(** C3.  Let [hydration] be what the detector emits before it polls, and
    [entry] the world in which polling begins.  (1) Everything emitted
    after that is a console line or a wait of exactly 500 ms.  (2) If a
    poll falls within 30 000 ms of the start and is the first to find an
    element, that element is returned.  (3) If every poll that falls
    within 30 000 ms of the start finds nothing, the detector throws the
    timeout error; the last events of the run are the diagnostics of the
    page as it is then, which show its URL and its contenteditable
    elements; and 30 000 ms or more have passed since the start. *)
Theorem readiness_detector_polls (w : World P) :
  let hydration := snd (awaitHydration P Pl w) in
  let entry := advance P Pl w hydration in
  let run := waitForGeminiReady P Pl w in
  (exists polling,
     snd run = hydration ++ polling /\ forallb is_poll_wait polling = true) /\
  (forall k el,
     now P entry - now P w + POLL_INTERVAL * Z.of_nat k < MAX_WAIT_TIME ->
     (forall j, (j < k)%nat -> accepted P (ticks P j (page P entry)) = None) ->
     accepted P (ticks P k (page P entry)) = Some el ->
     fst run = Ok el) /\
  ((forall k,
      now P entry - now P w + POLL_INTERVAL * Z.of_nat k < MAX_WAIT_TIME ->
      accepted P (ticks P k (page P entry)) = None) ->
   fst run = Throw TIMEOUT_MESSAGE /\
   exists before,
     let d := page P (advance P Pl w before) in
     snd run = before ++ diagnostics P d /\
     In (ConsoleLog "- URL:" [AStr (location_href P d)]) (diagnostics P d) /\
     In (ConsoleLog "- contenteditable elements:"
           [AElems (querySelectorAll P d "[contenteditable]")]) (diagnostics P d) /\
     MAX_WAIT_TIME <= now P (advance P Pl w before) - now P w).
Proof.
  cbv zeta. rewrite waitForGeminiReady_eq. cbv zeta. cbn [fst snd].
  split; [|split].
  - eexists. split; [reflexivity|]. apply loop_waits.
  - intros k el Ht Hmiss Hhit. eapply loop_found; eassumption.
  - intros Hmiss. destruct (loop_timeout _ _ Hmiss) as (polling & Hrun & Hnow).
    rewrite Hrun. cbn [fst snd]. split; [reflexivity|].
    exists (snd (awaitHydration P Pl w) ++ polling).
    rewrite advance_app, <- app_assoc.
    split; [reflexivity|]. split; [|split; [|exact Hnow]].
    + right. left. reflexivity.
    + right. right. left. reflexivity.
Qed.

End WithHost.

Section OnToyPages.
Import Scenario.

Lemma static_ticks k d : ticks static_page k d = d.
Proof. induction k as [|k IH]; [reflexivity|]. unfold ticks in *. simpl. exact IH. Qed.

Lemma readiness_detector_polls_witness :
  fst (waitForGeminiReady static_page offline (world with_input 2000)) = Ok 1%nat /\
  fst (waitForGeminiReady static_page offline (world blank 2000)) = Throw TIMEOUT_MESSAGE.
Proof.
  split.
  - apply (proj1 (proj2 (readiness_detector_polls static_page offline
                           (world with_input 2000))) 0%nat 1%nat).
    + vm_compute. reflexivity.
    + intros j Hj. lia.
    + reflexivity.
  - apply (proj2 (proj2 (readiness_detector_polls static_page offline (world blank 2000)))).
    intros k _. rewrite static_ticks. reflexivity.
Defined.

Example blank_page_times_out_after_56_polls :
  length (List.filter is_wait
            (snd (waitForGeminiReady static_page offline (world blank 2000)))) = 57%nat.
Proof. vm_compute. reflexivity. Qed.

End OnToyPages.
End ReadinessFacts.

(** ** The download *)
Module FetchFacts.
Import Content Monitor Events MonitorFacts ProcedureFacts Fetching.
Section WithHost.
Context (P : Page) (Pl : Platform).

Lemma tryBackgroundFetch_run url (w : World P) :
  exists rest,
    tryBackgroundFetch P Pl url w =
      (Ok (privileged_blob Pl url),
       ConsoleLog "Trying background script fetch..." [] ::
       SendMessage (FETCH_IMAGE url) :: rest) /\
    ~ In (PageFetch CorsOmitCredentials url) rest.
Proof.
  unfold tryBackgroundFetch, privileged_blob, fetchImageViaBackground, try_catch, bind,
    sendMessage, fetch, log, emit, ret.
  cbn -[Background.fetchImageAsDataUrl].
  destruct (lastError Pl (FETCH_IMAGE url)) as [e|]; cbn -[Background.fetchImageAsDataUrl].
  { eexists. split; [reflexivity|]. simpl. intuition discriminate. }
  destruct (Background.fetchImageAsDataUrl Pl url) as [dataUrl|e]; cbn.
  2: { eexists. split; [reflexivity|]. simpl. intuition discriminate. }
  destruct (page_fetch Pl DefaultInit dataUrl) as [e|ok status text blob]; cbn;
    (eexists; split; [reflexivity|]; simpl; intuition discriminate).
Qed.

Lemma tryDirectFetch_run url (w : World P) :
  exists rest,
    tryDirectFetch P Pl url w =
      (Ok (direct_blob Pl url),
       ConsoleLog "Trying direct CORS fetch..." [] ::
       PageFetch CorsOmitCredentials url :: rest).
Proof.
  unfold tryDirectFetch, direct_blob, try_catch, bind, fetch, log, emit, ret, throw. cbn.
  destruct (page_fetch Pl CorsOmitCredentials url) as [e|ok status text blob]; cbn;
    [eexists; reflexivity|].
  destruct ok; cbn; eexists; reflexivity.
Qed.

Lemma fetchImage_run url (w : World P) :
  exists rest,
    fetchImage P Pl url w =
      (match privileged_blob Pl url with
       | Some blob => Ok blob
       | None =>
           match direct_blob Pl url with
           | Some blob => Ok blob
           | None => Throw DOWNLOAD_ERROR
           end
       end,
       ConsoleLog "Attempting to fetch image:" [AStr url] ::
       ConsoleLog "Trying background script fetch..." [] ::
       SendMessage (FETCH_IMAGE url) :: rest) /\
    (In (PageFetch CorsOmitCredentials url) rest <-> privileged_blob Pl url = None).
Proof.
  unfold fetchImage. unfold bind at 1. unfold log, emit. cbn [advance fold_left apply_event].
  unfold bind at 1.
  destruct (tryBackgroundFetch_run url w) as (rest & -> & Hnot).
  destruct (privileged_blob Pl url) as [blob|].
  - cbn. exists (rest ++ []). split; [reflexivity|]. rewrite app_nil_r.
    split; [tauto|discriminate].
  - unfold bind.
    destruct (tryDirectFetch_run url
                (advance P Pl w (ConsoleLog "Trying background script fetch..." [] ::
                                 SendMessage (FETCH_IMAGE url) :: rest)))
      as (rest' & ->).
    destruct (direct_blob Pl url) as [blob|]; cbn;
      (eexists; split; [reflexivity|]; split; [reflexivity|]; intros _;
       apply in_or_app; right; right; left; reflexivity).
Qed.

Lemma fetchImage_fails url (w : World P) :
  fetch_fails Pl url -> fst (fetchImage P Pl url w) = Throw DOWNLOAD_ERROR.
Proof.
  intros [Hp Hd]. destruct (fetchImage_run url w) as (rest & -> & _).
  rewrite Hp, Hd. reflexivity.
Qed.

(** C5.  [fetchImage] starts with the message to the background channel:
    nothing but two console lines comes before it.  The direct
    credential-less CORS fetch is issued if and only if the background
    attempt yields no blob.  The result is the blob of the background
    attempt if there is one, else the blob of the direct fetch if there
    is one, else the error whose message advises to save the image and
    upload it manually.  The injection stage that follows never throws:
    the download is the only fatal step of the upload. *)
Theorem download_order_and_fatality (url : string) (w : World P) :
  let run := fetchImage P Pl url w in
  (exists rest,
     snd run = ConsoleLog "Attempting to fetch image:" [AStr url] ::
               ConsoleLog "Trying background script fetch..." [] ::
               SendMessage (FETCH_IMAGE url) :: rest /\
     (In (PageFetch CorsOmitCredentials url) rest <-> privileged_blob Pl url = None)) /\
  fst run = match privileged_blob Pl url with
            | Some blob => Ok blob
            | None =>
                match direct_blob Pl url with
                | Some blob => Ok blob
                | None => Throw DOWNLOAD_ERROR
                end
            end /\
  JS.includes "uploading manually" DOWNLOAD_ERROR = true /\
  (forall imageBlob originalUrl w',
     fst (uploadImageToGemini P Pl imageBlob originalUrl w') = Ok tt).
Proof.
  cbv zeta. destruct (fetchImage_run url w) as (rest & -> & Hdirect). cbn [fst snd].
  split; [exists rest; auto|]. split; [reflexivity|]. split; [reflexivity|].
  intros imageBlob originalUrl w'.
  apply (behaves_result Pl _ _ _ w' (uploadImageToGemini_behaves P Pl imageBlob originalUrl)).
Qed.

End WithHost.

Example offline_download_fails :
  fst (fetchImage Scenario.static_page Scenario.offline Scenario.cat_url
         (Scenario.world Scenario.blank 5000)) = Throw DOWNLOAD_ERROR.
Proof. reflexivity. Qed.

Example online_download_skips_direct_fetch :
  fetchImage Scenario.static_page Scenario.online Scenario.cat_url
    (Scenario.world Scenario.blank 5000) =
  (Ok Scenario.cat_blob,
   [ ConsoleLog "Attempting to fetch image:" [AStr Scenario.cat_url];
     ConsoleLog "Trying background script fetch..." [];
     SendMessage (FETCH_IMAGE Scenario.cat_url);
     ConsoleLog "Background fetch successful, converting to blob..." [];
     PageFetch DefaultInit "data:image/png;base64,AAAA" ]).
Proof. reflexivity. Qed.

End FetchFacts.

(** ** The run as a whole *)
Module RunFacts.
Import Content Monitor Events MonitorFacts ProcedureFacts Fetching Sending Orchestration.
Import Mention MentionFacts FetchFacts.
Section WithHost.
Context (P : Page) (Pl : Platform).

(** C2.  When the record the script picks up is older than 30 000 ms, the
    run consists of the start-up line, the pickup request and the line
    saying the record is ignored.  Nothing is done to the page, no time is
    spent waiting, no outbound event is sent, and the page is as it
    was. *)
Theorem stale_check_is_dropped (w : World P) (pendingImage : PendingCheck) :
  fst (getPendingImage P Pl w) = Ok (Some pendingImage) ->
  now P w - timestamp pendingImage > 30000 ->
  let run := main P Pl w in
  run = (Ok tt, [ ConsoleLog "Content script loaded on Gemini" [];
                  SendMessage GET_PENDING_IMAGE;
                  ConsoleLog "Pending image is too old, ignoring" [] ]) /\
  forallb (fun e => negb (is_dom_action e) && negb (is_wait e) && negb (is_outbound e))
          (snd run) = true /\
  page P (advance P Pl w (snd run)) = page P w.
Proof.
  intros Hpick Hage. cbv zeta.
  assert (Hrun : main P Pl w =
                 (Ok tt, [ ConsoleLog "Content script loaded on Gemini" [];
                           SendMessage GET_PENDING_IMAGE;
                           ConsoleLog "Pending image is too old, ignoring" [] ])).
  { unfold main. unfold bind at 1. unfold log, emit. cbn [advance fold_left apply_event].
    unfold bind at 1.
    destruct (getPendingImage P Pl w) as [r events] eqn:Hget. simpl in Hpick. subst r.
    assert (events = [SendMessage GET_PENDING_IMAGE]) as ->.
    { unfold getPendingImage, bind, sendMessage, ret in Hget. cbn in Hget. congruence. }
    unfold bind, Date_now.
    assert (Hnow : now P (advance P Pl w [SendMessage GET_PENDING_IMAGE]) = now P w).
    { cbn. destruct (lastError Pl GET_PENDING_IMAGE); reflexivity. }
    rewrite Hnow.
    destruct (Z.gtb_spec (now P w - timestamp pendingImage) 30000) as [_|Hle]; [|lia].
    reflexivity. }
  rewrite Hrun. split; [reflexivity|]. split; [reflexivity|].
  cbn. destruct (lastError Pl GET_PENDING_IMAGE); reflexivity.
Qed.

Lemma waits_working e : waits_and_logs e = true -> working e = true.
Proof. unfold waits_and_logs. by_cases_on_event e. Qed.

Lemma composing_working el e : composing_in el e = true -> working e = true.
Proof. unfold composing_in. by_cases_on_event e. Qed.

Lemma fetching_working e : fetching e = true -> working e = true.
Proof. by_cases_on_event e. Qed.

Lemma uploading_working e : uploading e = true -> working e = true.
Proof. by_cases_on_event e. Qed.

Lemma console_working e : is_console e = true -> working e = true.
Proof. by_cases_on_event e. Qed.

Lemma pressing_send_working e : pressing_send e = true -> working e = true.
Proof. by_cases_on_event e. Qed.

Lemma working_no_failure e : working e = true -> no_failure_no_completion e = true.
Proof. by_cases_on_event e. Qed.

Lemma prepare_behaves pendingImage :
  behaves Pl working (fun _ => True) (prepare P Pl pendingImage).
Proof.
  intros w. unfold prepare. sat_run.
  eapply sat_conseq.
  { eapply behaves_weaken with (R' := fun _ => True);
      [apply waitForGeminiReady_behaves|apply waits_working|auto]. }
  intros [inputArea|e] [] w1 _; [|exact I]. cbv beta iota. sat_run.
  eapply sat_conseq.
  { eapply behaves_weaken with (R' := fun r => r = Ok tt);
      [apply typeSynthIDQuery_behaves|apply composing_working|auto]. }
  intros r [] w2 ->. cbv beta iota. sat_run.
  eapply sat_conseq.
  { eapply behaves_weaken with (R' := fun _ => True);
      [apply fetchImage_behaves|apply fetching_working|auto]. }
  intros [imageBlob|e] [] w3 _; [|exact I]. cbv beta iota. sat_run.
  eapply sat_conseq.
  { eapply behaves_weaken with (R' := fun r => r = Ok tt);
      [apply uploadImageToGemini_behaves|apply uploading_working|auto]. }
  intros r [] w4 ->. cbv beta iota. sat_run.
  eapply sat_conseq.
  { eapply behaves_weaken with (R' := returns);
      [apply checkForUploadedImage_behaves|apply console_working|auto]. }
  intros r [] w5 [imageUploaded ->]. cbv beta iota. sat_run.
  destruct imageUploaded; cbn [negb]; sat_run; exact I.
Qed.

Lemma clickSendButton_miss (w : World P) :
  no_send_heuristic P (page P w) = true ->
  fst (clickSendButton P Pl w) = Ok false /\
  forallb is_console (snd (clickSendButton P Pl w)) = true.
Proof.
  intros Hnone.
  cut (sat Pl (filter_step is_console) (clickSendButton P Pl) w tt
         (fun r _ _ => r = Ok false)).
  { intros ([] & H1 & H2). split; [exact H2|]. apply (mrun_filter is_console _ tt), H1. }
  unfold no_send_heuristic in Hnone. cbv zeta in Hnone.
  apply andb_true_iff in Hnone as [Hbuttons Hrest].
  unfold clickSendButton. sat_run.
  apply sat_for_first with (I := fun _ w' => w' = w); [| |reflexivity].
  - intros btn [] w' Hin ->. sat_run.
    rewrite forallb_forall in Hbuttons. specialize (Hbuttons btn Hin).
    unfold lower_right in Hbuttons. cbv zeta in Hbuttons.
    destruct ((rect_bottom (getBoundingClientRect P (page P w) btn) >?
               innerHeight P (page P w) - 200) &&
              (2 * rect_right (getBoundingClientRect P (page P w) btn) >?
               innerWidth P (page P w))) eqn:Hpos; sat_run; [|reflexivity].
    simpl in Hbuttons. apply negb_true_iff in Hbuttons. rewrite Hbuttons.
    sat_run. reflexivity.
  - intros [] w' ->. sat_run.
    destruct (querySelector P (page P w) _); [discriminate|]. sat_run.
    destruct (findInputArea P (page P w)); sat_run.
    + destruct (rightmost_near P _ _ _); [discriminate|]. sat_run. reflexivity.
    + reflexivity.
Qed.

(** C7.  Suppose the run reaches the send step, and no heuristic of
    [clickSendButton] matches on the page as it is then.  Then
    [clickSendButton] returns false and does nothing to the page, and the
    run ends, without an error, by removing the overlays, showing the
    manual-send prompt and sending the Complete event with success true.
    Nowhere in the run is there a Failed event, an error dialog or the
    completion animation.  In any world [clickSendButton] returns a
    value: it never throws. *)
Theorem send_miss_degrades_gracefully (pendingImage : PendingCheck) (w : World P)
    (before : list Event) :
  prepare P Pl pendingImage w = (Ok tt, before) ->
  no_send_heuristic P (page P (advance P Pl w before)) = true ->
  fst (clickSendButton P Pl (advance P Pl w before)) = Ok false /\
  (exists looking,
     process P Pl pendingImage w =
       (Ok tt, before ++ looking ++
               [ Act RemoveAllOverlays;
                 Act (ShowOverlay ManualSendPrompt);
                 SendMessage (CHECK_COMPLETE true) ]) /\
     forallb is_console looking = true) /\
  forallb no_failure_no_completion (snd (process P Pl pendingImage w)) = true /\
  (forall w', returns (fst (clickSendButton P Pl w'))).
Proof.
  intros Hprep Hnone.
  destruct (clickSendButton_miss _ Hnone) as [Hfalse Hquiet].
  assert (Hrun : process P Pl pendingImage w =
                 (Ok tt, before ++ snd (clickSendButton P Pl (advance P Pl w before)) ++
                         [ Act RemoveAllOverlays;
                           Act (ShowOverlay ManualSendPrompt);
                           SendMessage (CHECK_COMPLETE true) ])).
  { unfold process, try_catch. unfold bind at 1. rewrite Hprep.
    unfold send_and_report. unfold bind at 1.
    destruct (clickSendButton P Pl (advance P Pl w before)) as [r looking].
    simpl in Hfalse. subst r. cbn [snd fst]. reflexivity. }
  split; [exact Hfalse|]. split; [eexists; split; [exact Hrun|exact Hquiet]|].
  split.
  - rewrite Hrun. cbn [snd]. rewrite !forallb_app.
    apply andb_true_iff. split; [|apply andb_true_iff; split; [|reflexivity]].
    + pose proof (behaves_events Pl _ _ _ w (prepare_behaves pendingImage)) as Hw.
      rewrite Hprep in Hw. simpl in Hw.
      rewrite forallb_forall in *. intros e He. apply working_no_failure, Hw, He.
    + rewrite forallb_forall in *. intros e He. specialize (Hquiet e He).
      destruct e; try discriminate; reflexivity.
  - intros w'. apply (behaves_result Pl _ _ _ w' (clickSendButton_behaves P Pl)).
Qed.

Lemma waits_readiness el e : waits_and_logs e = true -> readiness_and_composing el e = true.
Proof. unfold waits_and_logs, readiness_and_composing. by_cases_on_event e. Qed.

Lemma composing_readiness el e : composing_in el e = true -> readiness_and_composing el e = true.
Proof. unfold readiness_and_composing. intros ->. apply orb_true_r. Qed.

Lemma fetching_readiness el e : fetching e = true -> readiness_and_composing el e = true.
Proof. unfold readiness_and_composing. by_cases_on_event e. Qed.

Lemma forallb_impl {A} (f g : A -> bool) l :
  (forall x, f x = true -> g x = true) -> forallb f l = true -> forallb g l = true.
Proof. rewrite !forallb_forall. auto. Qed.

(** The events of a run whose download fails, piece by piece. *)
Lemma fetch_failure_shape (pendingImage : PendingCheck) (w : World P) (el : Element) :
  fst (waitForGeminiReady P Pl w) = Ok el ->
  fetch_fails Pl (imageUrl pendingImage) ->
  exists composing fetched,
    process P Pl pendingImage w =
      (Ok tt,
       snd (waitForGeminiReady P Pl w) ++
       [ ConsoleLog "Gemini is ready, input area found:" [AElem el];
         Act (Elapse 1000); Act RemoveAllOverlays; Act (ShowOverlay TypingOverlay);
         ConsoleLog "Step 1: Typing @SynthID query..." [] ] ++
       (composing ++ typing_events el QUESTION ++
        [ConsoleLog "Step 7: Typed question" []; ConsoleLog "=== FINISHED ===" []]) ++
       [ ConsoleLog "Query typed successfully" [];
         Act (Elapse 500); Act (ShowOverlay UploadingOverlay);
         ConsoleLog "Step 2: Fetching image..." [] ] ++
       (ConsoleLog "Attempting to fetch image:" [AStr (imageUrl pendingImage)] ::
        ConsoleLog "Trying background script fetch..." [] ::
        SendMessage (FETCH_IMAGE (imageUrl pendingImage)) :: fetched) ++
       failure_report DOWNLOAD_ERROR) /\
    forallb (composing_in el)
      (composing ++ typing_events el QUESTION ++
       [ConsoleLog "Step 7: Typed question" []; ConsoleLog "=== FINISHED ===" []]) = true /\
    forallb fetching fetched = true.
Proof.
  intros Hready [Hp Hd].
  cut (sat Pl record_step (process P Pl pendingImage) w []
         (fun r s _ => r = Ok tt /\ exists composing fetched,
            s = snd (waitForGeminiReady P Pl w) ++
                [ ConsoleLog "Gemini is ready, input area found:" [AElem el];
                  Act (Elapse 1000); Act RemoveAllOverlays; Act (ShowOverlay TypingOverlay);
                  ConsoleLog "Step 1: Typing @SynthID query..." [] ] ++
                (composing ++ typing_events el QUESTION ++
                 [ConsoleLog "Step 7: Typed question" []; ConsoleLog "=== FINISHED ===" []]) ++
                [ ConsoleLog "Query typed successfully" [];
                  Act (Elapse 500); Act (ShowOverlay UploadingOverlay);
                  ConsoleLog "Step 2: Fetching image..." [] ] ++
                (ConsoleLog "Attempting to fetch image:" [AStr (imageUrl pendingImage)] ::
                 ConsoleLog "Trying background script fetch..." [] ::
                 SendMessage (FETCH_IMAGE (imageUrl pendingImage)) :: fetched) ++
                failure_report DOWNLOAD_ERROR /\
            forallb (composing_in el)
              (composing ++ typing_events el QUESTION ++
               [ConsoleLog "Step 7: Typed question" []; ConsoleLog "=== FINISHED ===" []]) = true /\
            forallb fetching fetched = true)).
  { intros H. apply sat_record_inv in H. destruct H as (Hr & composing & fetched & Hs & H1 & H2).
    exists composing, fetched. split; [|auto].
    destruct (process P Pl pendingImage w) as [r s]. simpl in *. congruence. }
  unfold process, prepare. sat_run.
  apply sat_record. rewrite Hready. cbv beta iota.
  generalize (advance P Pl w (snd (waitForGeminiReady P Pl w))). intros w1. sat_run.
  match goal with |- sat _ _ (typeSynthIDQuery _ _ _) ?w2 _ _ => set (wt := w2) end.
  apply sat_record.
  rewrite (behaves_result Pl _ _ _ wt (typeSynthIDQuery_behaves P Pl el)).
  pose proof (behaves_events Pl _ _ _ wt (typeSynthIDQuery_behaves P Pl el)) as Hcomposing.
  destruct (question_typed_last P Pl el wt) as (composing & Hq). rewrite Hq in *.
  cbv beta iota.
  generalize (advance P Pl wt
                (composing ++ typing_events el QUESTION ++
                 [ConsoleLog "Step 7: Typed question" []; ConsoleLog "=== FINISHED ===" []])).
  clear wt Hq. intros w2. sat_run.
  match goal with |- sat _ _ (fetchImage _ _ _) ?w3 _ _ => set (wf := w3) end.
  apply sat_record.
  pose proof (behaves_events Pl _ _ _ wf (fetchImage_behaves P Pl (imageUrl pendingImage)))
    as Hfetching.
  destruct (fetchImage_run P Pl (imageUrl pendingImage) wf) as (fetched & Hf & _).
  rewrite Hf in *. rewrite Hp, Hd. cbn [fst snd] in *.
  generalize (advance P Pl wf
                (ConsoleLog "Attempting to fetch image:" [AStr (imageUrl pendingImage)] ::
                 ConsoleLog "Trying background script fetch..." [] ::
                 SendMessage (FETCH_IMAGE (imageUrl pendingImage)) :: fetched)).
  clear wf Hf. intros w3. sat_run.
  split; [reflexivity|]. exists composing, fetched.
  split; [|split; [exact Hcomposing|]].
  - unfold failure_report. repeat rewrite <- app_assoc. reflexivity.
  - simpl in Hfetching. exact Hfetching.
Qed.

(** C1, amended.  Suppose readiness detection succeeds with the input
    area [el], and the download then fails via both channels.  Then the
    run ends, without an error of its own, with the error report: the
    error dialog and the Failed event, both carrying the "Could not
    download this image..." message.  All the run does to the page is
    show and remove overlays and compose the query in [el]: there is no
    injection event and no click on a send button.  The query has been
    typed by the time the download starts: the typing of the question
    comes before the message to the background channel. *)
Theorem fetch_failure_is_reported (pendingImage : PendingCheck) (w : World P) (el : Element) :
  fst (waitForGeminiReady P Pl w) = Ok el ->
  fetch_fails Pl (imageUrl pendingImage) ->
  let run := process P Pl pendingImage w in
  fst run = Ok tt /\
  (exists before, snd run = before ++ failure_report DOWNLOAD_ERROR) /\
  forallb (readiness_and_composing el) (snd run) = true /\
  forallb (fun e => negb (is_injection e)) (snd run) = true /\
  (exists earlier later rest,
     snd run = (earlier ++ typing_events el QUESTION ++ later) ++
               SendMessage (FETCH_IMAGE (imageUrl pendingImage)) :: rest).
Proof.
  intros Hready Hfail. cbv zeta.
  destruct (fetch_failure_shape pendingImage w el Hready Hfail)
    as (composing & fetched & Hrun & Hcomposing & Hfetching).
  rewrite Hrun. cbn [fst snd].
  assert (Hall : forallb (readiness_and_composing el)
            (snd (waitForGeminiReady P Pl w) ++
             [ ConsoleLog "Gemini is ready, input area found:" [AElem el];
               Act (Elapse 1000); Act RemoveAllOverlays; Act (ShowOverlay TypingOverlay);
               ConsoleLog "Step 1: Typing @SynthID query..." [] ] ++
             (composing ++ typing_events el QUESTION ++
              [ConsoleLog "Step 7: Typed question" []; ConsoleLog "=== FINISHED ===" []]) ++
             [ ConsoleLog "Query typed successfully" [];
               Act (Elapse 500); Act (ShowOverlay UploadingOverlay);
               ConsoleLog "Step 2: Fetching image..." [] ] ++
             (ConsoleLog "Attempting to fetch image:" [AStr (imageUrl pendingImage)] ::
              ConsoleLog "Trying background script fetch..." [] ::
              SendMessage (FETCH_IMAGE (imageUrl pendingImage)) :: fetched) ++
             failure_report DOWNLOAD_ERROR) = true).
  { rewrite !forallb_app in *. rewrite !andb_true_iff in *.
    destruct Hcomposing as (Hc1 & Hc2 & _).
    repeat split; try reflexivity.
    - eapply forallb_impl; [apply waits_readiness|].
      apply (behaves_events Pl _ _ _ w (waitForGeminiReady_behaves P Pl)).
    - eapply forallb_impl; [apply composing_readiness|exact Hc1].
    - eapply forallb_impl; [apply composing_readiness|exact Hc2].
    - cbn [forallb]. eapply forallb_impl; [apply fetching_readiness|exact Hfetching]. }
  split; [reflexivity|]. split; [|split; [exact Hall|split]].
  - eexists. rewrite !app_assoc. reflexivity.
  - eapply forallb_impl; [|exact Hall].
    intros e. unfold readiness_and_composing, composing_in. by_cases_on_event e.
  - exists (snd (waitForGeminiReady P Pl w) ++
            [ ConsoleLog "Gemini is ready, input area found:" [AElem el];
              Act (Elapse 1000); Act RemoveAllOverlays; Act (ShowOverlay TypingOverlay);
              ConsoleLog "Step 1: Typing @SynthID query..." [] ] ++ composing),
           ([ConsoleLog "Step 7: Typed question" []; ConsoleLog "=== FINISHED ===" []] ++
            [ ConsoleLog "Query typed successfully" [];
              Act (Elapse 500); Act (ShowOverlay UploadingOverlay);
              ConsoleLog "Step 2: Fetching image..." [];
              ConsoleLog "Attempting to fetch image:" [AStr (imageUrl pendingImage)];
              ConsoleLog "Trying background script fetch..." [] ]),
           (fetched ++ failure_report DOWNLOAD_ERROR).
    repeat rewrite <- app_assoc. reflexivity.
Qed.

End WithHost.

Lemma stale_check_is_dropped_witness :
  main Scenario.static_page Scenario.online (Scenario.world Scenario.with_input 40000) =
  (Ok tt, [ ConsoleLog "Content script loaded on Gemini" [];
            SendMessage GET_PENDING_IMAGE;
            ConsoleLog "Pending image is too old, ignoring" [] ]).
Proof.
  apply (stale_check_is_dropped Scenario.static_page Scenario.online
           (Scenario.world Scenario.with_input 40000) Scenario.cat).
  - vm_compute. reflexivity.
  - vm_compute. reflexivity.
Defined.

Section OnToyPages.
Import Scenario.

Lemma offline_fetch_fails : fetch_fails offline cat_url.
Proof. split; reflexivity. Qed.

(** C1, as stated, fails: on a page with a visible input and no network,
    the run that ends with the Failed event has typed into the input. *)
Lemma scenario_B_typing_precedes_failure :
  ~ scenario_B_as_stated static_page offline cat (world with_input 2000).
Proof.
  intros H. destruct (H offline_fetch_fails) as [_ Hquiet].
  vm_compute in Hquiet. discriminate.
Qed.

Example scenario_B_types_the_mention :
  In (Act (ExecInsertText "@"))
     (snd (process static_page offline cat (world with_input 2000))) /\
  last (snd (process static_page offline cat (world with_input 2000)))
    = Some (SendMessage (CHECK_ERROR DOWNLOAD_ERROR)).
Proof.
  split; vm_compute; [|reflexivity].
  repeat (first [left; reflexivity | right]).
Qed.

Lemma fetch_failure_is_reported_witness :
  fst (process static_page offline cat (world with_input 2000)) = Ok tt /\
  forallb (fun e => negb (is_injection e))
          (snd (process static_page offline cat (world with_input 2000))) = true.
Proof.
  assert (Hready : fst (waitForGeminiReady static_page offline (world with_input 2000))
                   = Ok 1%nat) by (vm_compute; reflexivity).
  destruct (fetch_failure_is_reported static_page offline cat (world with_input 2000) 1%nat
              Hready offline_fetch_fails) as (H1 & _ & _ & H2 & _).
  exact (conj H1 H2).
Defined.

Lemma send_miss_degrades_gracefully_witness :
  fst (clickSendButton static_page online
         (advance static_page online (world with_input 2000)
            (snd (prepare static_page online cat (world with_input 2000))))) = Ok false /\
  last (snd (process static_page online cat (world with_input 2000)))
    = Some (SendMessage (CHECK_COMPLETE true)).
Proof.
  assert (Hprep : prepare static_page online cat (world with_input 2000) =
                  (Ok tt, snd (prepare static_page online cat (world with_input 2000))))
    by (vm_compute; reflexivity).
  assert (Hnone : no_send_heuristic static_page
                    (page static_page
                       (advance static_page online (world with_input 2000)
                          (snd (prepare static_page online cat (world with_input 2000)))))
                  = true) by (vm_compute; reflexivity).
  destruct (send_miss_degrades_gracefully static_page online cat (world with_input 2000)
              _ Hprep Hnone) as (H1 & _).
  split; [exact H1|]. vm_compute. reflexivity.
Defined.

(** C8 on the code.  On a page whose only editable element is a hidden
    [div], the scan skips it for its size, the selector chain that runs
    next returns it all the same, and the detector answers with an
    element that is 0 by 0. *)
Theorem selector_fallback_returns_hidden_input :
  let w := world with_hidden_div 2000 in
  fst (waitForGeminiReady static_page offline w) = Ok 1%nat /\
  getBoundingClientRect static_page with_hidden_div 1%nat = box 0 0 /\
  Readiness.large_enough (box 0 0) = false /\
  ~ locator_size_claim static_page offline w.
Proof.
  cbv zeta. split; [vm_compute; reflexivity|]. split; [reflexivity|].
  split; [reflexivity|].
  intros H. specialize (H 1%nat ltac:(vm_compute; reflexivity)).
  vm_compute in H. discriminate.
Qed.

End OnToyPages.

(** The scan of the polling loop does apply the size test. *)
Lemma scan_accepts_only_large (P : Page) (d : Dom P) (candidates : list Element) el :
  find (fun el =>
          let rect := getBoundingClientRect P d el in
          (rect_width rect >? 100) && (rect_height rect >? 20)) candidates = Some el ->
  Readiness.large_enough (getBoundingClientRect P d el) = true.
Proof. intros H. apply find_some in H as [_ H]. exact H. Qed.

Example fresh_check_is_processed :
  In (Act (ShowOverlay TypingOverlay))
     (snd (main Scenario.static_page Scenario.online (Scenario.world Scenario.with_input 2000))).
Proof. vm_compute. tauto. Qed.

End RunFacts.

(** * Further properties *)

(** ** The click handler of the service worker *)
Module ContextMenuFacts.
Import Background ContextMenu.

Lemma prefix_app p : forall s,
  String.prefix p s = true <-> exists rest, s = p +:+ rest.
Proof.
  induction p as [|a p IH]; intros s; simpl.
  - split; [intros _; exists s; reflexivity | destruct s; reflexivity].
  - destruct s as [|b s]; simpl.
    + split; [discriminate | intros [rest H]; discriminate].
    + destruct (ascii_dec a b) as [->|Hne].
      * rewrite IH. split; intros [rest H]; exists rest.
        -- rewrite H. reflexivity.
        -- change (String b s = String b (p +:+ rest)) in H. congruence.
      * split; [discriminate|]. intros [rest H].
        change (String b s = String a (p +:+ rest)) in H. congruence.
Qed.

Lemma prefix_cons a p b s :
  String.prefix (String a p) (String b s) = if ascii_dec a b then String.prefix p s else false.
Proof. reflexivity. Qed.

Lemma isValidWebUrl_eq url :
  isValidWebUrl url = JS.startsWith "http://" url || JS.startsWith "https://" url.
Proof.
  unfold isValidWebUrl, JS.startsWith.
  destruct url as [|c url]; [reflexivity|].
  cbn [JS.truthy negb].
  destruct (ascii_dec "h" c) as [<-|Hne].
  - reflexivity.
  - assert (H1 : String.prefix "http://" (String c url) = false).
    { rewrite prefix_cons. destruct (ascii_dec "h" c); [contradiction | reflexivity]. }
    assert (H2 : String.prefix "https://" (String c url) = false).
    { rewrite prefix_cons. destruct (ascii_dec "h" c); [contradiction | reflexivity]. }
    rewrite H1, H2.
    repeat match goal with |- context [if ?b then _ else _] => destruct b end; reflexivity.
Qed.

(** X1.  [isValidWebUrl] accepts exactly the URLs that begin with
    "http://" or "https://".  The empty URL and the data, file and blob
    URLs its first tests turn down are among those it would turn down
    anyway. *)
Theorem isValidWebUrl_http_only (url : string) :
  (isValidWebUrl url = true <->
   exists rest, url = "http://" +:+ rest \/ url = "https://" +:+ rest) /\
  isValidWebUrl EmptyString = false /\
  (forall rest, isValidWebUrl ("data:" +:+ rest) = false /\
                isValidWebUrl ("file://" +:+ rest) = false /\
                isValidWebUrl ("blob:" +:+ rest) = false).
Proof.
  split; [|split; [reflexivity|]].
  2: { intros rest. repeat split; rewrite isValidWebUrl_eq; unfold JS.startsWith;
         match goal with
         | |- context [String ?c ?s +:+ rest] =>
             change (String c s +:+ rest) with (String c (s +:+ rest))
         end; rewrite !prefix_cons; reflexivity. }
  rewrite isValidWebUrl_eq, orb_true_iff. unfold JS.startsWith. rewrite !prefix_app.
  split.
  - intros [[rest H]|[rest H]]; exists rest; auto.
  - intros [rest [H|H]]; [left | right]; exists rest; exact H.
Qed.

Lemma showNotification_calls B title message c :
  In c (showNotification B title message) ->
  is_tabs_create c = false /\ is_storage_set c = false.
Proof.
  unfold showNotification. destruct (activeTab B); [|intros []].
  destruct (executeScript_ok B); simpl; intuition (subst; reflexivity).
Qed.

Lemma showNotification_no_tab B title message url active :
  ~ In (TabsCreate url active) (showNotification B title message).
Proof.
  intros H. apply showNotification_calls in H as [H _]. discriminate.
Qed.

Lemma showNotification_no_set B title message key record :
  ~ In (StorageSet key record) (showNotification B title message).
Proof.
  intros H. apply showNotification_calls in H as [_ H]. discriminate.
Qed.

Lemma alerts_requested_app calls1 calls2 :
  alerts_requested (calls1 ++ calls2) = alerts_requested calls1 ++ alerts_requested calls2.
Proof. apply omap_app. Qed.

Lemma showNotification_notified B title message before :
  alerts_requested before = [] ->
  ~ In (WorkerLog "Opened Gemini tab:") before ->
  notified B (before ++ showNotification B title message).
Proof.
  intros Hnone Hlog. unfold notified, alerts_shown.
  rewrite alerts_requested_app, Hnone. unfold showNotification.
  destruct (activeTab B) as [active|].
  - split.
    + intros [H|H]%in_app_or; [exact (Hlog H)|].
      destruct (executeScript_ok B); simpl in H; intuition discriminate.
    + eexists. destruct (executeScript_ok B); cbn [alerts_requested omap list_omap app].
      * split; [reflexivity|]. split; [reflexivity|discriminate].
      * split; [reflexivity|]. split; [discriminate|]. intros _. split; [reflexivity|].
        apply in_or_app. right. right. left. reflexivity.
  - rewrite app_nil_r. split; [exact Hlog | reflexivity].
Qed.

(** X2.  A click on the menu, in tab [tab] or outside any tab.  (1) A
    click on another item does nothing.  (2) The store is left as it
    was, or the record of this click is put under the one key: the URL
    clicked, which is an http or https URL, the time of the click and the
    tab it came from.  (3) A tab is opened only for the Gemini app, only
    after the record has been handed to the store, and then the store
    holds that record.  (4) A click on the item either ends with the log
    of the Gemini tab it opened, and then asks for no alert; or it logs
    no opened tab and, when some tab is active, asks for one alert in
    that tab.  The user sees that alert when [executeScript] goes
    through; when it rejects, the user sees nothing and the rejection is
    written to the console.  With no active tab no alert is asked for.
    (5) When the store accepts the write, the store after the click is
    that of [Background.onClicked].  (6) A click outside any tab stores
    nothing and opens no tab. *)
Theorem menu_click_is_safe (B : Browser) (info : OnClickData) (tab : option Z) (now : Z)
    (store : gmap string PendingCheck) :
  let calls := fst (onMenuClicked B info tab now store) in
  let store' := snd (onMenuClicked B info tab now store) in
  (menuItemId info <> MENU_ITEM -> calls = [] /\ store' = store) /\
  (store' = store \/
   exists url tabId,
     srcUrl info = Some url /\ tab = Some tabId /\ isValidWebUrl url = true /\
     store' = <[KEY := {| imageUrl := url; timestamp := now; sourceTabId := tabId |}]> store) /\
  (forall url active,
     In (TabsCreate url active) calls ->
     url = GEMINI_APP /\ active = true /\
     exists record,
       store' !! KEY = Some record /\ srcUrl info = Some (imageUrl record) /\
       In (StorageSet KEY record) (calls_before is_tabs_create calls)) /\
  (menuItemId info = MENU_ITEM ->
   let opened := In (WorkerLog "Opened Gemini tab:") calls in
   (opened /\ alerts_requested calls = [] /\ alerts_shown B calls = []) \/
   (~ opened /\
    match activeTab B with
    | None => alerts_requested calls = []
    | Some active =>
        exists text,
          alerts_requested calls = [(active, text)] /\
          (executeScript_ok B = true -> alerts_shown B calls = [(active, text)]) /\
          (executeScript_ok B = false ->
           alerts_shown B calls = [] /\
           In (WorkerError "Could not show notification:") calls)
    end)) /\
  (forall url tabId,
     menuItemId info = MENU_ITEM -> srcUrl info = Some url -> tab = Some tabId ->
     storage_set_ok B = true ->
     store' = Background.onClicked url tabId now store) /\
  (tab = None ->
   store' = store /\
   forall c, In c calls -> is_tabs_create c = false /\ is_storage_set c = false).
Proof.
  cbv zeta. unfold onMenuClicked.
  destruct (String.eqb_spec (menuItemId info) MENU_ITEM) as [Hitem|Hitem]; cbn [negb].
  2: { cbn [fst snd]. split; [intros _; split; reflexivity|]. split; [now left|].
       split; [intros url active []|]. split; [intros H; contradiction|].
       split; [intros url tabId H; contradiction|].
       intros _. split; [reflexivity | intros c []]. }
  (* the paths that end in a notification and leave the store alone *)
  assert (Hnote : forall before title message,
            alerts_requested before = [] ->
            ~ In (WorkerLog "Opened Gemini tab:") before ->
            Forall (fun c => is_tabs_create c = false) before ->
            let calls := before ++ showNotification B title message in
            (store = store \/
             exists url tabId,
               srcUrl info = Some url /\ tab = Some tabId /\ isValidWebUrl url = true /\
               store = <[KEY := {| imageUrl := url; timestamp := now;
                                   sourceTabId := tabId |}]> store) /\
            (forall url active,
               In (TabsCreate url active) calls ->
               url = GEMINI_APP /\ active = true /\
               exists record,
                 store !! KEY = Some record /\ srcUrl info = Some (imageUrl record) /\
                 In (StorageSet KEY record) (calls_before is_tabs_create calls)) /\
            (menuItemId info = MENU_ITEM ->
             (In (WorkerLog "Opened Gemini tab:") calls /\
              alerts_requested calls = [] /\ alerts_shown B calls = []) \/
             (~ In (WorkerLog "Opened Gemini tab:") calls /\
              match activeTab B with
              | None => alerts_requested calls = []
              | Some active =>
                  exists text,
                    alerts_requested calls = [(active, text)] /\
                    (executeScript_ok B = true -> alerts_shown B calls = [(active, text)]) /\
                    (executeScript_ok B = false ->
                     alerts_shown B calls = [] /\
                     In (WorkerError "Could not show notification:") calls)
              end))).
  { intros before title message Hnone Hlog Hbefore. cbv zeta.
    split; [now left|]. split.
    - intros url active [H|H]%in_app_or.
      + rewrite List.Forall_forall in Hbefore. specialize (Hbefore _ H). discriminate.
      + exfalso. exact (showNotification_no_tab _ _ _ _ _ H).
    - intros _. right. exact (showNotification_notified B title message before Hnone Hlog). }
  destruct (srcUrl info) as [url|] eqn:Hsrc.
  2: { cbn [fst snd]. split; [contradiction|].
       destruct (Hnote [] "Error" "Could not detect image URL. Please try another image."
                   eq_refl (fun H => H) (List.Forall_nil _)) as (H2 & H3 & H4).
       cbn [app] in *. split; [exact H2|]. split; [exact H3|]. split; [exact H4|].
       split; [intros u tabId _ H; discriminate|].
       intros _. split; [reflexivity|]. intros c. apply showNotification_calls. }
  destruct (JS.truthy url) eqn:Htruthy; cbn [negb].
  2: { cbn [fst snd]. split; [contradiction|].
       destruct (Hnote [] "Error" "Could not detect image URL. Please try another image."
                   eq_refl (fun H => H) (List.Forall_nil _)) as (H2 & H3 & H4).
       cbn [app] in *. split; [exact H2|]. split; [exact H3|]. split; [exact H4|].
       split.
       - intros u tabId _ [= <-] _ _. destruct url; [|discriminate]. reflexivity.
       - intros _. split; [reflexivity|]. intros c. apply showNotification_calls. }
  destruct (isValidWebUrl url) eqn:Hvalid; cbn [negb].
  2: { cbn [fst snd]. split; [contradiction|].
       destruct (Hnote [] "Unsupported Image"
                   "This image type is not supported. Please try an image from a website."
                   eq_refl (fun H => H) (List.Forall_nil _)) as (H2 & H3 & H4).
       cbn [app] in *. split; [exact H2|]. split; [exact H3|]. split; [exact H4|].
       split.
       - intros u tabId _ [= <-] _ _. unfold Background.onClicked. rewrite Hvalid. reflexivity.
       - intros _. split; [reflexivity|]. intros c. apply showNotification_calls. }
  destruct tab as [tabId|].
  2: { cbn [fst snd]. split; [contradiction|].
       destruct (Hnote [WorkerLog "Checking image:"; WorkerError "Error:"]
                   "Error" "Something went wrong. Please try again." eq_refl)
         as (H2 & H3 & H4).
       { cbn. intuition discriminate. }
       { repeat constructor. }
       cbn [app] in *. split; [exact H2|]. split; [exact H3|]. split; [exact H4|].
       split; [intros u t _ _ H; discriminate|].
       intros _. split; [reflexivity|].
       intros c [<-|[<-|H]]; [split; reflexivity..|].
       exact (showNotification_calls _ _ _ _ H). }
  destruct (storage_set_ok B) eqn:Hset; cbn [fst snd].
  - split; [contradiction|]. split; [right; exists url, tabId; auto|].
    destruct (tabs_create B) as [id|].
    + split; [|split; [|split; [|discriminate]]].
      * intros u active [H|[H|[H|[H|[]]]]]; try discriminate.
        injection H as <- <-. split; [reflexivity|]. split; [reflexivity|].
        eexists. split; [apply lookup_insert_eq|]. split; [reflexivity|].
        simpl. right. left. reflexivity.
      * intros _. left. split; [simpl; tauto|]. split; [reflexivity|].
        unfold alerts_shown. destruct (executeScript_ok B); reflexivity.
      * intros u t _ [= <-] [= <-] _. unfold Background.onClicked. rewrite Hvalid. reflexivity.
    + split; [|split; [|split; [|discriminate]]].
      * intros u active [H|[H|[H|[H|H]]]]; try discriminate.
        -- injection H as <- <-. split; [reflexivity|]. split; [reflexivity|].
           eexists. split; [apply lookup_insert_eq|]. split; [reflexivity|].
           simpl. right. left. reflexivity.
        -- exfalso. exact (showNotification_no_tab _ _ _ _ _ H).
      * intros _. right.
        exact (showNotification_notified B "Error" "Something went wrong. Please try again."
                 [ WorkerLog "Checking image:";
                   StorageSet KEY {| imageUrl := url; timestamp := now; sourceTabId := tabId |};
                   TabsCreate GEMINI_APP true; WorkerError "Error:" ]
                 eq_refl ltac:(cbn; intuition discriminate)).
      * intros u t _ [= <-] [= <-] _. unfold Background.onClicked. rewrite Hvalid. reflexivity.
  - split; [contradiction|]. split; [now left|]. split; [|split; [|split; [|discriminate]]].
    + intros u active [H|[H|[H|H]]]; try discriminate.
      exfalso. exact (showNotification_no_tab _ _ _ _ _ H).
    + intros _. right.
      exact (showNotification_notified B "Error" "Something went wrong. Please try again."
               [ WorkerLog "Checking image:";
                 StorageSet KEY {| imageUrl := url; timestamp := now; sourceTabId := tabId |};
                 WorkerError "Error:" ]
               eq_refl ltac:(cbn; intuition discriminate)).
    + intros u t _ _ _ H. discriminate.
Qed.

Example cat_click_is_stored :
  onMenuClicked Samples.willing Samples.cat_click (Some 7) 1000 ∅ =
  ([ WorkerLog "Checking image:";
     StorageSet KEY Scenario.cat;
     TabsCreate GEMINI_APP true;
     WorkerLog "Opened Gemini tab:" ],
   Scenario.stored).
Proof. reflexivity. Qed.

(** A click on an image of a page whose [executeScript] rejects, with no
    image URL: an alert is asked for, none is shown, the rejection is
    logged. *)
Example failed_alert_is_logged :
  let B := {| activeTab := Some 7; executeScript_ok := false;
              storage_set_ok := true; tabs_create := Some 8 |} in
  let calls := fst (onMenuClicked B {| menuItemId := MENU_ITEM; srcUrl := None |}
                      (Some 7) 1000 ∅) in
  alerts_requested calls =
    [(7, "Error" +:+ NEWLINE +:+ NEWLINE +:+
         "Could not detect image URL. Please try another image.")] /\
  alerts_shown B calls = [] /\
  last calls = Some (WorkerError "Could not show notification:").
Proof. cbv zeta. repeat split. Qed.

End ContextMenuFacts.

(** ** How a run begins *)
Module PickupFacts.
Import Content Monitor Events MonitorFacts ProcedureFacts Pickup.
Section WithHost.
Context (P : Page) (Pl : Platform).

Lemma getPendingImage_eq (w : World P) :
  getPendingImage P Pl w = (Ok (picked_up Pl w), [SendMessage GET_PENDING_IMAGE]).
Proof.
  unfold getPendingImage, picked_up, bind, sendMessage, ret. cbn.
  destruct (lastError Pl GET_PENDING_IMAGE); [reflexivity|].
  destruct (storage P w !! Background.KEY); reflexivity.
Qed.

(** The three ways of [main]. *)
Lemma main_eq (w : World P) :
  main P Pl w =
  match picked_up Pl w with
  | None => (Ok tt, greeting ++ [ConsoleLog "No pending image check, exiting" []])
  | Some pendingImage =>
      if now P w - timestamp pendingImage >? 30000
      then (Ok tt, greeting ++ [ConsoleLog "Pending image is too old, ignoring" []])
      else
        let run := process P Pl pendingImage
                     (advance P Pl w (greeting ++ announcement pendingImage)) in
        (fst run, greeting ++ announcement pendingImage ++ snd run)
  end.
Proof.
  unfold main. unfold bind at 1. unfold log, emit. cbn [advance fold_left apply_event].
  unfold bind at 1. rewrite getPendingImage_eq.
  destruct (picked_up Pl w) as [pendingImage|]; [|reflexivity].
  unfold bind at 1. unfold Date_now.
  assert (Hnow : now P (advance P Pl w [SendMessage GET_PENDING_IMAGE]) = now P w).
  { cbn. destruct (lastError Pl GET_PENDING_IMAGE); reflexivity. }
  rewrite Hnow.
  destruct (now P w - timestamp pendingImage >? 30000); [reflexivity|].
  unfold bind, showLoadingOverlay, showTypingOverlay, act, emit.
  cbn -[process apply_event].
  destruct (process P Pl pendingImage _) as [r events]. reflexivity.
Qed.




(** X3.  When there is nothing to pick up, because nothing is stored or
    because the request is not delivered, the script logs that it is
    loaded, asks for the pending image, logs that there is none, and
    exits: it does nothing to the page, waits for nothing, reports
    nothing, and leaves the world (clock, page and store) as it was. *)
Theorem no_pending_check_does_nothing (w : World P) :
  picked_up Pl w = None ->
  main P Pl w =
    (Ok tt, [ ConsoleLog "Content script loaded on Gemini" [];
              SendMessage GET_PENDING_IMAGE;
              ConsoleLog "No pending image check, exiting" [] ]) /\
  forallb (fun e => negb (is_dom_action e) && negb (is_wait e) && negb (is_outbound e))
          (snd (main P Pl w)) = true /\
  advance P Pl w (snd (main P Pl w)) = w.
Proof.
  intros Hnone. rewrite main_eq, Hnone. split; [reflexivity|]. split; [reflexivity|].
  cbn. unfold picked_up in Hnone.
  destruct (lastError Pl GET_PENDING_IMAGE); [reflexivity|].
  rewrite Hnone. destruct w; reflexivity.
Qed.


(** X5.  From the click to the content script.  Suppose the menu item is
    clicked at [clickTime] on an image with an http or https URL, the
    store accepts the record, and the content script then starts in a
    world with that store.  If more than 30 000 ms have passed since the
    click, the run drops the check.  Otherwise it announces and processes
    the record of that click: the URL clicked, the time of the click and
    the tab clicked in. *)
Theorem click_reaches_content_script (B : ContextMenu.Browser)
    (info : ContextMenu.OnClickData) (tabId clickTime : Z)
    (store : gmap string PendingCheck) (url : string) (w : World P) :
  ContextMenu.menuItemId info = ContextMenu.MENU_ITEM ->
  ContextMenu.srcUrl info = Some url ->
  Background.isValidWebUrl url = true ->
  ContextMenu.storage_set_ok B = true ->
  storage P w = snd (ContextMenu.onMenuClicked B info (Some tabId) clickTime store) ->
  lastError Pl GET_PENDING_IMAGE = None ->
  let pendingImage := {| imageUrl := url; timestamp := clickTime; sourceTabId := tabId |} in
  main P Pl w =
    if now P w - clickTime >? 30000
    then (Ok tt, greeting ++ [ConsoleLog "Pending image is too old, ignoring" []])
    else
      let run := process P Pl pendingImage
                   (advance P Pl w (greeting ++ announcement pendingImage)) in
      (fst run, greeting ++ announcement pendingImage ++ snd run).
Proof.
  intros Hitem Hsrc Hvalid Hset Hstore Hdelivered. cbv zeta.
  assert (Hpick : picked_up Pl w =
                  Some {| imageUrl := url; timestamp := clickTime; sourceTabId := tabId |}).
  { unfold picked_up. rewrite Hdelivered, Hstore. unfold ContextMenu.onMenuClicked.
    rewrite Hitem, String.eqb_refl, Hsrc. cbn [negb].
    assert (Htruthy : JS.truthy url = true).
    { destruct url; [discriminate Hvalid | reflexivity]. }
    rewrite Htruthy, Hvalid, Hset. cbn [negb snd]. apply lookup_insert_eq. }
  rewrite main_eq, Hpick. reflexivity.
Qed.

End WithHost.

Section OnToyPages.
Import Scenario Samples.

Lemma no_pending_check_does_nothing_witness :
  main static_page online (idle_world with_input 2000) =
  (Ok tt, [ ConsoleLog "Content script loaded on Gemini" [];
            SendMessage GET_PENDING_IMAGE;
            ConsoleLog "No pending image check, exiting" [] ]).
Proof.
  apply (no_pending_check_does_nothing static_page online (idle_world with_input 2000)).
  reflexivity.
Defined.


Lemma click_reaches_content_script_witness :
  main static_page online (world with_input 2000) =
  (fst (process static_page online cat
          (advance static_page online (world with_input 2000) (greeting ++ announcement cat))),
   greeting ++ announcement cat ++
   snd (process static_page online cat
          (advance static_page online (world with_input 2000) (greeting ++ announcement cat)))).
Proof.
  exact (click_reaches_content_script static_page online willing cat_click 7 1000 ∅ cat_url
           (world with_input 2000) eq_refl eq_refl eq_refl eq_refl eq_refl eq_refl).
Defined.

End OnToyPages.
End PickupFacts.

(** ** How a run ends *)
Module ReportFacts.
Import Content Monitor Events MonitorFacts ProcedureFacts Orchestration Reporting.
Section WithHost.
Context (P : Page) (Pl : Platform).

Lemma behaves_both {A} allowed (R R' : Result A -> Prop) (m : M P A) :
  behaves Pl allowed R m -> (forall w, R' (fst (m w))) ->
  behaves Pl allowed (fun r => R r /\ R' r) m.
Proof.
  intros H H'. apply behaves_spec. intros w.
  destruct (proj1 (behaves_spec _ _ _ _) H w) as [H1 H2]. auto.
Qed.

Lemma readiness_loop_outcome startTime (w : World P) :
  returns (fst (readiness_loop P Pl startTime w)) \/
  fst (readiness_loop P Pl startTime w) = Throw TIMEOUT_MESSAGE.
Proof.
  funelim (readiness_loop P Pl startTime w).
  - right. reflexivity.
  - left. eexists. reflexivity.
  - destruct (readiness_loop P Pl startTime _) as [r events]. exact H.
Qed.

Lemma waitForGeminiReady_outcome (w : World P) :
  returns (fst (waitForGeminiReady P Pl w)) \/
  fst (waitForGeminiReady P Pl w) = Throw TIMEOUT_MESSAGE.
Proof.
  rewrite ReadinessFacts.waitForGeminiReady_eq. cbv zeta. cbn [fst].
  apply readiness_loop_outcome.
Qed.

Lemma fetchImage_outcome url (w : World P) :
  returns (fst (fetchImage P Pl url w)) \/ fst (fetchImage P Pl url w) = Throw DOWNLOAD_ERROR.
Proof.
  destruct (FetchFacts.fetchImage_run P Pl url w) as (rest & -> & _). cbn [fst].
  destruct (Fetching.privileged_blob Pl url); [left; eexists; reflexivity|].
  destruct (Fetching.direct_blob Pl url); [left; eexists; reflexivity|].
  right. reflexivity.
Qed.

(** Up to the send step: only what a working run emits, and no error but
    the timeout of the detector and the failure of the download. *)
Lemma prepare_outcome pendingImage :
  behaves Pl working
    (fun r => r = Ok tt \/ exists message, r = Throw message /\ known_error message)
    (prepare P Pl pendingImage).
Proof.
  intros w. unfold prepare. sat_run.
  eapply sat_conseq.
  { eapply behaves_weaken;
      [apply (behaves_both _ _ (fun r => returns r \/ r = Throw TIMEOUT_MESSAGE) _
                (waitForGeminiReady_behaves P Pl) waitForGeminiReady_outcome)
      |apply RunFacts.waits_working|intros r H; exact (proj2 H)]. }
  intros r [] w1 [[inputArea ->]| ->];
    [|right; eexists; split; [reflexivity | left; reflexivity]].
  cbv beta iota. sat_run.
  eapply sat_conseq.
  { eapply behaves_weaken with (R' := fun r => r = Ok tt);
      [apply typeSynthIDQuery_behaves|apply RunFacts.composing_working|auto]. }
  intros r [] w2 ->. cbv beta iota. sat_run.
  eapply sat_conseq.
  { eapply behaves_weaken;
      [apply (behaves_both _ _ (fun r => returns r \/ r = Throw DOWNLOAD_ERROR) _
                (fetchImage_behaves P Pl (imageUrl pendingImage))
                (fetchImage_outcome (imageUrl pendingImage)))
      |apply RunFacts.fetching_working|intros r H; exact (proj2 H)]. }
  intros r [] w3 [[imageBlob ->]| ->];
    [|right; eexists; split; [reflexivity | right; reflexivity]].
  cbv beta iota. sat_run.
  eapply sat_conseq.
  { eapply behaves_weaken with (R' := fun r => r = Ok tt);
      [apply uploadImageToGemini_behaves|apply RunFacts.uploading_working|auto]. }
  intros r [] w4 ->. cbv beta iota. sat_run.
  eapply sat_conseq.
  { eapply behaves_weaken with (R' := returns);
      [apply checkForUploadedImage_behaves|apply RunFacts.console_working|auto]. }
  intros r [] w5 [imageUploaded ->]. cbv beta iota. sat_run.
  destruct imageUploaded; cbn [negb]; sat_run; left; reflexivity.
Qed.

Lemma process_eq (pendingImage : PendingCheck) (w : World P) :
  process P Pl pendingImage w =
  match prepare P Pl pendingImage w with
  | (Ok _, before) =>
      match clickSendButton P Pl (advance P Pl w before) with
      | (Ok sent, looking) => (Ok tt, before ++ looking ++ success_report sent)
      | (Throw message, looking) => (Ok tt, before ++ looking ++ failure_report message)
      end
  | (Throw message, before) => (Ok tt, before ++ failure_report message)
  end.
Proof.
  unfold process, try_catch, send_and_report. unfold bind at 1.
  destruct (prepare P Pl pendingImage w) as [[[]|message] before].
  - unfold bind at 1.
    destruct (clickSendButton P Pl (advance P Pl w before)) as [[sent|message] looking].
    + unfold bind, hideSendingOverlay, removeAllOverlays, showCompletionAnimation,
        showManualSendPrompt, act, emit, sendMessage, ret.
      cbn -[advance]. destruct sent; reflexivity.
    + unfold bind, hideLoadingOverlay, removeAllOverlays, showErrorMessage, act, emit,
        sendMessage, ret.
      cbn -[advance]. rewrite <- app_assoc. reflexivity.
  - unfold bind, hideLoadingOverlay, removeAllOverlays, showErrorMessage, act, emit,
      sendMessage, ret.
    cbn -[advance]. reflexivity.
Qed.

(** The two ways of [process]: through the send step, or into the
    [catch] block from an error on the way there. *)
Lemma process_shape (pendingImage : PendingCheck) (w : World P) :
  let prep := prepare P Pl pendingImage w in
  forallb working (snd prep) = true /\
  ((fst prep = Ok tt /\
    exists sent looking,
      clickSendButton P Pl (advance P Pl w (snd prep)) = (Ok sent, looking) /\
      forallb pressing_send looking = true /\
      process P Pl pendingImage w = (Ok tt, snd prep ++ looking ++ success_report sent)) \/
   (exists message,
      fst prep = Throw message /\ known_error message /\
      process P Pl pendingImage w = (Ok tt, snd prep ++ failure_report message))).
Proof.
  cbv zeta. rewrite process_eq.
  destruct (proj1 (behaves_spec _ _ _ _) (prepare_outcome pendingImage) w) as [Hw Hr].
  destruct (prepare P Pl pendingImage w) as [r before]. cbn [fst snd] in *.
  split; [exact Hw|].
  destruct Hr as [->|(message & -> & Hknown)].
  - left. split; [reflexivity|].
    destruct (proj1 (behaves_spec _ _ _ _) (clickSendButton_behaves P Pl)
                (advance P Pl w before)) as [Hs [sent Hsent]].
    destruct (clickSendButton P Pl (advance P Pl w before)) as [r looking].
    cbn [fst snd] in *. subst r.
    exists sent, looking. auto.
  - right. exists message. auto.
Qed.

Lemma working_not_outbound e : working e = true -> is_outbound e = false.
Proof. by_cases_on_event e. Qed.

Lemma filter_working before :
  forallb working before = true -> List.filter is_outbound before = [].
Proof.
  intros H. apply BackgroundFacts.filter_none.
  rewrite forallb_forall in H. apply List.Forall_forall. intros e He.
  apply working_not_outbound, H, He.
Qed.

(** X6.  Every run that takes up a check returns normally and ends with
    one report to the service worker, and that report is the only
    outbound event of the run.  Either the run removes the overlays,
    shows the completion animation or the prompt to press send, and sends
    Complete; or it logs the error, removes the overlays, shows the error
    dialog and sends Failed with the same message as the dialog.  The
    errors reported are the two the script raises itself: the timeout of
    the readiness detector and the failure of the download. *)
Theorem run_ends_with_one_report (pendingImage : PendingCheck) (w : World P) :
  let run := process P Pl pendingImage w in
  fst run = Ok tt /\
  (exists before ending,
     snd run = before ++ ending /\
     forallb working before = true /\
     ((exists sent, ending = success_report sent) \/
      (exists message, ending = failure_report message /\ known_error message))) /\
  (exists report,
     List.filter is_outbound (snd run) = [SendMessage report] /\
     last (snd run) = Some (SendMessage report) /\
     (report = CHECK_COMPLETE true \/
      report = CHECK_ERROR TIMEOUT_MESSAGE \/ report = CHECK_ERROR DOWNLOAD_ERROR)).
Proof.
  cbv zeta.
  assert (Hshape : exists before ending,
            process P Pl pendingImage w = (Ok tt, before ++ ending) /\
            forallb working before = true /\
            ((exists sent, ending = success_report sent) \/
             (exists message, ending = failure_report message /\ known_error message))).
  { destruct (process_shape pendingImage w) as (Hw & [(_ & sent & looking & _ & Hs & Hrun)|
                                                     (message & _ & Hknown & Hrun)]).
    - exists (snd (prepare P Pl pendingImage w) ++ looking), (success_report sent).
      split; [rewrite Hrun, <- app_assoc; reflexivity|]. split; [|left; eauto].
      rewrite forallb_app, Hw. simpl.
      eapply RunFacts.forallb_impl; [apply RunFacts.pressing_send_working | exact Hs].
    - exists (snd (prepare P Pl pendingImage w)), (failure_report message).
      split; [exact Hrun|]. split; [exact Hw|]. right. eauto. }
  destruct Hshape as (before & ending & -> & Hw & Hend).
  cbn [fst snd]. split; [reflexivity|]. split.
  - exists before, ending. auto.
  - rewrite List.filter_app, (filter_working _ Hw). cbn [app].
    destruct Hend as [[sent ->]|(message & -> & Hknown)].
    + exists (CHECK_COMPLETE true). split; [destruct sent; reflexivity|].
      split; [|left; reflexivity].
      unfold success_report.
      change [Act RemoveAllOverlays;
              Act (ShowOverlay (if sent then CompletionAnimation else ManualSendPrompt));
              SendMessage (CHECK_COMPLETE true)]
        with ([Act RemoveAllOverlays;
               Act (ShowOverlay (if sent then CompletionAnimation else ManualSendPrompt))]
              ++ [SendMessage (CHECK_COMPLETE true)]).
      rewrite app_assoc. apply last_snoc.
    + exists (CHECK_ERROR message). split; [reflexivity|]. split.
      * unfold failure_report.
        change [ConsoleError "Error:" [AStr message]; Act RemoveAllOverlays;
                Act (ShowOverlay (ErrorMessage message)); SendMessage (CHECK_ERROR message)]
          with ([ConsoleError "Error:" [AStr message]; Act RemoveAllOverlays;
                 Act (ShowOverlay (ErrorMessage message))]
                ++ [SendMessage (CHECK_ERROR message)]).
        rewrite app_assoc. apply last_snoc.
      * right. destruct Hknown as [->| ->]; auto.
Qed.

(** X7.  When the readiness detector gives up, the error is the timeout,
    and the run consists of the detector's console lines and waits
    followed by the error report: nothing is typed, fetched, uploaded or
    clicked, and the only things done to the page are the removal of the
    overlays and the error dialog. *)
Theorem readiness_timeout_is_reported (pendingImage : PendingCheck) (w : World P)
    (message : string) :
  fst (waitForGeminiReady P Pl w) = Throw message ->
  message = TIMEOUT_MESSAGE /\
  process P Pl pendingImage w =
    (Ok tt, snd (waitForGeminiReady P Pl w) ++ failure_report TIMEOUT_MESSAGE) /\
  forallb waits_and_logs (snd (waitForGeminiReady P Pl w)) = true /\
  forallb only_readiness (snd (process P Pl pendingImage w)) = true.
Proof.
  intros Hthrow.
  assert (Hmessage : message = TIMEOUT_MESSAGE).
  { destruct (waitForGeminiReady_outcome w) as [[el H]|H]; congruence. }
  subst message.
  pose proof (behaves_events Pl _ _ _ w (waitForGeminiReady_behaves P Pl)) as Hquiet.
  assert (Hrun : process P Pl pendingImage w =
                 (Ok tt, snd (waitForGeminiReady P Pl w) ++ failure_report TIMEOUT_MESSAGE)).
  { unfold process, try_catch. unfold bind at 1. unfold prepare. unfold bind at 1.
    destruct (waitForGeminiReady P Pl w) as [r events]. cbn [fst snd] in *. subst r.
    unfold bind, hideLoadingOverlay, removeAllOverlays, showErrorMessage, act, emit,
      sendMessage, ret.
    cbn -[advance]. reflexivity. }
  split; [reflexivity|]. split; [exact Hrun|]. split; [exact Hquiet|].
  rewrite Hrun. cbn [snd]. rewrite forallb_app. apply andb_true_iff. split; [|reflexivity].
  eapply RunFacts.forallb_impl; [|exact Hquiet].
  intros e. unfold waits_and_logs. by_cases_on_event e.
Qed.

End WithHost.

Lemma readiness_timeout_is_reported_witness :
  process Scenario.static_page Scenario.offline Scenario.cat
    (Scenario.world Scenario.blank 2000) =
  (Ok tt,
   snd (waitForGeminiReady Scenario.static_page Scenario.offline
          (Scenario.world Scenario.blank 2000)) ++
   failure_report TIMEOUT_MESSAGE).
Proof.
  apply (readiness_timeout_is_reported Scenario.static_page Scenario.offline Scenario.cat
           (Scenario.world Scenario.blank 2000) TIMEOUT_MESSAGE).
  vm_compute. reflexivity.
Defined.

End ReportFacts.

(** ** The time a run spends waiting *)
Module TimingFacts.
Import Content Monitor Events MonitorFacts ProcedureFacts Timing.
Section WithHost.
Context (P : Page) (Pl : Platform).

Lemma waited_app l1 l2 : waited (l1 ++ l2) = waited l1 + waited l2.
Proof. induction l1 as [|e l1 IH]; simpl; [reflexivity|]. rewrite IH. lia. Qed.

Lemma waited_quiet (allowed : Event -> bool) events :
  (forall e, allowed e = true -> wait_of e = 0) ->
  forallb allowed events = true -> waited events = 0.
Proof.
  intros Hq. induction events as [|e events IH]; simpl; [reflexivity|].
  intros H. apply andb_true_iff in H as [He H]. rewrite (Hq e He), IH by exact H. reflexivity.
Qed.

Lemma console_takes_no_time e : is_console e = true -> wait_of e = 0.
Proof. destruct e; try discriminate. reflexivity. Qed.

Lemma waited_console logs : forallb is_console logs = true -> waited logs = 0.
Proof. apply waited_quiet, console_takes_no_time. Qed.

Lemma now_advance events : forall w : World P,
  now P (advance P Pl w events) = now P w + waited events.
Proof.
  induction events as [|e events IH]; intros w; simpl; [lia|].
  fold (advance P Pl (apply_event P Pl e w) events). rewrite IH.
  destruct e as [a| | |m|]; simpl; try lia.
  destruct (lastError Pl m); simpl; lia.
Qed.

Lemma mrun_clock events : forall s, mrun clock_step s events = Some (s + waited events).
Proof.
  induction events as [|e events IH]; intros s; simpl.
  - f_equal. lia.
  - rewrite IH. f_equal. lia.
Qed.

Lemma within_intro {A} (m : M P A) limit :
  (forall w, sat Pl clock_step m w 0 (fun _ s _ => 0 <= s <= limit)) -> within m limit.
Proof.
  intros H w. destruct (H w) as (s & Hs & Hb). rewrite mrun_clock in Hs.
  injection Hs as <-. lia.
Qed.

Lemma sat_within {A} (m : M P A) limit w s (Q : Result A -> Z -> World P -> Prop) :
  within m limit ->
  (forall r s' w', s <= s' <= s + limit -> Q r s' w') ->
  sat Pl clock_step m w s Q.
Proof.
  intros Hm HQ. exists (s + waited (snd (m w))). split; [apply mrun_clock|].
  apply HQ. specialize (Hm w). lia.
Qed.

Lemma within_le {A} (m : M P A) a b : within m a -> a <= b -> within m b.
Proof. intros H Hab w. specialize (H w). lia. Qed.

Lemma within_quiet {A} (allowed : Event -> bool) R (m : M P A) :
  (forall e, allowed e = true -> wait_of e = 0) ->
  behaves Pl allowed R m -> within m 0.
Proof.
  intros Hq Hm w. rewrite (waited_quiet allowed _ Hq (behaves_events Pl _ _ _ w Hm)). lia.
Qed.

Lemma within_bind {A B} (m : M P A) (k : A -> M P B) a b :
  within m a -> 0 <= b -> (forall x, within (k x) b) -> within (bind P Pl m k) (a + b).
Proof.
  intros Hm Hb Hk w. unfold bind. specialize (Hm w).
  destruct (m w) as [[x|e] events]; cbn [snd] in *; [|lia].
  specialize (Hk x (advance P Pl w events)).
  destruct (k x (advance P Pl w events)) as [r events']. cbn [snd] in *.
  rewrite waited_app. lia.
Qed.

Lemma within_for_first {A B} (body : A -> M P (option B)) each (l : list A) :
  0 <= each -> (forall x, within (body x) each) ->
  within (for_first P Pl l body) (each * Z.of_nat (length l)).
Proof.
  intros Heach Hbody. induction l as [|x l IH]; cbn [for_first length].
  - intros w. simpl. lia.
  - eapply within_le.
    + apply within_bind with (a := each) (b := each * Z.of_nat (length l));
        [apply Hbody | lia |].
      intros [b|]; [|exact IH].
      intros w. simpl. lia.
    + lia.
Qed.

(** *** The two polling loops *)

Lemma dropdown_probe_found (d : Dom P) logs :
  dropdown_probe P d = (logs, true) -> snd (dropdown_probe P d) = true.
Proof. intros ->. reflexivity. Qed.

Lemma dropdown_loop_waits startTime maxWait (w : World P) :
  (exists k, 0 <= k /\ maxWait - (now P w - startTime) = 100 * k) ->
  let run := dropdown_loop P Pl startTime maxWait w in
  forallb (waits_of 100) (snd run) = true /\
  0 <= waited (snd run) <= maxWait - (now P w - startTime) /\
  (fst run = Ok true /\
   snd (dropdown_probe P (page P (advance P Pl w (snd run)))) = true \/
   fst run = Ok false /\ waited (snd run) = maxWait - (now P w - startTime)).
Proof.
  funelim (dropdown_loop P Pl startTime maxWait w); intros (k & Hk & Hleft); cbv zeta.
  - cbn. split; [reflexivity|]. split; [lia|]. right. split; [reflexivity | lia].
  - pose proof (dropdown_probe_console (page P w)) as Hc. rewrite Heq in Hc. cbn [fst] in Hc.
    cbn [fst snd]. rewrite (waited_console _ Hc), (advance_console _ _ _ Hc).
    split; [|split; [lia|]].
    + eapply RunFacts.forallb_impl; [|exact Hc]. intros e. destruct e; try discriminate.
      reflexivity.
    + left. split; [reflexivity|]. rewrite Heq. reflexivity.
  - pose proof (dropdown_probe_console (page P w)) as Hc. rewrite Heq in Hc. cbn [fst] in Hc.
    destruct H as (Hall & Hbound & Hend).
    { exists (k - 1). cbn [apply_event now elapsed]. lia. }
    destruct (dropdown_loop P Pl startTime maxWait _) as [r events].
    cbn [fst snd apply_event now elapsed] in *.
    rewrite waited_app, (waited_console _ Hc). cbn [waited fold_right wait_of elapsed].
    fold (waited events).
    split; [|split; [lia|]].
    + rewrite forallb_app. apply andb_true_iff. split.
      * eapply RunFacts.forallb_impl; [|exact Hc]. intros e. destruct e; try discriminate.
        reflexivity.
      * cbn [forallb waits_of]. rewrite Hall. reflexivity.
    + rewrite advance_app, (advance_console _ _ _ Hc). cbn [advance fold_left].
      fold (advance P Pl (apply_event P Pl (Act (Elapse 100)) w) events).
      destruct Hend as [[Hr Hp]|[Hr Hw]]; [left | right]; split; auto; lia.
Qed.


Lemma waitForDropdown_within : within (waitForDropdown P Pl) 3000.
Proof.
  intros w. unfold waitForDropdown, bind, Date_now. cbn [advance fold_left].
  destruct (dropdown_loop_waits (now P w) 3000 w) as (_ & Hbound & _).
  { exists 30. lia. }
  destruct (dropdown_loop P Pl (now P w) 3000 w) as [r events].
  cbn [fst snd app] in *. lia.
Qed.

Lemma readiness_loop_waits startTime (w : World P) :
  now P w - startTime < MAX_WAIT_TIME + POLL_INTERVAL ->
  0 <= waited (snd (readiness_loop P Pl startTime w)) /\
  now P w - startTime + waited (snd (readiness_loop P Pl startTime w))
    < MAX_WAIT_TIME + POLL_INTERVAL.
Proof.
  unfold MAX_WAIT_TIME, POLL_INTERVAL.
  funelim (readiness_loop P Pl startTime w); intros Hnow.
  - cbn. lia.
  - pose proof (readiness_probe_console (page P w)) as Hc. rewrite Heq in Hc. cbn [fst] in Hc.
    cbn [snd]. rewrite (waited_console _ Hc). lia.
  - pose proof (readiness_probe_console (page P w)) as Hc. rewrite Heq in Hc. cbn [fst] in Hc.
    destruct H as [H1 H2].
    { cbn [apply_event now elapsed]. unfold MAX_WAIT_TIME, POLL_INTERVAL in *. lia. }
    destruct (readiness_loop P Pl startTime _) as [r events].
    cbn [fst snd apply_event now elapsed] in *.
    rewrite waited_app, (waited_console _ Hc). cbn [waited fold_right wait_of elapsed].
    fold (waited events). unfold MAX_WAIT_TIME, POLL_INTERVAL in *. lia.
Qed.

Lemma awaitHydration_waits (w : World P) :
  2000 <= waited (snd (awaitHydration P Pl w)) <= 4000.
Proof.
  unfold awaitHydration, bind, gets, log, delay, act, emit, ret.
  destruct (readyState_complete P (page P w)); cbn -[Z.min Z.max]; lia.
Qed.

Lemma waitForGeminiReady_waits (w : World P) :
  2000 <= waited (snd (waitForGeminiReady P Pl w)) < MAX_WAIT_TIME + POLL_INTERVAL.
Proof.
  rewrite ReadinessFacts.waitForGeminiReady_eq. cbv zeta. cbn [snd].
  rewrite waited_app. pose proof (awaitHydration_waits w) as Hh.
  destruct (readiness_loop_waits (now P w) (advance P Pl w (snd (awaitHydration P Pl w))))
    as [H1 H2].
  { rewrite now_advance. unfold MAX_WAIT_TIME, POLL_INTERVAL. lia. }
  rewrite now_advance in H2. unfold MAX_WAIT_TIME, POLL_INTERVAL in *. lia.
Qed.

Lemma waited_polls (events : list Event) :
  forallb Readiness.is_poll_wait events = true ->
  waited events = POLL_INTERVAL * Z.of_nat (length (List.filter is_wait events)).
Proof.
  induction events as [|e events IH]; [reflexivity|].
  cbn [forallb List.filter waited fold_right]. intros [He Hrest]%andb_true_iff.
  fold (waited events). rewrite (IH Hrest).
  destruct e as [[]| | | |]; try discriminate He; cbn [is_wait wait_of elapsed length]; try lia.
  cbn in He. apply Z.eqb_eq in He. subst. lia.
Qed.

(** X9.  The waits the readiness detector asks for.  Before it polls it
    asks for the 2000 ms it gives the app to hydrate and, with the wait
    for the load event, for 4000 ms at most.  While it polls it asks for
    waits of 500 ms only, and for 56 of them at most.  In all it asks for
    less than 30 500 ms, whether it finds the input area or gives up. *)
Theorem readiness_wait_is_bounded (w : World P) :
  let run := waitForGeminiReady P Pl w in
  let hydration := snd (awaitHydration P Pl w) in
  2000 <= waited hydration <= 4000 /\
  (exists polling,
     snd run = hydration ++ polling /\
     forallb Readiness.is_poll_wait polling = true /\
     waited polling = POLL_INTERVAL * Z.of_nat (length (List.filter is_wait polling)) /\
     (length (List.filter is_wait polling) <= 56)%nat) /\
  2000 <= waited (snd run) < MAX_WAIT_TIME + POLL_INTERVAL.
Proof.
  cbv zeta. pose proof (awaitHydration_waits w) as Hh.
  split; [exact Hh|]. split; [|apply waitForGeminiReady_waits].
  rewrite ReadinessFacts.waitForGeminiReady_eq. cbv zeta. cbn [snd].
  set (entry := advance P Pl w (snd (awaitHydration P Pl w))).
  exists (snd (readiness_loop P Pl (now P w) entry)).
  pose proof (ReadinessFacts.loop_waits P Pl (now P w) entry) as Hpolls.
  pose proof (waited_polls _ Hpolls) as Hsum.
  split; [reflexivity|]. split; [exact Hpolls|]. split; [exact Hsum|].
  destruct (readiness_loop_waits (now P w) entry) as [_ Hlt].
  { unfold entry. rewrite now_advance. unfold MAX_WAIT_TIME, POLL_INTERVAL. lia. }
  unfold entry in Hlt. rewrite now_advance in Hlt. fold entry in Hlt.
  rewrite Hsum in Hlt. unfold MAX_WAIT_TIME, POLL_INTERVAL in *. lia.
Qed.

Lemma waitForGeminiReady_within : within (waitForGeminiReady P Pl) 30499.
Proof.
  intros w. pose proof (waitForGeminiReady_waits w).
  unfold MAX_WAIT_TIME, POLL_INTERVAL in *. lia.
Qed.

(** *** The procedures *)

Lemma waited_typing el (chars : list string) :
  waited (flat_map (fun char => [ Act (ExecInsertText char);
                                  Act (DispatchInput el char);
                                  Act (Elapse 50) ]) chars)
  = 50 * Z.of_nat (length chars).
Proof.
  induction chars as [|char chars IH]; [reflexivity|].
  cbn [flat_map]. rewrite waited_app, IH. cbn [length].
  change (waited [ Act (ExecInsertText char);
                   Act (DispatchInput el char);
                   Act (Elapse 50) ]) with 50.
  lia.
Qed.

Lemma simulateTyping_waits el text (w : World P) :
  waited (snd (simulateTyping P Pl el text w)) =
  50 * Z.of_nat (length (JS.code_points text)).
Proof.
  rewrite simulateTyping_events. cbn [snd]. unfold Mention.typing_events.
  change (Act (Focus el) :: ?l) with ([Act (Focus el)] ++ l).
  rewrite waited_app, waited_typing.
  change (waited [Act (Focus el)]) with 0. lia.
Qed.

Lemma simulateTyping_within el text limit :
  50 * Z.of_nat (length (JS.code_points text)) = limit ->
  within (simulateTyping P Pl el text) limit.
Proof. intros <- w. rewrite simulateTyping_waits. lia. Qed.

Ltac clock_lia := cbn [wait_of elapsed] in *; lia.

(** A call of a procedure whose waiting is bounded by [lemma]. *)
Ltac clock_call lemma :=
  eapply sat_within; [apply lemma|];
  let H := fresh "Hs" in
  intros [?|?] ?s ?w H; cbv beta iota; [|first [clock_lia | sat_run; clock_lia]].

(** A call of a procedure that only writes to the console. *)
Ltac clock_quiet lemma :=
  eapply sat_within; [eapply within_quiet; [|apply lemma]; apply console_takes_no_time|];
  let H := fresh "Hs" in
  intros [?|?] ?s ?w H; cbv beta iota; [|first [clock_lia | sat_run; clock_lia]].

Lemma typeSynthIDQuery_within el : within (typeSynthIDQuery P Pl (Some el)) 8900.
Proof.
  apply within_intro. intros w. unfold typeSynthIDQuery. sat_run.
  clock_call (simulateTyping_within el "@" 50 eq_refl). sat_run.
  clock_call waitForDropdown_within. sat_run.
  clock_call (simulateTyping_within el "synthid" 350 eq_refl). sat_run.
  clock_call waitForDropdown_within. sat_run.
  clock_quiet (checkForSynthIdTag_behaves P Pl el). sat_run.
  match goal with |- context [negb ?b] => destruct b end; cbn [negb]; sat_run.
  - clock_call (simulateTyping_within el QUESTION 1000 eq_refl). sat_run. clock_lia.
  - clock_quiet (checkForSynthIdTag_behaves P Pl el). sat_run.
    clock_call (simulateTyping_within el QUESTION 1000 eq_refl). sat_run. clock_lia.
Qed.

Lemma dropTargets_length (d : Dom P) : (length (dropTargets P d) <= 4)%nat.
Proof.
  unfold dropTargets.
  destruct (findInputArea P d), (querySelector P d ".chat-container"),
    (querySelector P d "main"); simpl; lia.
Qed.

Lemma clickAddButton_within : within (clickAddButton P Pl) 800.
Proof.
  apply within_intro. intros w. unfold clickAddButton. sat_run.
  clock_quiet (findAddButton_behaves P Pl).
  match goal with |- sat _ _ (match ?b with _ => _ end) _ _ _ => destruct b end;
    sat_run; clock_lia.
Qed.

Lemma uploadViaFileInput_within file : within (uploadViaFileInput P Pl file) 2000.
Proof.
  apply within_intro. intros w. unfold uploadViaFileInput. sat_run.
  destruct (querySelector P (page P w) "input[type='file']"); sat_run; [|clock_lia].
  clock_quiet (checkForUploadedImage_behaves P Pl).
  match goal with |- sat _ _ (if ?b then _ else _) _ _ _ => destruct b end;
    sat_run; clock_lia.
Qed.

Lemma uploadViaClipboard_within file : within (uploadViaClipboard P Pl file) 2000.
Proof.
  apply within_intro. intros w. unfold uploadViaClipboard, pasteImageFromClipboard. sat_run.
  destruct (findInputArea P (page P w)); sat_run; [|clock_lia].
  clock_quiet (checkForUploadedImage_behaves P Pl).
  match goal with |- sat _ _ (if ?b then _ else _) _ _ _ => destruct b end;
    sat_run; clock_lia.
Qed.

Lemma simulateDragDropUpload_within file : within (simulateDragDropUpload P Pl file) 2800.
Proof.
  apply within_intro. intros w. unfold simulateDragDropUpload. sat_run.
  eapply sat_within.
  { apply within_for_first with (each := 700); [lia|].
    intros dropTarget. apply within_intro. intros w1. sat_run.
    clock_quiet (checkForUploadedImage_behaves P Pl).
    match goal with |- sat _ _ (if ?b then _ else _) _ _ _ => destruct b end;
      sat_run; clock_lia. }
  pose proof (dropTargets_length (page P w)) as Hlen.
  intros [[[]|]|e] s1 w1 Hs; cbv beta iota; sat_run; clock_lia.
Qed.

Lemma uploadViaDragDrop_within file : within (uploadViaDragDrop P Pl file) 4800.
Proof.
  apply within_intro. intros w. unfold uploadViaDragDrop. sat_run.
  clock_call (simulateDragDropUpload_within file). sat_run.
  clock_quiet (checkForUploadedImage_behaves P Pl).
  match goal with |- sat _ _ (if ?b then _ else _) _ _ _ => destruct b end;
    sat_run; clock_lia.
Qed.

Lemma uploadImageToGemini_within imageBlob originalUrl :
  within (uploadImageToGemini P Pl imageBlob originalUrl) 9600.
Proof.
  apply within_intro. intros w. unfold uploadImageToGemini. cbv zeta. sat_run.
  clock_call clickAddButton_within. sat_run.
  clock_call (uploadViaFileInput_within (makeFile Pl imageBlob originalUrl)).
  match goal with |- sat _ _ (if ?b then _ else _) _ _ _ => destruct b end;
    sat_run; [clock_lia|].
  clock_call (uploadViaClipboard_within (makeFile Pl imageBlob originalUrl)).
  match goal with |- sat _ _ (if ?b then _ else _) _ _ _ => destruct b end;
    sat_run; [clock_lia|].
  clock_call (uploadViaDragDrop_within (makeFile Pl imageBlob originalUrl)). clock_lia.
Qed.

Lemma clickSendButton_within : within (clickSendButton P Pl) 100.
Proof.
  apply within_intro. intros w. unfold clickSendButton. sat_run.
  match goal with
  | |- sat _ _ _ _ ?s0 _ => apply sat_for_first with (I := fun s _ => s = s0)
  end; [| |reflexivity].
  - intros btn s1 w1 _ ->. sat_run.
    match goal with |- sat _ _ (if ?b then _ else _) _ _ _ => destruct b end;
      sat_run; [|reflexivity].
    match goal with |- sat _ _ (if ?b then _ else _) _ _ _ => destruct b end;
      sat_run; [clock_lia|reflexivity].
  - intros s1 w1 ->. sat_run.
    destruct (querySelector P (page P w1) _); sat_run; [clock_lia|].
    destruct (findInputArea P (page P w1)); sat_run.
    + destruct (rightmost_near P _ _ _); sat_run; clock_lia.
    + clock_lia.
Qed.

Lemma fetching_takes_no_time e : fetching e = true -> wait_of e = 0.
Proof. destruct e as [a| | |m|]; try discriminate; reflexivity. Qed.

Lemma fetchImage_within url : within (fetchImage P Pl url) 0.
Proof. eapply within_quiet; [apply fetching_takes_no_time | apply fetchImage_behaves]. Qed.

Lemma prepare_within pendingImage : within (prepare P Pl pendingImage) 53299.
Proof.
  apply within_intro. intros w. unfold prepare. sat_run.
  clock_call waitForGeminiReady_within. sat_run.
  clock_call typeSynthIDQuery_within. sat_run.
  clock_call (fetchImage_within (imageUrl pendingImage)). sat_run.
  clock_call uploadImageToGemini_within. sat_run.
  clock_quiet (checkForUploadedImage_behaves P Pl). sat_run.
  match goal with |- context [negb ?b] => destruct b end; cbn [negb]; sat_run; clock_lia.
Qed.

Lemma process_within pendingImage : within (process P Pl pendingImage) 53399.
Proof.
  apply within_intro. intros w. unfold process, send_and_report. sat_run.
  eapply sat_within; [apply prepare_within|].
  intros [[]|e] s1 w1 Hs; cbv beta iota.
  - sat_run. eapply sat_within; [apply clickSendButton_within|].
    intros [sent|e] s2 w2 Hs2; cbv beta iota; sat_run; [|clock_lia].
    destruct sent; sat_run; clock_lia.
  - sat_run. clock_lia.
Qed.

(** X10.  The waiting of a run is bounded.  Whatever the page and the
    network do, the waits of a run of the script add up to less than
    53.4 seconds: 30 499 ms at most for the readiness detector, 8900 for
    composing the query, 9600 for the injection of the file, 100 for the
    send button, and 4300 between the steps.  A run that drops or finds no
    check does not wait at all. *)
Theorem run_waiting_is_bounded (w : World P) :
  0 <= waited (snd (main P Pl w)) <= 53399 /\
  (forall pendingImage, within (prepare P Pl pendingImage) 53299) /\
  within (waitForGeminiReady P Pl) 30499 /\
  (forall el, within (typeSynthIDQuery P Pl (Some el)) 8900) /\
  (forall imageBlob originalUrl, within (uploadImageToGemini P Pl imageBlob originalUrl) 9600) /\
  within (clickSendButton P Pl) 100 /\
  (Pickup.picked_up Pl w = None \/
   (exists pendingImage, Pickup.picked_up Pl w = Some pendingImage /\
                         now P w - timestamp pendingImage > 30000) ->
   waited (snd (main P Pl w)) = 0).
Proof.
  split; [|split; [exact prepare_within|split; [exact waitForGeminiReady_within|
           split; [exact typeSynthIDQuery_within|split; [exact uploadImageToGemini_within|
           split; [exact clickSendButton_within|]]]]]].
  - rewrite PickupFacts.main_eq.
    destruct (Pickup.picked_up Pl w) as [pendingImage|]; [|cbn; lia].
    destruct (_ >? _); [cbn; lia|]. cbv zeta. cbn [snd].
    rewrite !waited_app.
    pose proof (process_within pendingImage
                  (advance P Pl w (Pickup.greeting ++ Pickup.announcement pendingImage))) as H.
    change (waited Pickup.greeting) with 0.
    change (waited (Pickup.announcement pendingImage)) with 0. lia.
  - rewrite PickupFacts.main_eq. intros [->|(pendingImage & -> & Hold)]; [reflexivity|].
    destruct (Z.gtb_spec (now P w - timestamp pendingImage) 30000); [reflexivity | lia].
Qed.

End WithHost.

(** The dropdown test reads the text of a pane as [trim()] leaves it: a
    pane that holds a no-break space and nothing else is empty, and the
    wait runs its full time; a pane with a name in it is found at once. *)
Section OnToyPages.
Import Scenario Samples.

Example pane_of_white_space_is_no_dropdown :
  let run := waitForDropdown (overlay_page NO_BREAK_SPACE) online
               (Build_World (overlay_page NO_BREAK_SPACE) 5000 tt ∅) in
  fst run = Ok false /\ waited (snd run) = 3000.
Proof. cbv zeta. split; vm_compute; reflexivity. Qed.

Example pane_with_text_is_a_dropdown :
  waitForDropdown (overlay_page "SynthID") online
    (Build_World (overlay_page "SynthID") 5000 tt ∅) =
  (Ok true, [ConsoleLog "Dropdown detected (CDK overlay with content)" []]).
Proof. vm_compute. reflexivity. Qed.

End OnToyPages.
End TimingFacts.

(** ** The text a run types *)
Module TypedFacts.
Import Content Monitor Events MonitorFacts ProcedureFacts Typed.
Section WithHost.
Context (P : Page) (Pl : Platform).

Lemma keystrokes_app l1 l2 : keystrokes (l1 ++ l2) = keystrokes l1 ++ keystrokes l2.
Proof. apply omap_app. Qed.

Lemma mrun_keys events : forall s, mrun keys_step s events = Some (s ++ keystrokes events).
Proof.
  induction events as [|e events IH]; intros s; simpl.
  - rewrite app_nil_r. reflexivity.
  - unfold keys_step at 1, keystrokes. cbn [omap list_omap].
    fold (keystrokes events).
    destruct (keystroke e) as [k|]; rewrite IH; [|reflexivity].
    rewrite <- app_assoc. reflexivity.
Qed.

Lemma keystrokes_typing_events el text :
  keystrokes (Mention.typing_events el text) = typing el text.
Proof.
  unfold Mention.typing_events, typing, keystrokes. cbn [omap list_omap keystroke].
  induction (JS.code_points text) as [|char chars IH]; [reflexivity|].
  cbn [flat_map app omap list_omap keystroke]. rewrite IH. reflexivity.
Qed.

Lemma concat_cons (char : string) (chars : list string) :
  String.concat EmptyString (char :: chars) = char +:+ String.concat EmptyString chars.
Proof.
  destruct chars as [|next chars]; cbn [String.concat].
  - induction char as [|c char IH]; [reflexivity|].
    change (String c char = String c (char +:+ EmptyString)). rewrite <- IH. reflexivity.
  - reflexivity.
Qed.

(** The characters of a string, put together again, are the string. *)
Lemma concat_code_points (s : string) :
  String.concat EmptyString (JS.code_points s) = s.
Proof.
  induction s as [|c rest IH]; [reflexivity|].
  cbn [JS.code_points].
  destruct (JS.code_points rest) as [|char chars].
  - cbn in IH. subst rest. reflexivity.
  - rewrite concat_cons in IH.
    destruct (JS.continues rest); rewrite !concat_cons.
    + change (String c (char +:+ String.concat EmptyString chars) = String c rest).
      rewrite IH. reflexivity.
    + change (String c (char +:+ String.concat EmptyString chars) = String c rest).
      rewrite IH. reflexivity.
Qed.

Lemma inserted_typing el (chars : list string) :
  omap (fun k => match k with Inserted char => Some char | Input _ _ => None end)
       (flat_map (fun char => [Inserted char; Input el char]) chars) = chars.
Proof.
  induction chars as [|char chars IH]; [reflexivity|].
  cbn [flat_map app omap list_omap]. rewrite IH. reflexivity.
Qed.

Lemma concat_typing el text :
  String.concat EmptyString
    (omap (fun k => match k with Inserted char => Some char | Input _ _ => None end)
          (typing el text)) = text.
Proof. unfold typing. rewrite inserted_typing. apply concat_code_points. Qed.

Lemma silent_stable s0 e :
  silent e = true ->
  stable_under (P := P) Pl keys_step e (fun s _ => s = s0).
Proof.
  intros He s w ->. exists s0. unfold keys_step, silent in *.
  destruct (keystroke e); [discriminate|]. auto.
Qed.

Lemma waits_silent e : waits_and_logs e = true -> silent e = true.
Proof. unfold silent, keystroke, waits_and_logs. by_cases_on_event e. Qed.

Lemma console_silent e : is_console e = true -> silent e = true.
Proof. unfold silent, keystroke. by_cases_on_event e. Qed.

Lemma fetching_silent e : fetching e = true -> silent e = true.
Proof. unfold silent, keystroke. by_cases_on_event e. Qed.

Lemma uploading_silent e : uploading e = true -> silent e = true.
Proof. unfold silent, keystroke. by_cases_on_event e. Qed.

Lemma pressing_send_silent e : pressing_send e = true -> silent e = true.
Proof. unfold silent, keystroke. by_cases_on_event e. Qed.

(** A call of a procedure that types nothing. *)
Lemma sat_silent {A} (m : M P A) allowed R w s (Q : Result A -> list Keystroke -> World P -> Prop) :
  behaves Pl allowed R m ->
  (forall e, allowed e = true -> silent e = true) ->
  (forall r w', R r -> Q r s w') ->
  sat Pl keys_step m w s Q.
Proof.
  intros Hm Hsilent HQ.
  eapply sat_transfer with (I := fun s' _ => s' = s);
    [exact Hm | intros e He; apply silent_stable, Hsilent, He | reflexivity |].
  intros s' w' HR ->. apply HQ, HR.
Qed.

Lemma sat_typing el text w s (Q : Result unit -> list Keystroke -> World P -> Prop) :
  (forall w', Q (Ok tt) (s ++ typing el text) w') ->
  sat Pl keys_step (simulateTyping P Pl el text) w s Q.
Proof.
  intros HQ. exists (s ++ typing el text). rewrite simulateTyping_events. cbn [fst snd].
  split; [|apply HQ]. rewrite mrun_keys, keystrokes_typing_events. reflexivity.
Qed.

Lemma sat_query el w s (Q : Result unit -> list Keystroke -> World P -> Prop) :
  (forall w', Q (Ok tt) (s ++ typing el QUERY) w') ->
  sat Pl keys_step (typeSynthIDQuery P Pl (Some el)) w s Q.
Proof.
  intros HQ. unfold typeSynthIDQuery. sat_run.
  apply sat_typing. intros w1. sat_run.
  eapply sat_silent; [apply waitForDropdown_behaves | apply waits_silent|].
  intros r w2 [b ->]. cbv beta iota. sat_run.
  apply sat_typing. intros w3. sat_run.
  eapply sat_silent; [apply waitForDropdown_behaves | apply waits_silent|].
  intros r w4 [b' ->]. cbv beta iota. sat_run.
  eapply sat_silent; [apply checkForSynthIdTag_behaves | apply console_silent|].
  intros r w5 [hasTag ->]. cbv beta iota. sat_run.
  destruct hasTag; cbn [negb]; sat_run.
  - apply sat_typing. intros w6. sat_run.
    rewrite <- !app_assoc. apply HQ.
  - eapply sat_silent; [apply checkForSynthIdTag_behaves | apply console_silent|].
    intros r w6 [hasTag ->]. cbv beta iota. sat_run.
    apply sat_typing. intros w7. sat_run.
    rewrite <- !app_assoc. apply HQ.
Qed.

Lemma sat_keys_inv {A} (m : M P A) w (Q : Result A -> list Keystroke -> World P -> Prop) :
  sat Pl keys_step m w [] Q ->
  Q (fst (m w)) (keystrokes (snd (m w))) (advance P Pl w (snd (m w))).
Proof. intros (s & H1 & H2). rewrite mrun_keys in H1. injection H1 as <-. exact H2. Qed.

(** X11.  [simulateTyping] types [text] and nothing else: for each
    character of the text in turn, as [for...of] goes through them (a
    character outside ASCII is one character, whatever bytes it takes), an
    insertion, then an [input] event on the element with that character
    as its data; the insertions add up to [text]; and the typing takes
    50 ms per character.  It never fails. *)
Theorem simulateTyping_types_the_text (element : Element) (text : string) (w : World P) :
  let run := simulateTyping P Pl element text w in
  fst run = Ok tt /\
  keystrokes (snd run) = typing element text /\
  inserted_text (snd run) = text /\
  Timing.waited (snd run) = 50 * Z.of_nat (length (JS.code_points text)).
Proof.
  cbv zeta. split; [rewrite simulateTyping_events; reflexivity|].
  split; [rewrite simulateTyping_events; apply keystrokes_typing_events|].
  split; [|apply TimingFacts.simulateTyping_waits].
  unfold inserted_text. rewrite simulateTyping_events. cbn [snd].
  rewrite keystrokes_typing_events. apply concat_typing.
Qed.

(** X12.  Whatever the dropdown does, and whether or not the Tab key
    commits the mention, composing the query types the same text into the
    input area: "@synthid is this image real?", character by character,
    each insertion followed by its [input] event on that element. *)
Theorem query_text_is_fixed (inputArea : Element) (w : World P) :
  let run := typeSynthIDQuery P Pl (Some inputArea) w in
  keystrokes (snd run) = typing inputArea "@synthid is this image real?" /\
  inserted_text (snd run) = "@synthid is this image real?".
Proof.
  cbv zeta.
  assert (H : keystrokes (snd (typeSynthIDQuery P Pl (Some inputArea) w))
              = typing inputArea QUERY).
  { apply (sat_keys_inv (typeSynthIDQuery P Pl (Some inputArea)) w
             (fun _ s _ => s = typing inputArea QUERY)).
    apply sat_query. reflexivity. }
  split; [exact H|]. unfold inserted_text. rewrite H. apply concat_typing.
Qed.

Lemma silent_report message : forallb silent (Orchestration.failure_report message) = true.
Proof. reflexivity. Qed.

(** X13.  A run types the query once or not at all.  Over a whole run of
    the script, the text inserted into the page is either nothing or
    exactly "@synthid is this image real?", typed into one element. *)
Theorem run_types_the_query_at_most_once (w : World P) :
  let events := snd (main P Pl w) in
  (keystrokes events = [] /\ inserted_text events = EmptyString) \/
  (exists el, keystrokes events = typing el QUERY /\
              inserted_text events = "@synthid is this image real?").
Proof.
  cbv zeta.
  cut (keystrokes (snd (main P Pl w)) = [] \/
       exists el, keystrokes (snd (main P Pl w)) = typing el QUERY).
  { intros [H|[el H]]; [left | right; exists el]; (split; [exact H|]);
      unfold inserted_text; rewrite H; [reflexivity | apply concat_typing]. }
  apply (sat_keys_inv (main P Pl) w
           (fun _ s _ => s = [] \/ exists el, s = typing el QUERY)).
  unfold main. sat_run.
  eapply sat_silent with (allowed := silent) (R := fun _ => True);
    [apply behaves_spec; intros w0; rewrite PickupFacts.getPendingImage_eq; split; reflexivity
    | intros e He; exact He |].
  intros r w1 _. destruct r as [[pendingImage|]|e]; cbv beta iota; sat_run;
    [|left; reflexivity|left; reflexivity].
  destruct (_ >? _); sat_run; [left; reflexivity|].
  unfold process, prepare, send_and_report. sat_run.
  eapply sat_silent; [apply waitForGeminiReady_behaves | apply waits_silent|].
  intros [inputArea|e] w2 _; cbv beta iota; sat_run; [|left; reflexivity].
  apply sat_query. intros w3. sat_run.
  eapply sat_silent; [apply fetchImage_behaves | apply fetching_silent|].
  intros [imageBlob|e] w4 _; cbv beta iota; sat_run; [|right; exists inputArea; reflexivity].
  eapply sat_silent; [apply uploadImageToGemini_behaves | apply uploading_silent|].
  intros r w5 ->. cbv beta iota. sat_run.
  eapply sat_silent; [apply checkForUploadedImage_behaves | apply console_silent|].
  intros r w6 [imageUploaded ->]. cbv beta iota. sat_run.
  destruct imageUploaded; cbn [negb]; sat_run;
    (eapply sat_silent; [apply clickSendButton_behaves | apply pressing_send_silent|];
     intros r w7 [sent ->]; cbv beta iota; sat_run;
     destruct sent; sat_run; right; exists inputArea; reflexivity).
Qed.

End WithHost.

(** A character outside ASCII is typed as one character: the euro sign
    and an exclamation mark are two insertions and take 100 ms. *)
Section OnToyPages.
Import Scenario Samples.

Example euro_is_typed_as_one_character :
  let run := simulateTyping static_page online 1%nat (EURO +:+ "!") (world with_input 2000) in
  JS.code_points (EURO +:+ "!") = [EURO; "!"] /\
  keystrokes (snd run) =
    [Inserted EURO; Input 1%nat EURO; Inserted "!"; Input 1%nat "!"] /\
  Timing.waited (snd run) = 100.
Proof. cbv zeta. repeat split; vm_compute; reflexivity. Qed.

End OnToyPages.
End TypedFacts.

(** ** Looking things up in the page *)
Module LookupFacts.
Import Content Monitor Events MonitorFacts ProcedureFacts Lookup.
Section WithHost.
Context (P : Page) (Pl : Platform).

Lemma first_match_Some (d : Dom P) selectors selector el :
  first_match P d selectors = Some (selector, el) <->
  exists before after,
    selectors = before ++ selector :: after /\
    Forall (fun s => querySelector P d s = None) before /\
    querySelector P d selector = Some el.
Proof.
  induction selectors as [|s rest IH]; cbn [first_match].
  - split; [discriminate|]. intros (before & after & H & _). destruct before; discriminate.
  - destruct (querySelector P d s) as [x|] eqn:E.
    + split.
      * intros [= <- <-]. exists [], rest. auto.
      * intros (before & after & H & Hnone & Hsel).
        destruct before as [|b before]; cbn in H; injection H as -> ->.
        -- congruence.
        -- inversion Hnone; congruence.
    + rewrite IH. split.
      * intros (before & after & -> & Hnone & Hsel). exists (s :: before), after. auto.
      * intros (before & after & H & Hnone & Hsel).
        destruct before as [|b before]; cbn in H; injection H as -> ->.
        -- congruence.
        -- exists before, after. inversion Hnone. auto.
Qed.

Lemma first_match_None (d : Dom P) selectors :
  first_match P d selectors = None <->
  Forall (fun s => querySelector P d s = None) selectors.
Proof.
  induction selectors as [|s rest IH]; cbn [first_match].
  - split; auto.
  - destruct (querySelector P d s) as [x|] eqn:E.
    + split; [discriminate|]. intros H. inversion H. congruence.
    + rewrite IH. split; [auto|]. intros H. inversion H. assumption.
Qed.

(** X14.  [findInputArea] tries its seven selectors in the order they
    are written and answers with the first element of the first selector
    that matches anything: the selectors before it match nothing.  It
    answers null exactly when no selector matches. *)
Theorem findInputArea_takes_first_match (d : Dom P) :
  (forall el,
     findInputArea P d = Some el <->
     exists before selector after,
       input_selectors = before ++ selector :: after /\
       Forall (fun s => querySelector P d s = None) before /\
       head (querySelectorAll P d selector) = Some el) /\
  (findInputArea P d = None <->
   Forall (fun s => querySelectorAll P d s = []) input_selectors).
Proof.
  unfold findInputArea. split.
  - intros el. destruct (first_match P d input_selectors) as [[selector x]|] eqn:E; cbn.
    + split.
      * intros [= ->]. apply first_match_Some in E as (before & after & H1 & H2 & H3).
        exists before, selector, after. auto.
      * intros (before & s & after & H1 & H2 & H3). f_equal.
        assert (H : first_match P d input_selectors = Some (s, el)).
        { apply first_match_Some. exists before, after. auto. }
        congruence.
    + split; [discriminate|].
      intros (before & s & after & H1 & H2 & H3).
      assert (H : first_match P d input_selectors = Some (s, el)).
      { apply first_match_Some. exists before, after. auto. }
      congruence.
  - split.
    + intros H. destruct (first_match P d input_selectors) as [[selector x]|] eqn:E;
        [discriminate|].
      apply first_match_None in E. eapply Forall_impl; [exact E|].
      intros s Hs. unfold querySelector in Hs. destruct (querySelectorAll P d s);
        [reflexivity | discriminate].
    + intros H. replace (first_match P d input_selectors) with (@None (string * Element));
        [reflexivity|].
      symmetry. apply first_match_None. eapply Forall_impl; [exact H|].
      intros s Hs. unfold querySelector. rewrite Hs. reflexivity.
Qed.

(** X15.  [checkForUploadedImage] answers true exactly when one of its
    six indicator selectors matches something in the page.  It never
    fails, does nothing but write to the console, and leaves the world as
    it was; when it answers false it writes nothing at all. *)
Theorem checkForUploadedImage_reads_the_page (w : World P) :
  let run := checkForUploadedImage P Pl w in
  (exists found, fst run = Ok found) /\
  (fst run = Ok true <->
   exists selector, In selector imageIndicators /\ querySelectorAll P (page P w) selector <> []) /\
  forallb is_console (snd run) = true /\
  advance P Pl w (snd run) = w /\
  (fst run = Ok false -> snd run = []).
Proof.
  cbv zeta.
  assert (Hrun : checkForUploadedImage P Pl w =
                 match first_match P (page P w) imageIndicators with
                 | Some (selector, el) =>
                     (Ok true, [ConsoleLog "Found image indicator:" [AStr selector; AElem el]])
                 | None => (Ok false, [])
                 end).
  { unfold checkForUploadedImage, bind, gets, log, emit, ret. cbn -[first_match].
    destruct (first_match P (page P w) imageIndicators) as [[selector el]|]; reflexivity. }
  rewrite Hrun.
  destruct (first_match P (page P w) imageIndicators) as [[selector el]|] eqn:E; cbn [fst snd].
  - split; [eauto|]. split; [|split; [reflexivity|split; [reflexivity|discriminate]]].
    split; [|reflexivity]. intros _.
    apply first_match_Some in E as (before & after & H1 & _ & H3).
    exists selector. split; [rewrite H1; apply in_elt|].
    unfold querySelector in H3. destruct (querySelectorAll P (page P w) selector); discriminate.
  - split; [eauto|]. split; [|split; [reflexivity|split; [reflexivity|reflexivity]]].
    split; [discriminate|]. intros (selector & Hin & Hne). exfalso.
    apply first_match_None in E. rewrite List.Forall_forall in E. specialize (E selector Hin).
    unfold querySelector in E. destruct (querySelectorAll P (page P w) selector);
      [contradiction | discriminate].
Qed.

(** A loop whose body, as long as it does not return, only writes to
    the console: the loop returns what the first returning body returns,
    after console lines only; or no body returns. *)
Lemma for_first_scan {A B} (body : A -> M P (option B)) (l : list A) (w : World P) :
  (forall x, In x l ->
     (exists r, fst (body x w) = Ok r) /\
     (fst (body x w) = Ok None -> forallb is_console (snd (body x w)) = true)) ->
  (exists before x after b logs,
     l = before ++ x :: after /\
     Forall (fun y => fst (body y w) = Ok None) before /\
     fst (body x w) = Ok (Some b) /\
     for_first P Pl l body w = (Ok (Some b), logs ++ snd (body x w)) /\
     forallb is_console logs = true) \/
  (Forall (fun y => fst (body y w) = Ok None) l /\
   exists logs, for_first P Pl l body w = (Ok None, logs) /\
                forallb is_console logs = true).
Proof.
  induction l as [|x l IH]; intros Hbody.
  - right. split; [constructor|]. exists []. split; reflexivity.
  - destruct (Hbody x (or_introl eq_refl)) as [[r Hr] Hquiet].
    cbn [for_first]. unfold bind at 1 2.
    destruct (body x w) as [r0 events] eqn:Ex. cbn [fst snd] in *. subst r0.
    destruct r as [b|].
    + left. exists [], x, l, b, []. rewrite Ex. cbn [fst snd app]. unfold ret.
      rewrite app_nil_r. repeat split; auto.
    + specialize (Hquiet eq_refl). rewrite (advance_console Pl _ _ Hquiet).
      destruct IH as [(before & y & after & b & logs & -> & Hnone & Hy & Hrun & Hlogs)|
                      (Hnone & logs & Hrun & Hlogs)].
      { intros y Hy. apply Hbody. now right. }
      * left. exists (x :: before), y, after, b, (events ++ logs).
        rewrite Hrun. split; [reflexivity|]. split.
        { constructor; [rewrite Ex; reflexivity | exact Hnone]. }
        split; [exact Hy|]. split; [rewrite <- app_assoc; reflexivity|].
        rewrite forallb_app, Hquiet, Hlogs. reflexivity.
      * right. split.
        { constructor; [rewrite Ex; reflexivity | exact Hnone]. }
        exists (events ++ logs). rewrite Hrun. split; [reflexivity|].
        rewrite forallb_app, Hquiet, Hlogs. reflexivity.
Qed.

(** The scan of the buttons one selector matches. *)
Lemma scan_buttons (buttons : list Element) (w : World P) :
  exists logs,
    for_first P Pl buttons
      (fun btn =>
         bind P Pl (gets P (fun d => getBoundingClientRect P d btn)) (fun rect =>
         bind P Pl (gets P (innerHeight P)) (fun height =>
         if (rect_bottom rect >? height - 300) && (rect_width rect >? 20)
         then bind P Pl (log P "Found potential add button:" [AElem btn])
                (fun _ => ret P (Some btn))
         else ret P None))) w
    = (Ok (find (low_and_wide P (page P w)) buttons), logs) /\
    forallb is_console logs = true.
Proof.
  induction buttons as [|btn buttons IH].
  - exists []. split; reflexivity.
  - cbn [for_first find]. unfold bind at 1. unfold low_and_wide at 1. cbv zeta.
    unfold bind at 1 2. unfold gets at 1 2. cbn [advance fold_left fst snd app].
    destruct ((rect_bottom (getBoundingClientRect P (page P w) btn) >?
               innerHeight P (page P w) - 300) &&
              (rect_width (getBoundingClientRect P (page P w) btn) >? 20)).
    + eexists. unfold bind, log, emit, ret. cbn. split; reflexivity.
    + unfold ret at 1. cbn [advance fold_left fst snd app].
      destruct IH as (logs & -> & Hlogs). exists logs. auto.
Qed.

(** The search for the "+" button, selector by selector. *)
Lemma findAddButton_scan (w : World P) :
  let found selector :=
    find (low_and_wide P (page P w)) (querySelectorAll P (page P w) selector) in
  (exists before selector after btn logs,
     addButtonSelectors = before ++ selector :: after /\
     Forall (fun s => found s = None) before /\
     found selector = Some btn /\
     findAddButton P Pl w = (Ok (Some btn), logs) /\
     forallb is_console logs = true) \/
  (Forall (fun s => found s = None) addButtonSelectors /\
   exists logs, findAddButton P Pl w = (Ok None, logs) /\ forallb is_console logs = true).
Proof.
  cbv zeta. unfold findAddButton.
  match goal with
  | |- context [for_first P Pl addButtonSelectors ?body w] =>
      assert (Hsel : forall selector, exists logs,
                body selector w =
                  (Ok (find (low_and_wide P (page P w))
                         (querySelectorAll P (page P w) selector)), logs) /\
                forallb is_console logs = true);
      [|destruct (for_first_scan body addButtonSelectors w) as
          [(before & selector & after & btn & logs & H1 & H2 & H3 & H4 & H5)|
           (H1 & logs & H2 & H3)]]
  end.
  - intros selector. cbv beta. unfold bind at 1. unfold gets at 1.
    cbn [advance fold_left fst snd]. unfold bind at 1. unfold log at 1, emit at 1.
    cbn [advance fold_left apply_event fst snd].
    destruct (scan_buttons (querySelectorAll P (page P w) selector) w) as (logs & -> & Hlogs).
    eexists. split; [reflexivity|]. cbn [app forallb is_console]. exact Hlogs.
  - intros selector _. destruct (Hsel selector) as (logs & -> & Hlogs). cbn [fst snd].
    split; [eauto|]. intros _. exact Hlogs.
  - left. destruct (Hsel selector) as (logs' & Hrun & Hlogs'). rewrite Hrun in *.
    cbn [fst snd] in *. injection H3 as H3.
    exists before, selector, after, btn, (logs ++ logs').
    split; [exact H1|]. split; [|split; [exact H3|split; [exact H4|]]].
    + eapply Forall_impl; [exact H2|]. intros s Hs. cbv beta in Hs.
      destruct (Hsel s) as (l0 & Hr & _). rewrite Hr in Hs. cbn [fst] in Hs. congruence.
    + rewrite forallb_app, H5, Hlogs'. reflexivity.
  - right. split; [|eauto].
    eapply Forall_impl; [exact H1|]. intros s Hs. cbv beta in Hs.
    destruct (Hsel s) as (l0 & Hr & _). rewrite Hr in Hs. cbn [fst] in Hs. congruence.
Qed.

(** *** The rightmost button near the input *)

Lemma rightmost_near_fold (d : Dom P) inputArea (buttons seen : list Element)
    (best : option Element) (bestRight : Z) :
  0 <= bestRight ->
  (best = None -> bestRight = 0) ->
  (forall b, best = Some b ->
     In b seen /\ near_input P d inputArea b = true /\ right_edge P d b = bestRight /\
     0 < bestRight) ->
  (forall b, In b seen -> near_input P d inputArea b = true -> right_edge P d b <= bestRight) ->
  let result :=
    fold_left
      (fun (best : option Element * Z) btn =>
         let rect := getBoundingClientRect P d btn in
         if (Z.abs (rect_top rect - rect_top (getBoundingClientRect P d inputArea)) <? 100) &&
            (rect_right rect >? snd best)
         then (Some btn, rect_right rect)
         else best)
      buttons (best, bestRight) in
  0 <= snd result /\
  (fst result = None -> snd result = 0) /\
  (forall b, fst result = Some b ->
     In b (seen ++ buttons) /\ near_input P d inputArea b = true /\
     right_edge P d b = snd result /\ 0 < snd result) /\
  (forall b, In b (seen ++ buttons) -> near_input P d inputArea b = true ->
     right_edge P d b <= snd result).
Proof.
  revert seen best bestRight.
  induction buttons as [|btn buttons IH]; intros seen best bestRight H0 Hnone Hsome Hmax;
    cbv zeta.
  - cbn [fold_left fst snd]. rewrite app_nil_r. auto.
  - cbn [fold_left snd].
    replace (seen ++ btn :: buttons) with ((seen ++ [btn]) ++ buttons)
      by (rewrite <- app_assoc; reflexivity).
    fold (near_input P d inputArea btn). fold (right_edge P d btn).
    destruct (near_input P d inputArea btn) eqn:Hnear; cbn [andb].
    + destruct (Z.gtb_spec (right_edge P d btn) bestRight) as [Hgt|Hle].
      * apply IH; [lia|discriminate| |].
        -- intros b [= <-]. split; [apply in_or_app; right; now left|]. auto with zarith.
        -- intros b Hb Hn. apply in_app_or in Hb as [Hb|[<-|[]]]; [|lia].
           specialize (Hmax b Hb Hn). lia.
      * apply IH; [exact H0|exact Hnone| |].
        -- intros b Hb. destruct (Hsome b Hb) as (H1 & H2 & H3 & H4).
           split; [apply in_or_app; now left|]. auto.
        -- intros b Hb Hn. apply in_app_or in Hb as [Hb|[<-|[]]]; [auto|exact Hle].
    + apply IH; [exact H0|exact Hnone| |].
      * intros b Hb. destruct (Hsome b Hb) as (H1 & H2 & H3 & H4).
        split; [apply in_or_app; now left|]. auto.
      * intros b Hb Hn. apply in_app_or in Hb as [Hb|[<-|[]]]; [auto|congruence].
Qed.

(** X16.  The last resort of [clickSendButton] picks, among the buttons
    whose top is within 100 pixels of the top of the input area, one
    whose right edge is furthest to the right; that edge is right of the
    origin.  It picks nothing exactly when no such button has its right
    edge right of the origin. *)
Theorem rightmost_near_is_rightmost (d : Dom P) (inputArea : Element)
    (allButtons : list Element) :
  (forall best,
     rightmost_near P d inputArea allButtons = Some best ->
     In best allButtons /\
     near_input P d inputArea best = true /\
     0 < right_edge P d best /\
     forall btn, In btn allButtons -> near_input P d inputArea btn = true ->
                 right_edge P d btn <= right_edge P d best) /\
  (rightmost_near P d inputArea allButtons = None <->
   forall btn, In btn allButtons -> near_input P d inputArea btn = true ->
               right_edge P d btn <= 0).
Proof.
  unfold rightmost_near. cbv zeta.
  destruct (rightmost_near_fold d inputArea allButtons [] None 0)
    as (H0 & Hnone & Hsome & Hmax); [lia|auto|discriminate|intros b []|].
  cbv zeta in *. cbn [app] in *.
  destruct (fold_left _ allButtons (None, 0)) as [result resultRight]. cbn [fst snd] in *.
  split.
  - intros best ->. destruct (Hsome best eq_refl) as (H1 & H2 & H3 & H4).
    split; [exact H1|]. split; [exact H2|]. split; [lia|].
    intros btn Hb Hn. specialize (Hmax btn Hb Hn). lia.
  - split.
    + intros ->. rewrite (Hnone eq_refl) in Hmax. exact Hmax.
    + intros Hall. destruct result as [best|]; [|reflexivity]. exfalso.
      destruct (Hsome best eq_refl) as (H1 & H2 & H3 & H4).
      specialize (Hall best H1 H2). lia.
Qed.

(** *** What the readiness detector returns *)

Lemma probe_accepts (d : Dom P) el :
  Readiness.accepted P d = Some el ->
  let editable := querySelectorAll P d "[contenteditable='true']" in
  (In el editable /\ Readiness.large_enough (getBoundingClientRect P d el) = true) \/
  (Forall (fun x => Readiness.large_enough (getBoundingClientRect P d x) = false) editable /\
   findInputArea P d = Some el).
Proof.
  unfold Readiness.accepted, readiness_probe. cbv zeta.
  destruct (find _ (querySelectorAll P d "[contenteditable='true']")) as [x|] eqn:E.
  - cbn [snd]. intros [= <-]. left. apply find_some in E. exact E.
  - destruct (findInputArea P d) as [x|]; cbn [snd]; [|discriminate].
    intros [= <-]. right. split; [|reflexivity].
    apply List.Forall_forall. intros y Hy. exact (find_none _ _ E y Hy).
Qed.

Lemma loop_returns startTime (w : World P) el :
  fst (readiness_loop P Pl startTime w) = Ok el ->
  exists k,
    now P w - startTime + POLL_INTERVAL * Z.of_nat k < MAX_WAIT_TIME /\
    (forall j, (j < k)%nat -> Readiness.accepted P (Readiness.ticks P j (page P w)) = None) /\
    Readiness.accepted P (Readiness.ticks P k (page P w)) = Some el.
Proof.
  funelim (readiness_loop P Pl startTime w); intros Hr.
  - discriminate.
  - cbn [fst] in Hr. injection Hr as ->. exists 0%nat.
    split; [unfold POLL_INTERVAL; lia|]. split; [intros j Hj; lia|].
    unfold Readiness.accepted, Readiness.ticks. cbn. rewrite Heq. reflexivity.
  - destruct (readiness_loop P Pl startTime _) as [r events]. cbn [fst] in *.
    destruct (H _ Hr) as (k & Hk & Hmiss & Hhit). exists (S k).
    cbn [apply_event now page elapsed] in *.
    split; [unfold POLL_INTERVAL in *; lia|]. split.
    + intros j Hj. destruct j as [|j].
      * unfold Readiness.accepted, Readiness.ticks. cbn. rewrite Heq. reflexivity.
      * rewrite <- ReadinessFacts.ticks_shift. apply Hmiss. lia.
    + rewrite <- ReadinessFacts.ticks_shift. exact Hhit.
Qed.

(** X17.  The readiness detector returns an element only when a poll has
    found it.  If it returns [el], then some poll that began within
    30 000 ms of the start, the first to find anything, found [el] on the
    page as it was then; and [el] is either a contenteditable element
    larger than 100 by 20 or, when no contenteditable element on that
    page is that large, the first match of the selector chain. *)
Theorem readiness_result_was_found (w : World P) (el : Element) :
  fst (waitForGeminiReady P Pl w) = Ok el ->
  let entry := advance P Pl w (snd (awaitHydration P Pl w)) in
  exists k,
    now P entry - now P w + POLL_INTERVAL * Z.of_nat k < MAX_WAIT_TIME /\
    (forall j, (j < k)%nat ->
       Readiness.accepted P (Readiness.ticks P j (page P entry)) = None) /\
    Readiness.accepted P (Readiness.ticks P k (page P entry)) = Some el /\
    let d := Readiness.ticks P k (page P entry) in
    let editable := querySelectorAll P d "[contenteditable='true']" in
    (In el editable /\ Readiness.large_enough (getBoundingClientRect P d el) = true) \/
    (Forall (fun x => Readiness.large_enough (getBoundingClientRect P d x) = false) editable /\
     findInputArea P d = Some el).
Proof.
  rewrite ReadinessFacts.waitForGeminiReady_eq. cbv zeta. cbn [fst]. intros Hr.
  destruct (loop_returns _ _ _ Hr) as (k & Hk & Hmiss & Hhit).
  exists k. split; [exact Hk|]. split; [exact Hmiss|]. split; [exact Hhit|].
  apply probe_accepts, Hhit.
Qed.

End WithHost.

Lemma readiness_result_was_found_witness :
  exists k,
    Readiness.accepted Scenario.static_page
      (Readiness.ticks Scenario.static_page k Scenario.with_input) = Some 1%nat.
Proof.
  destruct (readiness_result_was_found Scenario.static_page Scenario.offline
              (Scenario.world Scenario.with_input 2000) 1%nat)
    as (k & _ & _ & H & _).
  - vm_compute. reflexivity.
  - exists k. exact H.
Defined.

End LookupFacts.

(** ** The buttons a run clicks *)
Module ClickFacts.
Import Content Monitor Events MonitorFacts ProcedureFacts Lookup Clicks.
Section WithHost.
Context (P : Page) (Pl : Platform).

Lemma clicked_app l1 l2 : clicked (l1 ++ l2) = clicked l1 ++ clicked l2.
Proof. apply omap_app. Qed.

Lemma click_events_app l1 l2 : click_events (l1 ++ l2) = click_events l1 ++ click_events l2.
Proof. apply omap_app. Qed.

Lemma clicked_console logs : forallb is_console logs = true -> clicked logs = [].
Proof.
  induction logs as [|e logs IH]; [reflexivity|]. cbn [forallb]. intros H.
  apply andb_true_iff in H as [He H]. destruct e; try discriminate. exact (IH H).
Qed.

Lemma click_events_console logs : forallb is_console logs = true -> click_events logs = [].
Proof.
  induction logs as [|e logs IH]; [reflexivity|]. cbn [forallb]. intros H.
  apply andb_true_iff in H as [He H]. destruct e; try discriminate. exact (IH H).
Qed.

(** X18.  The first step of the upload clicks at most one button, and
    only one fit to be the "+" button: matched by one of the nine
    selectors, in the lowest 300 pixels of the viewport and wider than
    20.  After the click it waits 800 ms.  When no matched button passes
    the test it clicks nothing and does not wait.  It never fails. *)
Theorem add_button_is_low_and_wide (w : World P) :
  let run := clickAddButton P Pl w in
  let d := page P w in
  fst run = Ok tt /\
  ((exists btn selector,
      clicked (snd run) = [btn] /\
      In selector addButtonSelectors /\ In btn (querySelectorAll P d selector) /\
      low_and_wide P d btn = true /\
      Timing.waited (snd run) = 800) \/
   (clicked (snd run) = [] /\
    Timing.waited (snd run) = 0 /\
    forall selector btn,
      In selector addButtonSelectors -> In btn (querySelectorAll P d selector) ->
      low_and_wide P d btn = false)).
Proof.
  cbv zeta. rewrite clickAddButton_eq.
  destruct (LookupFacts.findAddButton_scan P Pl w)
    as [(before & selector & after & btn & logs & H1 & H2 & H3 & -> & H5)|
        (H1 & logs & -> & H3)]; cbv zeta in *; cbn [fst snd].
  - split; [reflexivity|]. left.
    exists btn, selector. apply find_some in H3 as [Hin Htest].
    split; [|split; [rewrite H1; apply in_elt|split; [exact Hin|split; [exact Htest|]]]].
    + change (ConsoleLog ?m ?a :: ?l) with ([ConsoleLog m a] ++ l).
      rewrite !clicked_app, (clicked_console _ H5). reflexivity.
    + change (ConsoleLog ?m ?a :: ?l) with ([ConsoleLog m a] ++ l).
      rewrite !TimingFacts.waited_app, (TimingFacts.waited_console _ H5). reflexivity.
  - split; [reflexivity|]. right. rewrite app_nil_r.
    change (ConsoleLog ?m ?a :: ?l) with ([ConsoleLog m a] ++ l).
    rewrite clicked_app, TimingFacts.waited_app.
    rewrite (clicked_console _ H3), (TimingFacts.waited_console _ H3).
    split; [reflexivity|]. split; [reflexivity|].
    intros selector btn Hs Hb. rewrite List.Forall_forall in H1.
    exact (find_none _ _ (H1 selector Hs) btn Hb).
Qed.

(** *** The send button *)

(** The ways of [clickSendButton]: the first button in the lower right
    that looks like a send button; else the element labelled as one; else
    the rightmost button near the input; else none. *)
Lemma clickSendButton_cases (w : World P) :
  let d := page P w in
  let allButtons := querySelectorAll P d "button" in
  (exists before btn after logs,
     allButtons = before ++ btn :: after /\
     forallb (fun btn => negb (Sending.lower_right P d btn && looks_like_send P d btn))
             before = true /\
     Sending.lower_right P d btn = true /\ looks_like_send P d btn = true /\
     clickSendButton P Pl w =
       (Ok true, logs ++ [Act (Click btn); Act (Elapse 100); Act (DispatchClick btn)]) /\
     forallb is_console logs = true) \/
  (forallb (fun btn => negb (Sending.lower_right P d btn && looks_like_send P d btn))
           allButtons = true /\
   exists logs,
     forallb is_console logs = true /\
     match querySelector P d "[aria-label*='Send' i], [aria-label*='submit' i]" with
     | Some sendByLabel =>
         clickSendButton P Pl w = (Ok true, logs ++ [Act (Click sendByLabel)])
     | None =>
         match
           match findInputArea P d with
           | Some inputArea => rightmost_near P d inputArea allButtons
           | None => None
           end
         with
         | Some bestButton =>
             clickSendButton P Pl w = (Ok true, logs ++ [Act (Click bestButton)])
         | None => clickSendButton P Pl w = (Ok false, logs)
         end
     end).
Proof.
  cbv zeta. unfold clickSendButton.
  rewrite bind_log; cbv beta. rewrite bind_gets; cbv beta. rewrite bind_log; cbv beta.
  match goal with
  | |- context [bind P Pl (for_first P Pl ?l ?body) ?k w] =>
      rewrite (bind_eq P Pl (for_first P Pl l body) k w)
  end.
  match goal with
  | |- context [for_first P Pl ?l ?body w] =>
      assert (Hbody : forall btn,
                body btn w =
                if Sending.lower_right P (page P w) btn
                then if looks_like_send P (page P w) btn
                     then (Ok (Some true),
                           [ ConsoleLog "Button candidate:"
                               [AElem btn; ARect (getBoundingClientRect P (page P w) btn)];
                             ConsoleLog "Clicking send button!" [];
                             Act (Click btn); Act (Elapse 100); Act (DispatchClick btn) ])
                     else (Ok None,
                           [ ConsoleLog "Button candidate:"
                               [AElem btn; ARect (getBoundingClientRect P (page P w) btn)] ])
                else (Ok None, []));
      [|destruct (LookupFacts.for_first_scan P Pl body l w) as
          [(before & btn & after & b & logs & H1 & H2 & H3 & H4 & H5)|
           (H1 & logs & H2 & H3)]]
  end.
  - intros btn. cbv beta. do 3 (rewrite bind_gets; cbv beta).
    unfold Sending.lower_right. cbv zeta.
    destruct ((rect_bottom (getBoundingClientRect P (page P w) btn) >?
               innerHeight P (page P w) - 200) &&
              (2 * rect_right (getBoundingClientRect P (page P w) btn) >?
               innerWidth P (page P w))); [|reflexivity].
    rewrite bind_log; cbv beta. rewrite bind_gets; cbv beta.
    destruct (looks_like_send P (page P w) btn); [|reflexivity].
    unfold bind, log, act, delay, emit, ret. cbn -[advance]. reflexivity.
  - intros btn _. rewrite Hbody.
    destruct (Sending.lower_right P (page P w) btn); [|split; [eauto|reflexivity]].
    destruct (looks_like_send P (page P w) btn); cbn [fst snd].
    + split; [eauto|discriminate].
    + split; [eauto|reflexivity].
  - left. rewrite H4. rewrite Hbody in H3 |- *.
    destruct (Sending.lower_right P (page P w) btn) eqn:Hlow; [|discriminate].
    destruct (looks_like_send P (page P w) btn) eqn:Hlooks; [|discriminate].
    cbn [fst snd] in *. injection H3 as <-.
    exists before, btn, after. eexists. split; [exact H1|]. split.
    { apply forallb_forall. intros b Hb. rewrite List.Forall_forall in H2.
      specialize (H2 b Hb). rewrite Hbody in H2.
      destruct (Sending.lower_right P (page P w) b); [|reflexivity].
      destruct (looks_like_send P (page P w) b); [discriminate|reflexivity]. }
    split; [exact Hlow|]. split; [exact Hlooks|]. split.
    + unfold ret. cbn [fst snd app].
      instantiate (1 := ConsoleLog "Looking for send button..." [] ::
                        ConsoleLog "Found ${allButtons.length} buttons total"
                          [ANum (Z.of_nat (length (querySelectorAll P (page P w) "button")))] ::
                        logs ++
                        [ ConsoleLog "Button candidate:"
                            [AElem btn; ARect (getBoundingClientRect P (page P w) btn)];
                          ConsoleLog "Clicking send button!" [] ]).
      cbn [app]. rewrite app_nil_r, <- app_assoc. reflexivity.
    + cbn [forallb is_console andb]. rewrite forallb_app, H5. reflexivity.
  - right. split.
    + apply forallb_forall. intros btn Hb. rewrite List.Forall_forall in H1.
      specialize (H1 btn Hb). rewrite Hbody in H1.
      destruct (Sending.lower_right P (page P w) btn); [|reflexivity].
      destruct (looks_like_send P (page P w) btn); [discriminate|reflexivity].
    + rewrite H2. rewrite (advance_console Pl _ _ H3).
      exists (ConsoleLog "Looking for send button..." [] ::
              ConsoleLog "Found ${allButtons.length} buttons total"
                [ANum (Z.of_nat (length (querySelectorAll P (page P w) "button")))] ::
              logs ++
              match querySelector P (page P w)
                      "[aria-label*='Send' i], [aria-label*='submit' i]" with
              | Some sendByLabel => [ConsoleLog "Found send by aria-label:" [AElem sendByLabel]]
              | None =>
                  match
                    match findInputArea P (page P w) with
                    | Some inputArea =>
                        rightmost_near P (page P w) inputArea
                          (querySelectorAll P (page P w) "button")
                    | None => None
                    end
                  with
                  | Some bestButton =>
                      [ConsoleLog "Clicking rightmost button near input:" [AElem bestButton]]
                  | None => [ConsoleLog NO_SEND_BUTTON []]
                  end
              end).
      rewrite bind_gets.
      destruct (querySelector P (page P w) _) as [sendByLabel|].
      { split; [cbn [forallb is_console andb]; rewrite forallb_app, H3; reflexivity|].
        unfold bind, log, act, emit, ret. cbn -[advance].
        rewrite <- app_assoc. reflexivity. }
      rewrite bind_gets.
      destruct (findInputArea P (page P w)) as [inputArea|].
      * rewrite bind_gets.
        destruct (rightmost_near P (page P w) inputArea _) as [bestButton|].
        -- split; [cbn [forallb is_console andb]; rewrite forallb_app, H3; reflexivity|].
           unfold bind, log, act, emit, ret. cbn -[advance].
           rewrite <- app_assoc. reflexivity.
        -- split; [cbn [forallb is_console andb]; rewrite forallb_app, H3; reflexivity|].
           unfold bind, log, act, emit, ret. cbn -[advance]. reflexivity.
      * split; [cbn [forallb is_console andb]; rewrite forallb_app, H3; reflexivity|].
        unfold bind, log, act, emit, ret. cbn -[advance]. reflexivity.
Qed.

(** X19.  [clickSendButton] clicks at most one button, chosen by the
    first of its three heuristics that matches.  It never fails.  It
    answers false exactly when no heuristic matches on the page, and then
    it does nothing but write to the console.  When it answers true, one
    of three things has happened.  (1) Some button in the lower right of
    the viewport looks like a send button: the first such button, in
    document order, is clicked, and after 100 ms a synthetic click is
    dispatched to the same button.  (2) No button passes that test, and
    an element is labelled Send or submit: that element is clicked, and
    no synthetic click follows.  (3) No button passes the test, nothing
    is labelled so, and the rightmost button near the input area is
    clicked, with no synthetic click.  In each case the click comes last
    and everything before it is console output. *)
Theorem send_button_is_clicked_once (w : World P) :
  let run := clickSendButton P Pl w in
  let d := page P w in
  let allButtons := querySelectorAll P d "button" in
  let send_like := fun btn => Sending.lower_right P d btn && looks_like_send P d btn in
  let by_label := querySelector P d "[aria-label*='Send' i], [aria-label*='submit' i]" in
  exists sent logs,
    fst run = Ok sent /\
    forallb is_console logs = true /\
    (sent = false <-> Sending.no_send_heuristic P d = true) /\
    (sent = false -> snd run = logs) /\
    (sent = true ->
     exists btn,
       clicked (snd run) = [btn] /\
       ((exists before after,
           allButtons = before ++ btn :: after /\
           forallb (fun other => negb (send_like other)) before = true /\
           send_like btn = true /\
           snd run = logs ++ [Act (Click btn); Act (Elapse 100); Act (DispatchClick btn)] /\
           click_events (snd run) = [btn]) \/
        (forallb (fun other => negb (send_like other)) allButtons = true /\
         by_label = Some btn /\
         snd run = logs ++ [Act (Click btn)] /\
         click_events (snd run) = []) \/
        (forallb (fun other => negb (send_like other)) allButtons = true /\
         by_label = None /\
         (exists inputArea,
            findInputArea P d = Some inputArea /\
            rightmost_near P d inputArea allButtons = Some btn) /\
         snd run = logs ++ [Act (Click btn)] /\
         click_events (snd run) = []))).
Proof.
  cbv zeta.
  destruct (clickSendButton_cases w)
    as [(before & btn & after & logs & Hsplit & Hbefore & Hlow & Hlooks & Hrun & Hlogs)|
        (Hall & logs & Hlogs & Hrun)];
    cbv zeta in *.
  - rewrite Hrun. cbn [fst snd]. exists true, logs.
    split; [reflexivity|]. split; [exact Hlogs|]. split; [|split; [discriminate|]].
    + split; [discriminate|]. intros Hno. unfold Sending.no_send_heuristic in Hno.
      cbv zeta in Hno. apply andb_true_iff in Hno as [Hf _].
      rewrite forallb_forall in Hf. specialize (Hf btn).
      rewrite Hlow, Hlooks in Hf. rewrite Hsplit in Hf.
      specialize (Hf (in_elt _ _ _)). discriminate.
    + intros _. exists btn.
      rewrite clicked_app, click_events_app, (clicked_console _ Hlogs),
        (click_events_console _ Hlogs).
      split; [reflexivity|]. left. exists before, after.
      rewrite Hlow, Hlooks. auto.
  - unfold Sending.no_send_heuristic. cbv zeta. rewrite Hall. cbn [andb].
    destruct (querySelector P (page P w) "[aria-label*='Send' i], [aria-label*='submit' i]")
      as [sendByLabel|] eqn:Hlabel.
    { rewrite Hrun. cbn [fst snd]. exists true, logs.
      split; [reflexivity|]. split; [exact Hlogs|].
      split; [split; discriminate|]. split; [discriminate|].
      intros _. exists sendByLabel.
      rewrite clicked_app, click_events_app, (clicked_console _ Hlogs),
        (click_events_console _ Hlogs).
      split; [reflexivity|]. right. left. auto. }
    destruct (findInputArea P (page P w)) as [inputArea|] eqn:Hinput.
    + destruct (rightmost_near P (page P w) inputArea _) as [bestButton|] eqn:Hbest.
      * rewrite Hrun. cbn [fst snd]. exists true, logs.
        split; [reflexivity|]. split; [exact Hlogs|].
        split; [split; discriminate|]. split; [discriminate|].
        intros _. exists bestButton.
        rewrite clicked_app, click_events_app, (clicked_console _ Hlogs),
          (click_events_console _ Hlogs).
        split; [reflexivity|]. right. right.
        split; [reflexivity|]. split; [reflexivity|].
        split; [exists inputArea; auto|]. auto.
      * rewrite Hrun. cbn [fst snd]. exists false, logs.
        split; [reflexivity|]. split; [exact Hlogs|].
        split; [split; reflexivity|]. split; [reflexivity|discriminate].
    + rewrite Hrun. cbn [fst snd]. exists false, logs.
      split; [reflexivity|]. split; [exact Hlogs|].
      split; [split; reflexivity|]. split; [reflexivity|discriminate].
Qed.

End WithHost.
End ClickFacts.

(** ** The file a run hands to the page *)
Module PayloadFacts.
Import Content Monitor Events MonitorFacts ProcedureFacts Payload.
Section WithHost.
Context (P : Page) (Pl : Platform).

(** The file built for the upload wraps the fetched blob.  Its name
    always contains a dot and never a slash: it is the last segment of the
    URL's path, or "image.png".  Its type is the type of the blob, or
    "image/png" when the blob has none, and so is never empty. *)
Lemma makeFile_well_formed (imageBlob : Blob) (originalUrl : string) :
  let file := makeFile Pl imageBlob originalUrl in
  file_blob file = imageBlob /\
  JS.includes "." (file_name file) = true /\
  ~ In "/"%char (list_ascii_of_string (file_name file)) /\
  file_type file <> EmptyString /\
  (blob_type imageBlob <> EmptyString -> file_type file = blob_type imageBlob) /\
  (blob_type imageBlob = EmptyString -> file_type file = "image/png").
Proof.
  cbv zeta. unfold makeFile. cbn [file_blob file_name file_type].
  pose proof (FileNameFacts.getFileNameFromUrl_nonempty Pl originalUrl) as Hne.
  apply JSFacts.truthy_nonempty in Hne. rewrite Hne.
  split; [reflexivity|].
  assert (Hname : JS.includes "." (getFileNameFromUrl Pl originalUrl) = true /\
                  ~ In "/"%char (list_ascii_of_string (getFileNameFromUrl Pl originalUrl))).
  { unfold getFileNameFromUrl.
    destruct (url_pathname Pl originalUrl) as [pathname|];
      [|split; [reflexivity | cbn; intuition discriminate]].
    destruct (JSFacts.last_segment_exists "/" pathname) as [segment Hseg].
    rewrite (JSFacts.last_split _ _ _ Hseg).
    destruct (JS.truthy segment && JS.includes "." segment) eqn:E.
    - apply andb_true_iff in E as [_ E]. split; [exact E | exact (proj1 Hseg)].
    - split; [reflexivity | cbn; intuition discriminate]. }
  split; [exact (proj1 Hname)|]. split; [exact (proj2 Hname)|].
  destruct (blob_type imageBlob) as [|c rest]; cbn [JS.truthy].
  - split; [discriminate|]. split; [intros H; contradiction | reflexivity].
  - split; [discriminate|]. split; [reflexivity | discriminate].
Qed.

(** *** What the injection carries *)

Ltac carry_side :=
  unfold filter_step, carries; cbn [payload];
  try rewrite bool_decide_eq_true_2 by reflexivity; reflexivity.

Ltac carry_step :=
  sat_unfold;
  lazymatch goal with
  | |- sat _ _ (bind _ _ _ _) _ _ _ => apply sat_bind
  | |- sat _ _ (ret _ _) _ _ _ => apply sat_ret
  | |- sat _ _ (throw _ _) _ _ _ => apply sat_throw
  | |- sat _ _ (gets _ _) _ _ _ => apply sat_gets
  | |- sat _ _ (emit _ _) _ _ _ => eapply sat_emit; [carry_side|]
  | |- sat _ _ (try_catch _ _ _ _) _ _ _ => apply sat_try_catch
  end; cbv beta iota; cbn [apply_event page now storage elapsed].

Ltac carry_run := repeat carry_step.

Lemma console_carries file e : is_console e = true -> carries file e = true.
Proof. destruct e; try discriminate. reflexivity. Qed.

Lemma carries_check file :
  behaves Pl (carries file) returns (checkForUploadedImage P Pl).
Proof.
  eapply behaves_weaken; [apply checkForUploadedImage_behaves| |auto].
  apply console_carries.
Qed.

Lemma clickAddButton_carries file :
  behaves Pl (carries file) (fun r => r = Ok tt) (clickAddButton P Pl).
Proof.
  intros w. unfold clickAddButton. carry_run.
  eapply sat_conseq.
  { eapply behaves_weaken with (R' := returns);
      [apply findAddButton_behaves | apply console_carries | auto]. }
  intros r [] w1 [addButton ->]. cbv beta iota.
  destruct addButton; carry_run; reflexivity.
Qed.

Lemma uploadViaFileInput_carries file :
  behaves Pl (carries file) returns (uploadViaFileInput P Pl file).
Proof.
  intros w. unfold uploadViaFileInput. carry_run.
  destruct (querySelector P (page P w) "input[type='file']"); carry_run;
    [|eexists; reflexivity].
  eapply sat_conseq; [apply carries_check|]. intros r [] w1 [up ->]. cbv beta iota.
  destruct up; carry_run; eexists; reflexivity.
Qed.

Lemma uploadViaClipboard_carries file :
  behaves Pl (carries file) returns (uploadViaClipboard P Pl file).
Proof.
  intros w. unfold uploadViaClipboard, pasteImageFromClipboard. carry_run.
  destruct (findInputArea P (page P w)); carry_run; [|eexists; reflexivity].
  eapply sat_conseq; [apply carries_check|]. intros r [] w1 [up ->]. cbv beta iota.
  destruct up; carry_run; eexists; reflexivity.
Qed.

Lemma simulateDragDropUpload_carries file :
  behaves Pl (carries file) (fun r => r = Ok tt) (simulateDragDropUpload P Pl file).
Proof.
  intros w. unfold simulateDragDropUpload. carry_run.
  apply sat_for_first with (I := fun _ _ => True); [| |exact I].
  - intros dropTarget [] w1 _ _. carry_run.
    eapply sat_conseq; [apply carries_check|]. intros r [] w2 [up ->]. cbv beta iota.
    destruct up; carry_run; [reflexivity|exact I].
  - intros [] w1 _. carry_run. reflexivity.
Qed.

Lemma uploadViaDragDrop_carries file :
  behaves Pl (carries file) (fun r => r = Ok tt) (uploadViaDragDrop P Pl file).
Proof.
  intros w. unfold uploadViaDragDrop. carry_run.
  eapply sat_conseq; [apply simulateDragDropUpload_carries|]. intros r [] w1 ->.
  cbv beta iota. carry_run.
  eapply sat_conseq; [apply carries_check|]. intros r [] w2 [up ->]. cbv beta iota.
  destruct up; carry_run; reflexivity.
Qed.

(** X20.  Whatever strategies the injection stage goes through, every
    file it hands to the page, by the file input, by the paste or by a
    drag event, is the one file built from the fetched blob and the URL of
    the image.  That file wraps the blob; its name contains a dot and no
    slash; its type is the blob's, or "image/png" when the blob has
    none. *)
Theorem upload_hands_over_the_fetched_file (imageBlob : Blob) (originalUrl : string)
    (w : World P) :
  let run := uploadImageToGemini P Pl imageBlob originalUrl w in
  forallb (carries (makeFile Pl imageBlob originalUrl)) (snd run) = true /\
  forall e file,
    In e (snd run) -> payload e = Some file ->
    file = makeFile Pl imageBlob originalUrl /\
    file_blob file = imageBlob /\
    JS.includes "." (file_name file) = true /\
    ~ In "/"%char (list_ascii_of_string (file_name file)) /\
    file_type file <> EmptyString /\
    (blob_type imageBlob <> EmptyString -> file_type file = blob_type imageBlob) /\
    (blob_type imageBlob = EmptyString -> file_type file = "image/png").
Proof.
  cbv zeta.
  assert (H : behaves Pl (carries (makeFile Pl imageBlob originalUrl)) (fun r => r = Ok tt)
                (uploadImageToGemini P Pl imageBlob originalUrl)).
  { intros w0. unfold uploadImageToGemini. cbv zeta. carry_run.
    eapply sat_conseq; [apply clickAddButton_carries|]. intros r [] w1 ->.
    cbv beta iota. carry_run.
    eapply sat_conseq; [apply uploadViaFileInput_carries|]. intros r [] w2 [returned ->].
    cbv beta iota. destruct returned; carry_run; [reflexivity|].
    eapply sat_conseq; [apply uploadViaClipboard_carries|]. intros r [] w3 [returned ->].
    cbv beta iota. destruct returned; carry_run; [reflexivity|].
    apply uploadViaDragDrop_carries. }
  pose proof (behaves_events Pl _ _ _ w H) as Hall. split; [exact Hall|].
  intros e file He Hpay. rewrite forallb_forall in Hall. specialize (Hall e He).
  unfold carries in Hall. rewrite Hpay in Hall. apply bool_decide_eq_true_1 in Hall.
  subst file. split; [reflexivity|]. apply makeFile_well_formed.
Qed.

(** *** Drag and drop *)

Lemma drags_app l1 l2 : drags (l1 ++ l2) = drags l1 ++ drags l2.
Proof. apply omap_app. Qed.

Lemma drags_console logs : forallb is_console logs = true -> drags logs = [].
Proof.
  induction logs as [|e logs IH]; [reflexivity|]. cbn [forallb]. intros H.
  apply andb_true_iff in H as [He H]. destruct e; try discriminate. exact (IH H).
Qed.

(** One attempt: the three drag events on the target, with their waits,
    then the check, which decides whether the loop goes on. *)
Lemma drop_attempt file (body : Element -> M P (option unit)) dropTarget (w : World P) :
  body = (fun dropTarget =>
            bind P Pl (log P "Trying drag-drop on:" [AElem dropTarget]) (fun _ =>
            bind P Pl (act P (DispatchDrag dropTarget "dragenter" file)) (fun _ =>
            bind P Pl (delay P 100) (fun _ =>
            bind P Pl (act P (DispatchDrag dropTarget "dragover" file)) (fun _ =>
            bind P Pl (delay P 100) (fun _ =>
            bind P Pl (act P (DispatchDrag dropTarget "drop" file)) (fun _ =>
            bind P Pl (delay P 500) (fun _ =>
            bind P Pl (checkForUploadedImage P Pl) (fun uploaded =>
            if uploaded
            then bind P Pl (log P "Drag-drop successful on:" [AElem dropTarget])
                   (fun _ => ret P (Some tt))
            else ret P None))))))))) ->
  let run := body dropTarget w in
  drags (snd run) = drag_sequence dropTarget /\
  (fst run = Ok (Some tt) /\
   Injection.uploaded P (page P (advance P Pl w (snd run))) = true \/
   fst run = Ok None).
Proof.
  intros ->. cbv zeta.
  match goal with
  | |- drags (snd (?m w)) = _ /\ _ =>
      apply (sat_record_inv Pl m w
               (fun r s w' =>
                  drags s = drag_sequence dropTarget /\
                  (r = Ok (Some tt) /\ Injection.uploaded P (page P w') = true \/
                   r = Ok None)))
  end.
  sat_run.
  match goal with |- sat _ _ _ ?w1 _ _ => generalize w1 end. intros w1.
  apply sat_record.
  destruct (checkForUploadedImage_eq P Pl w1) as (logs & -> & Hlogs).
  cbn [fst snd]. rewrite (advance_console Pl _ _ Hlogs).
  destruct (Injection.uploaded P (page P w1)) eqn:Hup; sat_run;
    (split; [rewrite !drags_app, (drags_console _ Hlogs); reflexivity|]); auto.
Qed.

Lemma drop_attempts (body : Element -> M P (option unit)) targets :
  (forall dropTarget w,
     let run := body dropTarget w in
     drags (snd run) = drag_sequence dropTarget /\
     (fst run = Ok (Some tt) /\
      Injection.uploaded P (page P (advance P Pl w (snd run))) = true \/
      fst run = Ok None)) ->
  forall w : World P,
  let run := for_first P Pl targets body w in
  exists tried untried,
    targets = tried ++ untried /\
    (targets <> [] -> tried <> []) /\
    drags (snd run) = flat_map drag_sequence tried /\
    (fst run = Ok (Some tt) /\
     Injection.uploaded P (page P (advance P Pl w (snd run))) = true \/
     fst run = Ok None /\ untried = []).
Proof.
  intros Hbody. induction targets as [|t targets IH]; intros w; cbv zeta.
  - exists [], []. split; [reflexivity|]. split; [contradiction|].
    split; [reflexivity | right; split; reflexivity].
  - cbn [for_first]. rewrite bind_eq.
    destruct (Hbody t w) as [Hd Hr]. cbv zeta in *.
    destruct (body t w) as [r0 events]. cbn [fst snd] in *.
    destruct Hr as [[-> Hup]| ->].
    + exists [t], targets. unfold ret. cbn [fst snd].
      split; [reflexivity|]. split; [discriminate|].
      rewrite app_nil_r, Hd. split; [cbn; reflexivity|]. left. auto.
    + destruct (IH (advance P Pl w events)) as (tried & untried & -> & _ & Hds & Hend).
      cbv zeta in *.
      destruct (for_first P Pl (tried ++ untried) body (advance P Pl w events)) as [r rest].
      cbn [fst snd] in *.
      exists (t :: tried), untried.
      split; [reflexivity|]. split; [discriminate|].
      rewrite drags_app, Hd, Hds, advance_app. split; [reflexivity | exact Hend].
Qed.

(** X21.  [simulateDragDropUpload] goes through its drop targets in
    order: the input area, the chat container and the main element, as
    far as the page has them, and always the body.  On each target it
    tries, it dispatches dragenter, dragover and drop, in this order.  It
    tries at least one target, and leaves targets untried only when the
    check after a drop has found an image indicator in the page.  It
    never fails. *)
Theorem drag_drop_goes_target_by_target (file : File) (w : World P) :
  let run := simulateDragDropUpload P Pl file w in
  fst run = Ok tt /\
  last (dropTargets P (page P w)) = Some (body P (page P w)) /\
  exists tried untried,
    dropTargets P (page P w) = tried ++ untried /\
    tried <> [] /\
    drags (snd run) = flat_map drag_sequence tried /\
    (untried <> [] ->
     Injection.uploaded P (page P (advance P Pl w (snd run))) = true).
Proof.
  cbv zeta. split; [|split].
  - apply (behaves_result Pl _ _ _ w (simulateDragDropUpload_behaves P Pl file)).
  - unfold dropTargets.
    destruct (findInputArea P (page P w)), (querySelector P (page P w) ".chat-container"),
      (querySelector P (page P w) "main"); reflexivity.
  - unfold simulateDragDropUpload.
    rewrite bind_gets; cbv beta. rewrite bind_log; cbv beta.
    match goal with
    | |- context [bind P Pl (for_first P Pl ?l ?body) ?k w] =>
        rewrite (bind_eq P Pl (for_first P Pl l body) k w);
        destruct (drop_attempts body l (fun t w0 => drop_attempt file body t w0 eq_refl) w)
          as (tried & untried & Hsplit & Hne & Hd & Hend);
        cbv zeta in Hd, Hend;
        destruct (for_first P Pl l body w) as [r0 events]
    end.
    cbn [fst snd] in *.
    exists tried, untried. split; [exact Hsplit|]. split.
    { apply Hne. unfold dropTargets.
      destruct (findInputArea P (page P w)), (querySelector P (page P w) ".chat-container"),
        (querySelector P (page P w) "main"); discriminate. }
    destruct Hend as [[-> Hup]|[-> ->]]; unfold ret, log, emit; cbn [snd].
    + rewrite app_nil_r. change (ConsoleLog ?m ?a :: ?l) with ([ConsoleLog m a] ++ l).
      rewrite drags_app, advance_app. cbn [advance fold_left apply_event drags omap list_omap app].
      split; [exact Hd|]. intros _. exact Hup.
    + change (ConsoleLog ?m ?a :: ?l) with ([ConsoleLog m a] ++ l).
      rewrite !drags_app, Hd. cbn [drags omap list_omap app]. rewrite app_nil_r.
      split; [reflexivity|]. intros H. contradiction.
Qed.

End WithHost.
End PayloadFacts.

(** ** The overlays a run leaves in the page *)
Module OverlayFacts.
Import Content Monitor Events MonitorFacts ProcedureFacts Orchestration Reporting Overlays.

Lemma remove_by_id_nil id : remove_by_id id [] = [].
Proof. reflexivity. Qed.

Lemma remove_from_nil ids : fold_left (fun els id => remove_by_id id els) ids [] = [].
Proof. induction ids as [|id ids IH]; [reflexivity | exact IH]. Qed.

Lemma remove_listed ids x :
  In (overlay_id (shown x)) ids ->
  fold_left (fun els id => remove_by_id id els) ids [x] = [].
Proof.
  induction ids as [|id ids IH]; [intros []|]. intros Hin. cbn [fold_left remove_by_id].
  destruct (String.eqb_spec (overlay_id (shown x)) id) as [_|Hne].
  - apply remove_from_nil.
  - apply IH. destruct Hin as [H|H]; [congruence | exact H].
Qed.

Lemma remove_all_tidy l : tidy l -> remove_all (elements l) = [].
Proof.
  intros [Hlen Hids]. unfold remove_all.
  destruct (elements l) as [|x [|y rest]]; [apply remove_from_nil | | simpl in Hlen; lia].
  apply remove_listed. inversion Hids. assumption.
Qed.

Lemma remove_by_id_keeps id x els :
  In x els -> overlay_id (shown x) <> id -> In x (remove_by_id id els).
Proof.
  induction els as [|y els IH]; [intros []|]. intros Hin Hne. cbn [remove_by_id].
  destruct Hin as [->|Hin].
  - destruct (String.eqb_spec (overlay_id (shown x)) id); [contradiction | now left].
  - destruct (String.eqb (overlay_id (shown y)) id); [exact Hin | right; auto].
Qed.

Lemma remove_unlisted ids x : forall els,
  In x els -> ~ In (overlay_id (shown x)) ids ->
  In x (fold_left (fun els id => remove_by_id id els) ids els).
Proof.
  induction ids as [|id ids IH]; intros els Hin Hnot; [exact Hin|].
  cbn [fold_left]. apply IH.
  - apply remove_by_id_keeps; [exact Hin|]. intros H. apply Hnot. now left.
  - intros H. apply Hnot. now right.
Qed.

Lemma tidy_start t : tidy {| clock := t; elements := [] |}.
Proof. split; [simpl; lia | constructor]. Qed.

Lemma filter_length {A} (f : A -> bool) l : (length (List.filter f l) <= length l)%nat.
Proof. induction l as [|x l IH]; simpl; [lia|]. destruct (f x); simpl; lia. Qed.

Lemma tidy_step l e : keeps_tidy e = true -> tidy l -> tidy (layer_event l e).
Proof.
  intros He Ht. destruct e as [a| | | |]; try exact Ht. cbn [layer_event].
  destruct a; try exact Ht; cbn [layer_act].
  - (* Elapse *)
    destruct Ht as [Hlen Hids]. split; cbn [elements].
    + pose proof (filter_length (alive (clock l + ms)) (elements l)). lia.
    + apply List.Forall_forall. intros x Hx. apply List.filter_In in Hx as [Hx _].
      rewrite List.Forall_forall in Hids. auto.
  - (* ShowOverlay *)
    rewrite (remove_all_tidy l Ht). cbn [app]. split; cbn [elements length]; [lia|].
    constructor; [|constructor]. cbn [shown].
    destruct overlay; try discriminate; cbn; tauto.
  - (* RemoveAllOverlays *)
    rewrite (remove_all_tidy l Ht). apply tidy_start.
Qed.

Lemma tidy_run events : forall l,
  forallb keeps_tidy events = true -> tidy l -> tidy (fold_left layer_event events l).
Proof.
  induction events as [|e events IH]; intros l Hall Ht; [exact Ht|].
  cbn [forallb] in Hall. apply andb_true_iff in Hall as [He Hall].
  cbn [fold_left]. apply IH; [exact Hall|]. apply tidy_step; assumption.
Qed.

Lemma forallb_prefix {A} (f : A -> bool) prefix rest :
  forallb f (prefix ++ rest) = true -> forallb f prefix = true.
Proof. rewrite forallb_app. intros H. apply andb_true_iff in H. tauto. Qed.

(** A run that keeps the layer tidy, possibly followed by the prompt and
    the report: at most one overlay after every prefix. *)
Lemma never_two (t : Z) (events body : list Event) (report : Message) :
  forallb keeps_tidy body = true ->
  events = body \/
  events = body ++ [Act (ShowOverlay ManualSendPrompt); SendMessage report] ->
  forall prefix rest,
    events = prefix ++ rest ->
    (length (elements (layer_after t prefix)) <= 1)%nat.
Proof.
  intros Hbody Hevents prefix rest Hsplit. unfold layer_after.
  destruct Hevents as [->| ->].
  - rewrite Hsplit in Hbody.
    apply (tidy_run prefix _ (forallb_prefix _ _ _ Hbody) (tidy_start t)).
  - symmetry in Hsplit. apply app_eq_app in Hsplit as [tail [[-> Htail]|[-> Hrest]]].
    + rewrite fold_left_app.
      pose proof (tidy_run body _ Hbody (tidy_start t)) as Ht.
      destruct tail as [|e1 tail]; [exact (proj1 Ht)|].
      cbn [app] in Htail. injection Htail as <- Htail.
      cbn [fold_left layer_event layer_act]. rewrite (remove_all_tidy _ Ht). cbn [app].
      destruct tail as [|e2 tail]; [cbn; lia|].
      injection Htail as <- Htail.
      destruct tail; [cbn; lia|]. discriminate.
    + apply (tidy_run prefix _ (forallb_prefix _ _ _ Hbody) (tidy_start t)).
Qed.

Lemma working_keeps_tidy e : working e = true -> keeps_tidy e = true.
Proof. by_cases_on_event e. Qed.

Lemma pressing_send_keeps_tidy e : pressing_send e = true -> keeps_tidy e = true.
Proof. by_cases_on_event e. Qed.

Section WithHost.
Context (P : Page) (Pl : Platform).

(** The events of a run: a part that keeps the layer tidy and ends with
    the overlays removed, then the last overlay and the report; or a run
    that takes up no check and shows nothing. *)
Lemma main_overlays (w : World P) :
  (forallb keeps_tidy (snd (main P Pl w)) = true /\
   forall t, elements (layer_after t (snd (main P Pl w))) = []) \/
  (exists body last report,
     snd (main P Pl w) =
       body ++ [Act RemoveAllOverlays; Act (ShowOverlay last); SendMessage report] /\
     forallb keeps_tidy body = true /\
     (last = CompletionAnimation \/ last = ManualSendPrompt \/
      exists message, last = ErrorMessage message)).
Proof.
  rewrite PickupFacts.main_eq.
  destruct (Pickup.picked_up Pl w) as [pendingImage|];
    [|left; split; [reflexivity|intros t; reflexivity]].
  destruct (_ >? _); [left; split; [reflexivity|intros t; reflexivity]|].
  right. cbv zeta. cbn [snd].
  set (w1 := advance P Pl w (Pickup.greeting ++ Pickup.announcement pendingImage)).
  destruct (ReportFacts.process_shape P Pl pendingImage w1)
    as (Hw & [(_ & sent & looking & _ & Hs & ->)|(message & _ & _ & ->)]); cbn [snd].
  - exists (Pickup.greeting ++ Pickup.announcement pendingImage ++
            snd (prepare P Pl pendingImage w1) ++ looking),
           (if sent then CompletionAnimation else ManualSendPrompt),
           (CHECK_COMPLETE true).
    split; [unfold success_report; rewrite <- !app_assoc; reflexivity|]. split.
    + rewrite !forallb_app. repeat (apply andb_true_iff; split); try reflexivity.
      * eapply RunFacts.forallb_impl; [apply working_keeps_tidy | exact Hw].
      * eapply RunFacts.forallb_impl; [apply pressing_send_keeps_tidy | exact Hs].
    + destruct sent; auto.
  - exists (Pickup.greeting ++ Pickup.announcement pendingImage ++
            snd (prepare P Pl pendingImage w1) ++ [ConsoleError "Error:" [AStr message]]),
           (ErrorMessage message), (CHECK_ERROR message).
    split; [unfold failure_report; rewrite <- !app_assoc; reflexivity|]. split.
    + rewrite !forallb_app. repeat (apply andb_true_iff; split); try reflexivity.
      eapply RunFacts.forallb_impl; [apply working_keeps_tidy | exact Hw].
    + right. right. eauto.
Qed.

(** X22.  The overlays of the script never stack.  Starting on a page
    without overlays, after every step of a run at most one overlay of
    the script is in the page.  At the end of a run there is none, when no
    check was taken up, or exactly one: the completion animation, the
    prompt to press send, or the error dialog. *)
Theorem overlays_never_stack (w : World P) :
  let events := snd (main P Pl w) in
  (forall prefix rest,
     events = prefix ++ rest ->
     (length (elements (layer_after (now P w) prefix)) <= 1)%nat) /\
  (elements (layer_after (now P w) events) = [] \/
   exists last,
     map shown (elements (layer_after (now P w) events)) = [last] /\
     (last = CompletionAnimation \/ last = ManualSendPrompt \/
      exists message, last = ErrorMessage message)).
Proof.
  cbv zeta.
  destruct (main_overlays w) as [(Hall & Hnone)|(body & last & report & -> & Hbody & Hlast)].
  - split; [|left; apply Hnone].
    intros prefix rest Hsplit.
    apply (never_two (now P w) _ _ GET_PENDING_IMAGE Hall (or_introl eq_refl) prefix rest Hsplit).
  - pose proof (tidy_run body _ Hbody (tidy_start (now P w))) as Ht.
    split.
    + intros prefix rest Hsplit.
      destruct Hlast as [->|[->|[message ->]]].
      2: { refine (never_two (now P w) _ (body ++ [Act RemoveAllOverlays]) report
                     _ _ prefix rest Hsplit).
           - rewrite forallb_app, Hbody. reflexivity.
           - right. rewrite <- app_assoc. reflexivity. }
      all: refine (never_two (now P w) _ _ report _ (or_introl eq_refl) prefix rest Hsplit);
        rewrite forallb_app, Hbody; reflexivity.
    + right. exists last. split; [|exact Hlast].
      unfold layer_after. rewrite fold_left_app.
      cbn [fold_left layer_event layer_act]. rewrite (remove_all_tidy _ Ht).
      cbn [elements clock]. reflexivity.
Qed.

End WithHost.

(** X23.  [removeAllOverlays] removes every overlay of the script but
    one.  The prompt to press send carries an id that is not among the
    ids [removeAllOverlays] looks up: once shown, it stays in the page
    through [removeAllOverlays] and through the showing of any other
    overlay, and goes when its own timer fires, 10 000 ms after it was
    shown.  Any other overlay, shown on a page with at most one removable
    overlay, is gone after [removeAllOverlays]. *)
Theorem manual_prompt_outlives_removal (l : Layer) :
  let prompt := {| shown := ManualSendPrompt; expires := Some (clock l + 10000) |} in
  let prompted := layer_act (ShowOverlay ManualSendPrompt) l in
  In prompt (elements prompted) /\
  In prompt (elements (layer_act RemoveAllOverlays prompted)) /\
  (forall other, In prompt (elements (layer_act (ShowOverlay other) prompted))) /\
  (forall ms, ms < 10000 -> In prompt (elements (layer_act (Elapse ms) prompted))) /\
  ~ In prompt (elements (layer_act (Elapse 10000) prompted)) /\
  (forall other,
     other <> ManualSendPrompt -> tidy l ->
     elements (layer_act RemoveAllOverlays (layer_act (ShowOverlay other) l)) = []).
Proof.
  cbv zeta.
  assert (Hunlisted : ~ In (overlay_id ManualSendPrompt) removed_ids).
  { cbn. intuition discriminate. }
  assert (Hin : In {| shown := ManualSendPrompt; expires := Some (clock l + 10000) |}
                   (elements (layer_act (ShowOverlay ManualSendPrompt) l))).
  { cbn [layer_act elements lifetime option_map]. apply in_or_app. right. now left. }
  split; [exact Hin|]. split; [|split; [|split; [|split]]].
  - cbn [layer_act elements] in *. apply remove_unlisted; [exact Hin | exact Hunlisted].
  - intros other. cbn [layer_act elements] in *. apply in_or_app. left.
    apply remove_unlisted; [exact Hin | exact Hunlisted].
  - intros ms Hms. cbn [layer_act elements clock] in *.
    apply List.filter_In. split; [exact Hin|].
    unfold alive. cbn [expires]. apply Z.ltb_lt. lia.
  - cbn [layer_act elements clock]. intros H. apply List.filter_In in H as [_ H].
    unfold alive in H. cbn [expires] in H. apply Z.ltb_lt in H. lia.
  - intros other Hother Ht. cbn [layer_act elements clock].
    rewrite (remove_all_tidy l Ht). cbn [app]. unfold remove_all.
    apply remove_listed. cbn [shown].
    destruct other; try contradiction; cbn; tauto.
Qed.

End OverlayFacts.
